(** * Policy retrieval and freshness engine of youthyAI

    A shallow embedding of the retrieval core of the repository:
    - [backend/app/services/youthcenter_api.py]: the catalogue client
      (period parser, expiry check, category classifier, keyword search);
    - [backend/app/services/rag_service.py]: de-duplication and ranking of
      the retrieved documents, context and citation assembly;
    - [backend/app/api/llm_chat.py]: the follow-up questions and the rows of
      the category route.

    Python values are modelled as the code uses them: a [str] is a list of
    Unicode code points, a policy is a dictionary from field names to JSON
    scalars, exceptions are an explicit result type, and the class-level
    table [POLICY_CATEGORIES] is a piece of state that is read and written. *)

From Stdlib Require Import ZArith NArith List Ascii String DecimalString Lia Bool.
From Stdlib Require Import Permutation Sorted.
From stdpp Require Import base gmap strings list.

Local Open Scope Z_scope.

(** ** The Python runtime *)

Module Py.

(** A Python [str] is a sequence of code points. *)
Definition char := N.
Definition str := list N.

(** String literals are written in UTF-8 and decoded to code points. *)
Fixpoint bytes_of (s : string) : list N :=
  match s with
  | EmptyString => []
  | String a r => N_of_ascii a :: bytes_of r
  end.

Fixpoint utf8_decode (bs : list N) : str :=
  match bs with
  | [] => []
  | b0 :: r0 =>
    if (b0 <? 128)%N then b0 :: utf8_decode r0
    else match r0 with
    | [] => []
    | b1 :: r1 =>
      if (b0 <? 224)%N then ((b0 - 192) * 64 + (b1 - 128))%N :: utf8_decode r1
      else match r1 with
      | [] => []
      | b2 :: r2 =>
        if (b0 <? 240)%N
        then ((b0 - 224) * 4096 + (b1 - 128) * 64 + (b2 - 128))%N :: utf8_decode r2
        else match r2 with
        | [] => []
        | b3 :: r3 =>
          ((b0 - 240) * 262144 + (b1 - 128) * 4096 + (b2 - 128) * 64 + (b3 - 128))%N
            :: utf8_decode r3
        end
      end
    end
  end.

Definition u (s : string) : str := utf8_decode (bytes_of s).

(** The value of an ASCII decimal digit. *)
Definition ascii_decimal (c : char) : option Z :=
  if ((48 <=? c) && (c <=? 57))%N then Some (Z.of_N c - 48) else None.

(** The character tables of the interpreter.  [decimal c] is the digit value
    of a character that the regular expression class [\d] and [int()] accept
    ([Py_UNICODE_TODECIMAL]); [isspace] is the class of [str.strip],
    [str.split] and [\s]; [lower] is [str.lower].  A digit has a value
    from 0 to 9, on ASCII the decimal digits are ['0'..'9'], and no white
    space character is a digit. *)
Class Unicode := {
  decimal : char -> option Z;
  isspace : char -> bool;
  lower : str -> str;
  decimal_range : forall c d, decimal c = Some d -> 0 <= d <= 9;
  decimal_ascii : forall c, (c < 128)%N -> decimal c = ascii_decimal c;
  decimal_not_space : forall c, isspace c = true -> decimal c = None
}.

(** Exceptions, and results of code that may raise. *)
Inductive exn :=
  | AttributeError | TypeError | ValueError | KeyError
  | HTTPError | JSONDecodeError
  | Exception (cause : exn).

Inductive exc (A : Type) :=
  | Ok (a : A)
  | Raise (e : exn).
Arguments Ok {A} a.
Arguments Raise {A} e.

Definition bind {A B} (m : exc A) (k : A -> exc B) : exc B :=
  match m with
  | Ok a => k a
  | Raise e => Raise e
  end.

Notation "x <- m ;; k" := (bind m (fun x => k))
  (at level 100, m at next level, right associativity).

(** [try: m except Exception: h] *)
Definition try_except {A} (m : exc A) (h : exn -> A) : A :=
  match m with
  | Ok a => a
  | Raise e => h e
  end.

(** Truth value of a sequence: it is not empty. *)
Definition nonempty {A} (l : list A) : bool :=
  match l with [] => false | _ => true end.

(** [needle in hay] on strings. *)
Fixpoint startswith (p s : str) : bool :=
  match p, s with
  | [], _ => true
  | _ :: _, [] => false
  | a :: p', b :: s' => (a =? b)%N && startswith p' s'
  end.

Fixpoint contains (needle hay : str) : bool :=
  startswith needle hay ||
  match hay with
  | [] => false
  | _ :: r => contains needle r
  end.

Section WithUnicode.
Context {U : Unicode}.

Fixpoint lstrip (s : str) : str :=
  match s with
  | [] => []
  | c :: r => if isspace c then lstrip r else s
  end.

Definition rstrip (s : str) : str := rev (lstrip (rev s)).

(** [s.strip()] *)
Definition strip (s : str) : str := rstrip (lstrip s).

(** [s.split()]: the maximal runs of characters that are not white space.
    [cur] is the run being read, reversed. *)
Fixpoint split_from (cur : str) (s : str) : list str :=
  match s with
  | [] => match cur with [] => [] | _ => [rev cur] end
  | c :: r =>
    if isspace c
    then match cur with [] => split_from [] r | _ => rev cur :: split_from [] r end
    else split_from (c :: cur) r
  end.

Definition split (s : str) : list str := split_from [] s.

(** [int(s)] on a string of decimal digits; [None] stands for [ValueError]. *)
Fixpoint int_from (acc : Z) (s : str) : option Z :=
  match s with
  | [] => Some acc
  | c :: r =>
    match decimal c with
    | Some d => int_from (10 * acc + d) r
    | None => None
    end
  end.

Definition int (s : str) : option Z :=
  match s with
  | [] => None
  | _ => int_from 0 s
  end.

End WithUnicode.

(** [s.replace(a, b)] for single characters. *)
Definition replace_char (a b : char) (s : str) : str :=
  map (fun c => if (c =? a)%N then b else c) s.

(** [str(n)] for a natural number. *)
Definition str_of_nat (n : nat) : str :=
  bytes_of (NilEmpty.string_of_uint (Nat.to_uint n)).

(** [sep.join(parts)] *)
Fixpoint join (sep : str) (parts : list str) : str :=
  match parts with
  | [] => []
  | [p] => p
  | p :: ps => p ++ sep ++ join sep ps
  end.

(** [datetime.date]: a calendar date; [mk_date] is the constructor, which
    raises [ValueError] (here [None]) outside the calendar. *)
Record date := Date { year : Z; month : Z; day : Z }.

Definition is_leap (y : Z) : bool :=
  (y mod 4 =? 0) && (negb (y mod 100 =? 0) || (y mod 400 =? 0)).

Definition days_in_month (y m : Z) : Z :=
  if m =? 2 then (if is_leap y then 29 else 28)
  else if (m =? 4) || (m =? 6) || (m =? 9) || (m =? 11) then 30
  else 31.

Definition mk_date (y m d : Z) : option date :=
  if (1 <=? y) && (y <=? 9999) && (1 <=? m) && (m <=? 12)
     && (1 <=? d) && (d <=? days_in_month y m)
  then Some (Date y m d) else None.

(** Dates compare by year, then month, then day. *)
Definition date_ltb (a b : date) : bool :=
  (year a <? year b)
  || ((year a =? year b)
      && ((month a <? month b) || ((month a =? month b) && (day a <? day b)))).

Definition date_leb (a b : date) : bool := negb (date_ltb b a).

(** [l.sort()] on dates: a stable insertion sort. *)
Fixpoint insert_date (d : date) (l : list date) : list date :=
  match l with
  | [] => [d]
  | x :: r => if date_ltb x d then x :: insert_date d r else d :: l
  end.

Fixpoint sort_dates (l : list date) : list date :=
  match l with
  | [] => []
  | d :: r => insert_date d (sort_dates r)
  end.

(** *** The fragment of [re] the date patterns use

    A pattern is a sequence of atoms; [Digits lo hi] is the capturing group
    [(\d{lo,hi})], [OneOf cs] is a character set or a literal, [Spaces] is
    [\s*].  Repetitions are greedy and backtrack. *)
Inductive atom :=
  | Digits (lo hi : nat)
  | OneOf (cs : str)
  | Spaces.

Section Regex.
Context {U : Unicode}.

Definition isdigit (c : char) : bool :=
  match decimal c with Some _ => true | None => false end.

(** The first [n] characters when they are all digits. *)
Fixpoint take_digits (n : nat) (s : str) : option (str * str) :=
  match n with
  | O => Some ([], s)
  | S n' =>
    match s with
    | [] => None
    | c :: r =>
      if isdigit c
      then match take_digits n' r with
           | Some (g, rest) => Some (c :: g, rest)
           | None => None
           end
      else None
    end
  end.

Fixpoint count_spaces (s : str) : nat :=
  match s with
  | [] => O
  | c :: r => if isspace c then S (count_spaces r) else O
  end.

(** The first alternative that succeeds. *)
Fixpoint first_some {A} (f : nat -> option A) (ks : list nat) : option A :=
  match ks with
  | [] => None
  | k :: ks' => match f k with Some a => Some a | None => first_some f ks' end
  end.

(** [hi, hi-1, ..., lo] *)
Definition downto (hi lo : nat) : list nat := rev (seq lo (S hi - lo)).

(** Match a pattern at the start of [s]: the captured groups and the rest. *)
Fixpoint match_here (p : list atom) (s : str) : option (list str * str) :=
  match p with
  | [] => Some ([], s)
  | Digits lo hi :: p' =>
    first_some
      (fun k =>
         match take_digits k s with
         | Some (g, rest) =>
           match match_here p' rest with
           | Some (gs, rest') => Some (g :: gs, rest')
           | None => None
           end
         | None => None
         end)
      (downto hi lo)
  | OneOf cs :: p' =>
    match s with
    | [] => None
    | c :: r => if existsb (N.eqb c) cs then match_here p' r else None
    end
  | Spaces :: p' =>
    first_some (fun k => match_here p' (drop k s)) (downto (count_spaces s) 0)
  end.

(** [re.findall(p, s)]: the groups of the successive non-overlapping
    matches, scanning from the left.  The search resumes where the last
    match ended; the date patterns never match the empty string. *)
Fixpoint findall_from (fuel : nat) (p : list atom) (s : str) : list (list str) :=
  match fuel with
  | O => []
  | S fuel' =>
    match match_here p s with
    | Some (gs, rest) =>
      gs :: (if (length rest <? length s)%nat then findall_from fuel' p rest
             else match s with [] => [] | _ :: r => findall_from fuel' p r end)
    | None =>
      match s with
      | [] => []
      | _ :: r => findall_from fuel' p r
      end
    end
  end.

Definition findall (p : list atom) (s : str) : list (list str) :=
  findall_from (S (length s)) p s.

End Regex.

(** *** More of [datetime.date] and of [str]

    [d.toordinal()]: the number of the day, 1 for 0001-01-01. *)
Definition days_before_year (y : Z) : Z :=
  let y := y - 1 in y * 365 + y / 4 - y / 100 + y / 400.

Fixpoint days_in_months (y : Z) (months : list Z) : Z :=
  match months with
  | [] => 0
  | m :: months' => days_in_month y m + days_in_months y months'
  end.

Definition days_before_month (y m : Z) : Z :=
  days_in_months y (map Z.of_nat (seq 1 (Z.to_nat (m - 1)))).

Definition toordinal (d : date) : Z :=
  days_before_year (year d) + days_before_month (year d) (month d) + day d.

(** [(a - b).days] *)
Definition days_between (a b : date) : Z := toordinal a - toordinal b.

(** [str(z)] for an integer. *)
Definition str_of_Z (z : Z) : str :=
  if z <? 0 then 45%N :: str_of_nat (Z.to_nat (- z)) else str_of_nat (Z.to_nat z).

(** *** A concrete table

    The table for the strings the repository handles in practice: ASCII and
    Hangul.  Hangul syllables have no case and are neither digits nor white
    space, so on such strings this table is what CPython computes. *)
Definition basic_isspace (c : char) : bool :=
  existsb (N.eqb c)
    [9; 10; 11; 12; 13; 28; 29; 30; 31; 32; 133; 160; 5760;
     8192; 8193; 8194; 8195; 8196; 8197; 8198; 8199; 8200; 8201; 8202;
     8232; 8233; 8239; 8287; 12288]%N.

Definition ascii_lower (s : str) : str :=
  map (fun c => if ((65 <=? c) && (c <=? 90))%N then (c + 32)%N else c) s.

End Py.

(** ** The catalogue client: [youthcenter_api.py] *)

Module YouthCenterAPIClient.
Import Py.

(** What a field of a policy holds: the JSON scalars of the catalogue's
    payload ([None], strings, integers) and, for the keys the client itself
    adds, a list of strings. *)
Inductive value :=
  | VNone
  | VStr (s : str)
  | VInt (z : Z)
  | VList (l : list str).

#[export] Instance value_eq_dec : EqDecision value.
Proof. solve_decision. Defined.

(** Truth value of a field in a condition. *)
Definition truthy (v : value) : bool :=
  match v with
  | VNone => false
  | VStr s => match s with [] => false | _ => true end
  | VInt z => negb (z =? 0)
  | VList l => match l with [] => false | _ => true end
  end.

(** Only lists cannot be members of a [set]. *)
Definition hashable (v : value) : bool :=
  match v with VList _ => false | _ => true end.

(** An element of the payload's list: a policy dictionary, or a JSON value
    of another shape, on which [.get] raises [AttributeError]. *)
Inductive item :=
  | Obj (d : gmap string value)
  | Scalar (v : value).

(** [policy.get(key, default)] *)
Definition get (policy : item) (key : string) (default : value) : exc value :=
  match policy with
  | Obj d => Ok (match d !! key with Some v => v | None => default end)
  | Scalar _ => Raise AttributeError
  end.

(** [policy[key] = v] *)
Definition setitem (policy : item) (key : string) (v : value) : exc item :=
  match policy with
  | Obj d => Ok (Obj (<[key := v]> d))
  | Scalar _ => Raise TypeError
  end.

(** [POLICY_CATEGORIES]: the class attribute, a dictionary in declaration
    order.  One table is shared by every client of the process. *)
Definition POLICY_CATEGORIES : list (str * list str) := Eval vm_compute in
  [ (u "취업", [u "취업"; u "일자리"; u "채용"; u "구직"; u "인턴"; u "구직활동"]);
    (u "창업", [u "창업"; u "스타트업"; u "사업"; u "기업"; u "벤처"]);
    (u "주거", [u "주거"; u "월세"; u "전세"; u "임대"; u "주택"; u "거주"]);
    (u "교육", [u "교육"; u "학습"; u "강의"; u "연수"; u "훈련"; u "스킬"]);
    (u "복지", [u "복지"; u "지원금"; u "수당"; u "급여"; u "생활비"; u "의료"]);
    (u "문화/예술", [u "문화"; u "예술"; u "공연"; u "전시"; u "축제"; u "체험"]);
    (u "참여권리", [u "참여"; u "권리"; u "정치"; u "시민"; u "봉사"; u "활동"]);
    (u "기타", [u "기타"; u "종합"; u "통합"; u "일반"]) ].

Definition etc : str := Eval vm_compute in u "기타".

(** The markers of a rolling admission. *)
Definition rolling_markers : list str := Eval vm_compute in
  [u "상시"; u "연중"; u "수시"; u "계속"].

Definition seps : str := Eval vm_compute in u ".-/".

(** [date_patterns]:
    [(\d{4})[.\-/](\d{1,2})[.\-/](\d{1,2})],
    [(\d{4})년\s*(\d{1,2})월\s*(\d{1,2})일] and
    [(\d{2})[.\-/](\d{1,2})[.\-/](\d{1,2})]. *)
Definition date_patterns : list (list atom) := Eval vm_compute in
  [ [Digits 4 4; OneOf seps; Digits 1 2; OneOf seps; Digits 1 2];
    [Digits 4 4; OneOf (u "년"); Spaces; Digits 1 2; OneOf (u "월"); Spaces;
     Digits 1 2; OneOf (u "일")];
    [Digits 2 2; OneOf seps; Digits 1 2; OneOf seps; Digits 1 2] ].

Definition not_available : str := Eval vm_compute in u "N/A".
Definition century_20 : str := Eval vm_compute in u "20".
Definition century_19 : str := Eval vm_compute in u "19".

Section WithUnicode.
Context {U : Unicode}.

(** The body of the inner [try] of [_parse_policy_period]: one match to a
    date.  [None] is the [ValueError] or [TypeError] after which the loop
    continues with the next match. *)
Definition parse_match (groups : list str) : option date :=
  match groups with
  | [year; month; day] =>
    year' ← (if (length year =? 2)%nat
             then y ← int year;
                  Some (if y <? 50 then century_20 ++ year else century_19 ++ year)
             else Some year);
    y ← int year';
    m ← int month;
    d ← int day;
    mk_date y m d
  | _ => None
  end.

(** The list [dates] that the two loops of [_parse_policy_period] build. *)
Definition dates (period_text : str) : list date :=
  flat_map (fun pattern => omap parse_match (findall pattern period_text))
           date_patterns.

Definition _parse_policy_period_body (period_text : value)
  : exc (option date * option date) :=
  match period_text with
  | VNone => Ok (None, None)
  | VInt z => if z =? 0 then Ok (None, None) else Raise AttributeError
  | VList l => match l with [] => Ok (None, None) | _ => Raise AttributeError end
  | VStr text =>
    if match text with [] => true | _ => false end
       || bool_decide (strip text = not_available)
    then Ok (None, None)
    else if existsb (fun keyword => contains keyword text) rolling_markers
    then Ok (None, None)
    else
      let dates := dates text in
      if (2 <=? length dates)%nat then
        let dates := sort_dates dates in
        Ok (head dates, last dates)
      else if (length dates =? 1)%nat then
        Ok (None, head dates)
      else Ok (None, None)
  end.

Definition _parse_policy_period (period_text : value)
  : option date * option date :=
  try_except (_parse_policy_period_body period_text) (fun _ => (None, None)).

(** [end_date and end_date < today] *)
Definition before (d : option date) (today : date) : bool :=
  match d with
  | Some d => date_ltb d today
  | None => false
  end.

Definition _is_policy_expired_body (today : date) (policy : item) : exc bool :=
  application_period <- get policy "rqutPrdCn" (VStr []) ;;
  let '(start_date, end_date) := _parse_policy_period application_period in
  if before end_date today then Ok true
  else
    business_period <- get policy "bizPrdCn" (VStr []) ;;
    if truthy business_period then
      let '(biz_start, biz_end) := _parse_policy_period business_period in
      if before biz_end today then Ok true else Ok false
    else Ok false.

(** [today] is the value of [date.today()]. *)
Definition _is_policy_expired (today : date) (policy : item) : bool :=
  try_except (_is_policy_expired_body today policy) (fun _ => false).

(** The loop of [_filter_active_policies], on a list. *)
Definition _filter_active_policies (today : date) (policies : list item)
  : list item :=
  filter (fun policy => _is_policy_expired today policy = false) policies.

(** *** The catalogue requests *)

(** The query string of a request. *)
Record params := Params {
  openApiVlak : str;
  pageIndex : Z;
  display : Z;
  query : option str;
  bizTycdSel : option str;
  srchPolyBizSecd : option str;
  keyword : option str
}.

(** The value the client takes for the list of the policies: any JSON
    value.  Of one that is no array the client sees its truth value and
    what [len] and [for] make of it: the characters of a string, the keys
    of an object.  A number stands for every number that is zero when it
    is; [true] and [false] are the numbers 1 and 0. *)
Inductive json_value :=
  | JList (policies : list item)
  | JNull
  | JNumber (z : Z)
  | JText (s : str)
  | JKeys (keys : list str).

(** The decoded body of a response: an object, of which only the key
    [youthPolicy] is read ([None]: the key is missing), or a JSON value of
    another kind. *)
Inductive payload :=
  | Payload (field : option json_value)
  | Elements (l : list item)
  | Text (s : str)
  | Null
  | Number (z : Z).

(** The value under the key [youthPolicy] of an object. *)
Definition youthPolicy (data : payload) : option json_value :=
  match data with
  | Payload field => field
  | _ => None
  end.

Definition key_youthPolicy : str := Eval vm_compute in u "youthPolicy".

(** ['youthPolicy' in data]: a key of an object, an element of an array,
    a substring of a string. *)
Definition has_youthPolicy (data : payload) : exc bool :=
  match data with
  | Payload field => Ok (match field with Some _ => true | None => false end)
  | Elements l =>
    Ok (existsb (fun x => match x with
                          | Scalar (VStr s) => bool_decide (s = key_youthPolicy)
                          | _ => false
                          end) l)
  | Text s => Ok (contains key_youthPolicy s)
  | Null | Number _ => Raise TypeError
  end.

(** [data['youthPolicy']] *)
Definition get_youthPolicy (data : payload) : exc json_value :=
  match data with
  | Payload (Some v) => Ok v
  | Payload None => Raise KeyError
  | _ => Raise TypeError
  end.

(** [data['youthPolicy'] = v] *)
Definition set_youthPolicy (data : payload) (v : json_value) : exc payload :=
  match data with
  | Payload _ => Ok (Payload (Some v))
  | _ => Raise TypeError
  end.

Definition truthy_json (v : json_value) : bool :=
  match v with
  | JList l => nonempty l
  | JNull => false
  | JNumber z => negb (z =? 0)
  | JText s => nonempty s
  | JKeys keys => nonempty keys
  end.

(** [len(v)] *)
Definition len (v : json_value) : exc nat :=
  match v with
  | JList l => Ok (length l)
  | JText s => Ok (length s)
  | JKeys keys => Ok (length keys)
  | JNull | JNumber _ => Raise TypeError
  end.

(** What [for policy in v] goes through. *)
Definition elements (v : json_value) : exc (list item) :=
  match v with
  | JList l => Ok l
  | JText s => Ok (map (fun c => Scalar (VStr [c])) s)
  | JKeys keys => Ok (map (fun key => Scalar (VStr key)) keys)
  | JNull | JNumber _ => Raise TypeError
  end.

(** [all_policies.extend(v)] *)
Definition extend (all_policies : list item) (v : json_value) : exc (list item) :=
  l <- elements v ;;
  Ok (all_policies ++ l).

(** [_filter_active_policies] on any value: its loop runs on what [for]
    goes through; when [for] raises, its [except] clause returns the
    argument as it is. *)
Definition filter_active (today : date) (v : json_value) : json_value :=
  match elements v with
  | Ok policies => JList (_filter_active_policies today policies)
  | Raise _ => v
  end.

(** What a request comes back with: no response at all ([client.get]
    raises), or a response of which the client looks at whether
    [raise_for_status] passes, at the [content-type] header and at the body
    read as JSON ([None] when [response.json()] raises). *)
Inductive http_result :=
  | NoResponse
  | Response (success : bool) (content_type : option str) (json : option payload).

Definition json_type : str := Eval vm_compute in u "application/json".
Definition comma : str := Eval vm_compute in u ",".

Definition build_params (api_key : str) (query : str) (page_index display : Z)
    (biz_type_codes policy_biz_codes : list str) (keyword : str) : params :=
  {| openApiVlak := api_key;
     pageIndex := page_index;
     display := Z.min display 100;
     query := if nonempty query then Some query else None;
     bizTycdSel :=
       if nonempty biz_type_codes then Some (join comma biz_type_codes) else None;
     srchPolyBizSecd :=
       if nonempty policy_biz_codes then Some (join comma policy_biz_codes) else None;
     keyword := if nonempty keyword then Some keyword else None |}.

(** [search_policies]; [server] answers the request.  Both [except] clauses
    re-raise as a plain [Exception]. *)
Definition search_policies (server : params -> http_result) (today : date)
    (api_key : str) (query : str) (page_index display : Z)
    (biz_type_codes policy_biz_codes : list str) (keyword : str) : exc payload :=
  match server (build_params api_key query page_index display
                             biz_type_codes policy_biz_codes keyword) with
  | NoResponse => Raise (Exception HTTPError)
  | Response success content_type json =>
    if negb success then Raise (Exception HTTPError)
    else
      let content_type := default [] content_type in
      match
        (data <- (if contains json_type content_type
                  then match json with
                       | Some data => Ok data
                       | None => Raise JSONDecodeError
                       end
                  else Ok (Payload (Some (JList [])))) ;;
         present <- has_youthPolicy data ;;
         if present then
           policies <- get_youthPolicy data ;;
           if truthy_json policies then
             original_count <- len policies ;;
             data <- set_youthPolicy data (filter_active today policies) ;;
             policies <- get_youthPolicy data ;;
             filtered_count <- len policies ;;
             Ok data
           else Ok data
         else Ok data)
      with
      | Ok data => Ok data
      | Raise e => Raise (Exception e)
      end
  end.

(** The first loop of [search_policies_by_keywords]: one request per
    keyword ([catalog n] answers the [n]-th request).  The result is the
    list [all_policies] when the loop ends, and the exception that ended it,
    if one did. *)
Fixpoint gather (catalog : nat -> params -> http_result) (today : date)
    (api_key : str) (max_results : Z) (n : nat) (keywords : list str)
    (all_policies : list item) : list item * option exn :=
  match keywords with
  | [] => (all_policies, None)
  | keyword :: keywords' =>
    match
      (data <- search_policies (catalog n) today api_key keyword 1
                               (Z.min 20 max_results) [] [] [] ;;
       present <- has_youthPolicy data ;;
       if present then
         policies <- get_youthPolicy data ;;
         let active_policies := filter_active today policies in
         extend all_policies active_policies
       else Ok all_policies)
    with
    | Raise e => (all_policies, Some e)
    | Ok all_policies =>
      gather catalog today api_key max_results (S n) keywords' all_policies
    end
  end.

(** [policy.get("bizId") or policy.get("polyBizSecd")] *)
Definition policy_id (policy : item) : exc value :=
  biz_id <- get policy "bizId" VNone ;;
  if truthy biz_id then Ok biz_id else get policy "polyBizSecd" VNone.

(** The second loop: [seen_ids] is the set of identifiers met so far, held
    as a list; a test of membership raises [TypeError] on a list value. *)
Fixpoint unique_loop (max_results : Z) (all_policies : list item)
    (seen_ids : list value) (unique_policies : list item) : exc (list item) :=
  match all_policies with
  | [] => Ok unique_policies
  | policy :: rest =>
    id <- policy_id policy ;;
    state <- (if truthy id
              then if hashable id
                   then if bool_decide (id ∈ seen_ids)
                        then Ok (seen_ids, unique_policies)
                        else Ok (id :: seen_ids, unique_policies ++ [policy])
                   else Raise TypeError
              else Ok (seen_ids, unique_policies)) ;;
    let '(seen_ids, unique_policies) := state in
    if max_results <=? Z.of_nat (length unique_policies) then Ok unique_policies
    else unique_loop max_results rest seen_ids unique_policies
  end.

Definition search_policies_by_keywords (catalog : nat -> params -> http_result)
    (today : date) (api_key : str) (keywords : list str) (max_results : Z)
  : list item :=
  match gather catalog today api_key max_results 0 keywords [] with
  | (all_policies, Some _) => all_policies
  | (all_policies, None) =>
    try_except (unique_loop max_results all_policies [] []) (fun _ => all_policies)
  end.

(** *** Categories *)

(** [user_context]: the keys the client reads. *)
Record user_context := UserContext { region : option str; age : option Z }.

Definition kw_local : str := Eval vm_compute in u "지역".
Definition kw_student : str := Eval vm_compute in u "대학생".
Definition kw_youth : str := Eval vm_compute in u "청년".
Definition kw_newcomer : str := Eval vm_compute in u "사회초년생".
Definition kw_worker : str := Eval vm_compute in u "직장인".

(** What [search_policies_by_category] appends to the keyword list. *)
Definition context_keywords (uc : option user_context) : list str :=
  match uc with
  | None => []
  | Some uc =>
    (match region uc with
     | Some r => if nonempty r then [r; kw_local] else []
     | None => []
     end)
    ++
    (match age uc with
     | Some a =>
       if a =? 0 then []
       else if a <=? 24 then [kw_student; kw_youth]
       else if a <=? 29 then [kw_youth; kw_newcomer]
       else if a <=? 34 then [kw_youth; kw_worker]
       else []
     | None => []
     end)
  end.

(** A table of categories is a dictionary: its keys are distinct. *)
Fixpoint lookup_category (category : str) (table : list (str * list str))
  : option (list str) :=
  match table with
  | [] => None
  | (c, keywords) :: table' =>
    if bool_decide (c = category) then Some keywords
    else lookup_category category table'
  end.

Fixpoint store_category (category : str) (keywords : list str)
    (table : list (str * list str)) : list (str * list str) :=
  match table with
  | [] => []
  | (c, old) :: table' =>
    if bool_decide (c = category) then (c, keywords) :: table'
    else (c, old) :: store_category category keywords table'
  end.

(** The loop that labels the policies found. *)
Fixpoint label_policies (category : str) (keywords : list str)
    (policies : list item) : exc (list item) :=
  match policies with
  | [] => Ok []
  | policy :: rest =>
    policy <- setitem policy "matched_category" (VStr category) ;;
    policy <- setitem policy "category_keywords" (VList keywords) ;;
    rest <- label_policies category keywords rest ;;
    Ok (policy :: rest)
  end.

(** [search_policies_by_category] reads and writes the table of the class:
    [keywords = self.POLICY_CATEGORIES[category]] is the list of the table,
    not a copy, and [keywords.extend] grows it in place.  The function
    returns the policies and the table it leaves behind. *)
Definition search_policies_by_category (table : list (str * list str))
    (catalog : nat -> params -> http_result) (today : date) (api_key : str)
    (category : str) (uc : option user_context) (max_results : Z)
  : list item * list (str * list str) :=
  let category :=
    match lookup_category category table with
    | Some _ => category
    | None => etc
    end in
  match lookup_category category table with
  | None => ([], table)
  | Some keywords =>
    let keywords := keywords ++ context_keywords uc in
    let table := store_category category keywords table in
    let policies := search_policies_by_keywords catalog today api_key keywords max_results in
    (try_except (label_policies category keywords policies) (fun _ => []), table)
  end.

(** [policy.get(key, '').lower()] *)
Definition lower_field (policy : item) (key : string) : exc str :=
  v <- get policy key (VStr []) ;;
  match v with
  | VStr s => Ok (lower s)
  | _ => Raise AttributeError
  end.

Definition space : str := Eval vm_compute in u " ".

(** The score of one category: 3 for a keyword found in the title, else 1
    for a keyword found in the text. *)
Fixpoint category_score (title text_to_analyze : str) (keywords : list str) : Z :=
  match keywords with
  | [] => 0
  | keyword :: keywords' =>
    (if contains keyword title then 3
     else if contains keyword text_to_analyze then 1
     else 0)
    + category_score title text_to_analyze keywords'
  end.

(** [max(category_scores, key=category_scores.get)]: the first key, in the
    order of the dictionary, whose score no other key exceeds. *)
Fixpoint max_from (best : str * Z) (scores : list (str * Z)) : str * Z :=
  match scores with
  | [] => best
  | x :: scores' => max_from (if snd best <? snd x then x else best) scores'
  end.

Definition max_by_score (scores : list (str * Z)) : exc (str * Z) :=
  match scores with
  | [] => Raise ValueError
  | x :: scores' => Ok (max_from x scores')
  end.

Definition category_scores (table : list (str * list str))
    (title text_to_analyze : str) : list (str * Z) :=
  map (fun '(category, keywords) =>
         (category, category_score title text_to_analyze keywords)) table.

Definition classify_policy_category_body (table : list (str * list str))
    (policy : item) : exc str :=
  title <- lower_field policy "polyBizSjnm" ;;
  content <- lower_field policy "sporCn" ;;
  target <- lower_field policy "sporTarget" ;;
  let text_to_analyze := title ++ space ++ content ++ space ++ target in
  best <- max_by_score (category_scores table title text_to_analyze) ;;
  Ok (if snd best =? 0 then etc else fst best).

(** [classify_policy_category] reads the table of the class. *)
Definition classify_policy_category (table : list (str * list str))
    (policy : item) : str :=
  try_except (classify_policy_category_body table policy) (fun _ => etc).

(** *** Searches by region and age, and by identifier *)

Definition kw_district : str := Eval vm_compute in u "구".
Definition kw_seoul : str := Eval vm_compute in u "서울".
Definition kw_job_prep : str := Eval vm_compute in u "취업준비".
Definition kw_job : str := Eval vm_compute in u "취업".
Definition kw_startup : str := Eval vm_compute in u "창업".
Definition kw_housing : str := Eval vm_compute in u "주거".

(** [region_terms], empty when no region is given. *)
Definition region_terms (region : option str) : list str :=
  match region with
  | Some region =>
    if nonempty region
    then region ::
         (if contains kw_district region && negb (contains kw_seoul region)
          then [kw_seoul] else [])
    else []
  | None => []
  end.

(** The terms the age adds. *)
Definition age_terms (age : option Z) : list str :=
  match age with
  | Some age =>
    if age =? 0 then []
    else if age <=? 24 then [kw_student; kw_youth; kw_job_prep]
    else if age <=? 29 then [kw_youth; kw_job; kw_startup]
    else if age <=? 34 then [kw_youth; kw_startup; kw_housing]
    else []
  | None => []
  end.

(** The list [search_terms] that [search_policies_by_region_and_age] builds. *)
Definition search_terms (region : option str) (age : option Z) : list str :=
  let search_terms := region_terms region ++ age_terms age in
  if nonempty search_terms then search_terms
  else [kw_youth; kw_job; kw_housing; kw_startup].

Definition search_policies_by_region_and_age (catalog : nat -> params -> http_result)
    (today : date) (api_key : str) (region : option str) (age : option Z)
    (max_results : Z) : list item :=
  search_policies_by_keywords catalog today api_key (search_terms region age) max_results.

(** The loop of [get_policy_detail]. *)
Fixpoint find_policy (policy_id : str) (policies : list item) : exc (option item) :=
  match policies with
  | [] => Ok None
  | policy :: rest =>
    secd <- get policy "polyBizSecd" VNone ;;
    if bool_decide (secd = VStr policy_id) then Ok (Some policy)
    else
      biz_id <- get policy "bizId" VNone ;;
      if bool_decide (biz_id = VStr policy_id) then Ok (Some policy)
      else find_policy policy_id rest
  end.

(** [get_policy_detail]: one request for a page of 100 policies, without
    query; [None] is also what its [except] clause returns. *)
Definition get_policy_detail (server : params -> http_result) (today : date)
    (api_key : str) (policy_id : str) : option item :=
  try_except
    (policies_data <- search_policies server today api_key [] 1 100 [] [] [] ;;
     present <- has_youthPolicy policies_data ;;
     if negb present then Ok None
     else
       policies <- get_youthPolicy policies_data ;;
       policies <- elements policies ;;
       find_policy policy_id policies)
    (fun _ => None).

End WithUnicode.

(** *** Texts for the language model *)

Section Formatting.
Context {U : Unicode}.

(** [repr] of a list of strings, as the interpreter writes it. *)
Context (repr : list str -> str).

(** A field inside an f-string: [str(v)]. *)
Definition format_value (v : value) : str :=
  match v with
  | VNone => u "None"
  | VStr s => s
  | VInt z => str_of_Z z
  | VList l => repr l
  end.

(** [period_info += s]; a list is extended by the characters of [s]. *)
Definition iadd (v : value) (s : str) : exc value :=
  match v with
  | VStr t => Ok (VStr (t ++ s))
  | VList l => Ok (VList (l ++ map (fun c => [c]) s))
  | VNone | VInt _ => Raise TypeError
  end.

(** What [format_policy_for_llm] adds to the application period: the days
    left to the end date, when there is one and it has not passed. *)
Definition period_note (today : date) (end_date : option date) : option str :=
  match end_date with
  | Some end_date =>
    let remaining_days := days_between end_date today in
    if 0 <? remaining_days
    then Some (u " (마감까지 " ++ str_of_Z remaining_days ++ u "일)")
    else if remaining_days =? 0 then Some (u " (오늘 마감)")
    else None
  | None => None
  end.

Definition period_info (today : date) (application_period : value) : exc value :=
  let '(start_date, end_date) := _parse_policy_period application_period in
  match period_note today end_date with
  | Some note => iadd application_period note
  | None => Ok application_period
  end.

Definition line_break : str := [10%N].

(** [policy.get(key, 'N/A')] inside an f-string. *)
Definition shown (policy : item) (key : string) : exc str :=
  v <- get policy key (VStr not_available) ;;
  Ok (format_value v).

Definition format_policy_for_llm_body (today : date) (policy : item) : exc str :=
  let is_expired := _is_policy_expired today policy in
  let status_emoji := if is_expired then u "🔴" else u "🟢" in
  let status_text := if is_expired then u "만료됨" else u "진행중" in
  application_period <- get policy "rqutPrdCn" (VStr not_available) ;;
  period_info <- period_info today application_period ;;
  name <- shown policy "polyBizSjnm" ;;
  field_ <- shown policy "polyRlmCd" ;;
  agency <- shown policy "cnsgNmor" ;;
  target <- shown policy "sporTarget" ;;
  content <- shown policy "sporCn" ;;
  method <- shown policy "rqutProcCn" ;;
  url <- shown policy "rfcSiteUrla1" ;;
  contact <- shown policy "cnsgNmor" ;;
  others <- shown policy "etcCn" ;;
  Ok (strip
        (line_break
         ++ u "📋 정책명: " ++ name ++ line_break
         ++ line_break
         ++ status_emoji ++ u " 상태: " ++ status_text ++ line_break
         ++ u "📊 정책 분야: " ++ field_ ++ line_break
         ++ u "🏢 주관기관: " ++ agency ++ line_break
         ++ u "🎯 지원대상: " ++ target ++ line_break
         ++ u "💰 지원내용: " ++ content ++ line_break
         ++ line_break
         ++ u "📅 신청기간: " ++ format_value period_info ++ line_break
         ++ u "📝 신청방법: " ++ method ++ line_break
         ++ line_break
         ++ u "🔗 상세정보 URL: " ++ url ++ line_break
         ++ u "📞 문의처: " ++ contact ++ line_break
         ++ line_break
         ++ u "📋 기타사항: " ++ others ++ line_break)).

(** [format_policy_for_llm]: the [except] clause formats the name again, so
    what [policy.get] raises there leaves the function. *)
Definition format_policy_for_llm (today : date) (policy : item) : exc str :=
  match format_policy_for_llm_body today policy with
  | Ok formatted => Ok formatted
  | Raise _ =>
    name <- shown policy "polyBizSjnm" ;;
    Ok (u "정책명: " ++ name)
  end.

Definition suggestion_fallback : str := Eval vm_compute in
  u "온통청년 정책 정보를 확인해보세요.".

(** The loop of [get_policy_suggestions]. *)
Fixpoint suggestions (policies : list item) : exc (list str) :=
  match policies with
  | [] => Ok []
  | policy :: rest =>
    name <- shown policy "polyBizSjnm" ;;
    agency <- shown policy "cnsgNmor" ;;
    rest <- suggestions rest ;;
    Ok ((name ++ u " - " ++ agency) :: rest)
  end.

Definition get_policy_suggestions (catalog : nat -> params -> http_result)
    (today : date) (api_key : str) (uc : option user_context) : list str :=
  let region := match uc with Some uc => region uc | None => None end in
  let age := match uc with Some uc => age uc | None => None end in
  let policies := search_policies_by_region_and_age catalog today api_key region age 10 in
  try_except (suggestions (take 5 policies)) (fun _ => [suggestion_fallback]).

End Formatting.

End YouthCenterAPIClient.

(** ** Ranking and context assembly: [rag_service.py] *)

Module RAGService.
Import Py.

(** The metadata of a [Document]: the keys the service reads.  A key that
    is there holds a string ([category]: a list of strings). *)
Record Metadata := {
  title : option str;
  agency : option str;
  region : option str;
  category : option (list str);
  status : option str;
  source_url : option str;
  source : option str;
  updated_at : option str
}.

Record Document := { page_content : str; metadata : Metadata }.

(** A citation; [relevance_score] is the constant [0.8], kept as 8/10. *)
Record Reference := {
  ref_id : str;
  ref_title : str;
  ref_url : str;
  ref_snippet : str;
  ref_source : str;
  ref_relevance_score : Z * Z;
  ref_last_updated : str
}.

Definition youthcenter : str := Eval vm_compute in u "온통청년".
Definition no_policy_found : str := Eval vm_compute in
  u "관련 정책 정보를 찾을 수 없습니다.".
Definition no_title : str := Eval vm_compute in u "제목 없음".
Definition no_agency : str := Eval vm_compute in u "기관 없음".
Definition no_region : str := Eval vm_compute in u "지역 없음".
Definition no_status : str := Eval vm_compute in u "상태 없음".
Definition no_url : str := Eval vm_compute in u "URL 없음".
Definition hash_sign : str := Eval vm_compute in u "#".
Definition ellipsis : str := Eval vm_compute in u "...".
Definition ref_prefix : str := Eval vm_compute in u "ref_".
Definition nl : str := [10%N].

Section WithUnicode.
Context {U : Unicode}.

(** [doc.metadata.get('title', '')] *)
Definition get_title (doc : Document) : str := default [] (title (metadata doc)).

(** The first loop of [_deduplicate_and_rank_docs]; [seen_titles] is a set,
    held as a list. *)
Fixpoint unique_docs_loop (docs : list Document) (seen_titles : list str)
  : list Document :=
  match docs with
  | [] => []
  | doc :: rest =>
    let title := strip (get_title doc) in
    if nonempty title && negb (bool_decide (title ∈ seen_titles))
    then doc :: unique_docs_loop rest (title :: seen_titles)
    else unique_docs_loop rest seen_titles
  end.

(** [sum(1 for keyword in query_keywords if keyword in text)] *)
Definition hits (query_keywords : list str) (text : str) : Z :=
  Z.of_nat (length (filter (fun keyword => contains keyword text = true) query_keywords)).

(** [query_keywords = set(query.lower().split())]: the distinct words of
    the query; the sums over it do not depend on its order. *)
Definition query_keywords (query : str) : list str :=
  remove_dups (split (lower query)).

Definition calculate_relevance (query_keywords : list str) (doc : Document) : Z :=
  let content := lower (page_content doc) in
  let title := lower (get_title doc) in
  let title_score := hits query_keywords title * 3 in
  let content_score := hits query_keywords content in
  let source_bonus :=
    if bool_decide (source (metadata doc) = Some youthcenter) then 2 else 0 in
  title_score + content_score + source_bonus.

(** [l.sort(key=key, reverse=True)]: descending, and stable (documents
    with equal keys keep their order). *)
Fixpoint insert_desc {A} (key : A -> Z) (x : A) (l : list A) : list A :=
  match l with
  | [] => [x]
  | y :: r => if key x <? key y then y :: insert_desc key x r else x :: l
  end.

Fixpoint sort_desc {A} (key : A -> Z) (l : list A) : list A :=
  match l with
  | [] => []
  | x :: r => insert_desc key x (sort_desc key r)
  end.

Definition _deduplicate_and_rank_docs (docs : list Document) (query : str)
  : list Document :=
  match docs with
  | [] => []
  | _ =>
    let unique_docs := unique_docs_loop docs [] in
    let query_keywords := query_keywords query in
    sort_desc (calculate_relevance query_keywords) unique_docs
  end.

Definition context_part (i : nat) (doc : Document) : str :=
  let metadata := metadata doc in
  nl ++ u "[정책 " ++ str_of_nat i ++ u "]" ++ nl
  ++ u "제목: " ++ default no_title (title metadata) ++ nl
  ++ u "기관: " ++ default no_agency (agency metadata) ++ nl
  ++ u "지역: " ++ default no_region (region metadata) ++ nl
  ++ u "카테고리: " ++ join (u ", ") (default [] (category metadata)) ++ nl
  ++ u "상태: " ++ default no_status (status metadata) ++ nl
  ++ u "출처: " ++ default no_url (source_url metadata) ++ nl
  ++ nl
  ++ u "내용:" ++ nl
  ++ take 800 (page_content doc) ++ u "..." ++ nl
  ++ nl
  ++ u "---" ++ nl.

Definition _build_context_from_docs (docs : list Document) : str :=
  match docs with
  | [] => no_policy_found
  | _ => join nl (imap (fun i doc => context_part (S i) doc) docs)
  end.

(** The snippet of a citation. *)
Definition snippet (doc : Document) : str :=
  let snippet := strip (replace_char 10%N 32%N (take 200 (page_content doc))) in
  if (200 <? length (page_content doc))%nat then snippet ++ ellipsis else snippet.

(** [now] is the value of [datetime.now().isoformat()]. *)
Definition reference (now : str) (i : nat) (doc : Document) : Reference :=
  let metadata := metadata doc in
  {| ref_id := ref_prefix ++ str_of_nat i;
     ref_title := default no_title (title metadata);
     ref_url := default hash_sign (source_url metadata);
     ref_snippet := snippet doc;
     ref_source := default no_agency (agency metadata);
     ref_relevance_score := (8, 10);
     ref_last_updated := default now (updated_at metadata) |}.

Definition _extract_references_from_docs (now : str) (docs : list Document)
  : list Reference :=
  imap (fun i doc => reference now (S i) doc) docs.

End WithUnicode.

(** *** Documents of the local store and of the retriever *)

(** [user_context] as the service reads it. *)
Record UserContext := {
  uc_region : option str;
  uc_age : option Z;
  uc_student : option bool
}.

Definition whole_seoul : str := Eval vm_compute in u "서울시 전체".

(** The loop of [_filter_docs_by_user_context]; the test of the age is
    empty in the source. *)
Fixpoint filter_docs_loop (user_context : UserContext) (docs : list Document)
  : list Document :=
  match docs with
  | [] => []
  | doc :: rest =>
    let metadata := metadata doc in
    let doc_region := default [] (region metadata) in
    if match uc_region user_context with
       | Some user_region =>
         nonempty user_region
         && negb (bool_decide (doc_region = whole_seoul))
         && negb (bool_decide (doc_region = user_region))
       | None => false
       end
    then filter_docs_loop user_context rest
    else doc :: filter_docs_loop user_context rest
  end.

Definition _filter_docs_by_user_context (docs : list Document)
    (user_context : option UserContext) : list Document :=
  match user_context with
  | None => docs
  | Some user_context => filter_docs_loop user_context docs
  end.

(** A policy as [search_local_policies] builds it from a row of the store:
    every key is there; the summary and the content may be [None], the
    other texts are strings and the category is a list, as the model
    [Policy] declares them. *)
Record LocalPolicy := {
  lp_id : str;
  lp_title : str;
  lp_summary : option str;
  lp_content : option str;
  lp_agency : str;
  lp_region : str;
  lp_category : list str;
  lp_source_url : str;
  lp_source_name : str;
  lp_valid_from : option str;
  lp_valid_to : option str
}.

Definition status_open : str := Eval vm_compute in u "open".

(** One document of [_convert_policies_to_docs].  Of the metadata the keys
    the service reads later are kept; the source writes no key [source] and
    no key [updated_at]. *)
Definition convert_policy (policy : LocalPolicy) : Document :=
  {| page_content :=
       nl ++ u "제목: " ++ lp_title policy ++ nl
       ++ u "기관: " ++ lp_agency policy ++ nl
       ++ u "지역: " ++ lp_region policy ++ nl
       ++ u "카테고리: " ++ join (u ", ") (lp_category policy) ++ nl
       ++ u "요약: " ++ default [] (lp_summary policy) ++ nl
       ++ u "상세내용: " ++ default [] (lp_content policy) ++ nl
       ++ u "출처: " ++ lp_source_url policy ++ nl;
     metadata :=
       {| title := Some (lp_title policy);
          agency := Some (lp_agency policy);
          region := Some (lp_region policy);
          category := Some (lp_category policy);
          status := Some status_open;
          source_url := Some (lp_source_url policy);
          source := None;
          updated_at := None |} |}.

Definition _convert_policies_to_docs (policies : list LocalPolicy) : list Document :=
  map convert_policy policies.

End RAGService.

(** ** Helpers of the chat routes: [llm_chat.py] *)

Module LLMChat.
Import Py.





Section WithUnicode.
Context {U : Unicode}.


End WithUnicode.

(** *** The rows of [get_policies_by_category] *)

Section CategoryRows.
Import YouthCenterAPIClient.
Context {U : Unicode}.

Definition status_expired : str := Eval vm_compute in u "만료됨".
Definition status_today : str := Eval vm_compute in u "오늘 마감".
Definition status_rolling : str := Eval vm_compute in u "상시모집".
Definition status_running : str := Eval vm_compute in u "진행중".

Definition rolling_shown : list str := Eval vm_compute in
  [u "상시"; u "연중"; u "수시"].

(** [keyword in application_period]: a substring of a string, a member of
    a list; [None] and numbers are no containers. *)
Definition occurs (keyword : str) (application_period : value) : exc bool :=
  match application_period with
  | VStr text => Ok (contains keyword text)
  | VList l => Ok (bool_decide (keyword ∈ l))
  | VNone | VInt _ => Raise TypeError
  end.

(** [any(keyword in application_period for keyword in keywords)] *)
Fixpoint any_occurs (keywords : list str) (application_period : value) : exc bool :=
  match keywords with
  | [] => Ok false
  | keyword :: keywords' =>
    found <- occurs keyword application_period ;;
    if found then Ok true else any_occurs keywords' application_period
  end.

(** [remaining_days] and [period_status] of one policy. *)
Definition period_status (today : date) (application_period : value)
  : exc (option Z * str) :=
  let '(start_date, end_date) := _parse_policy_period application_period in
  match end_date with
  | Some end_date =>
    let remaining_days := days_between end_date today in
    Ok (Some remaining_days,
        if remaining_days <? 0 then status_expired
        else if remaining_days =? 0 then status_today
        else if remaining_days <=? 7
        then u "마감 임박 (" ++ str_of_Z remaining_days ++ u "일)"
        else str_of_Z remaining_days ++ u "일 남음")
  | None =>
    rolling <- any_occurs rolling_shown application_period ;;
    Ok (None, if rolling then status_rolling else status_running)
  end.

(** [v[:3]] *)
Definition first_three (v : value) : exc value :=
  match v with
  | VStr s => Ok (VStr (take 3 s))
  | VList l => Ok (VList (take 3 l))
  | VNone | VInt _ => Raise TypeError
  end.

(** The keys of a row that are worked out; the others copy fields of the
    policy. *)
Record row := {
  row_matched_keywords : value;
  row_is_expired : bool;
  row_period_status : str;
  row_remaining_days : option Z
}.

(** The body of the loop over the policies found. *)
Definition format_row (today : date) (policy : item) : exc row :=
  let is_expired := _is_policy_expired today policy in
  application_period <- get policy "rqutPrdCn" (VStr not_available) ;;
  status <- period_status today application_period ;;
  category_keywords <- get policy "category_keywords" (VList []) ;;
  matched_keywords <- first_three category_keywords ;;
  Ok {| row_matched_keywords := matched_keywords;
        row_is_expired := is_expired;
        row_period_status := snd status;
        row_remaining_days := fst status |}.

End CategoryRows.

End LLMChat.


(** ** Vocabulary of the statements *)

Import Py.

(** [d] is a least, a greatest date of [l]. *)
Definition is_min (d : date) (l : list date) : Prop :=
  d ∈ l /\ forall x, x ∈ l -> date_leb d x = true.

Definition is_max (d : date) (l : list date) : Prop :=
  d ∈ l /\ forall x, x ∈ l -> date_leb x d = true.

Definition ascending : list date -> Prop :=
  StronglySorted (fun a b => date_leb a b = true).

(** Sorted by decreasing key. *)
Definition descending {A} (key : A -> Z) : list A -> Prop :=
  StronglySorted (fun a b => key b <= key a).

(** Dates written [YYYY.MM.DD], and periods written [YYYY.MM.DD~YYYY.MM.DD]. *)
Definition digit (n : Z) : char := Z.to_N (48 + n).

Definition two_digits (n : Z) : str := [digit (n / 10); digit (n mod 10)].

Definition four_digits (n : Z) : str :=
  [digit (n / 1000); digit (n / 100 mod 10); digit (n / 10 mod 10); digit (n mod 10)].

Definition dotted (d : date) : str :=
  four_digits (year d) ++ [46%N] ++ two_digits (month d) ++ [46%N] ++ two_digits (day d).

Definition dotted_period (d1 d2 : date) : str := dotted d1 ++ [126%N] ++ dotted d2.

(** A date of the calendar. *)
Definition calendar (d : date) : Prop := mk_date (year d) (month d) (day d) = Some d.

Section CatalogueVocabulary.
Import YouthCenterAPIClient.

(** The first of the [date_patterns]. *)
Definition pattern_dotted : list atom :=
  [Digits 4 4; OneOf seps; Digits 1 2; OneOf seps; Digits 1 2].

(** The field of a policy, [''] when the key is missing. *)
Definition field (d : gmap string value) (key : string) : value :=
  match d !! key with Some v => v | None => VStr [] end.

(** A field read as a string: [''] when the key is missing, nothing when
    the field holds another kind of value. *)
Definition str_field (d : gmap string value) (key : string) : option str :=
  match d !! key with
  | None => Some []
  | Some (VStr s) => Some s
  | Some _ => None
  end.




(** The list of a response can be read: [youthPolicy] is missing, or it
    is neither [null] nor a number. *)
Definition listed (data : payload) : Prop :=
  match youthPolicy data with
  | Some JNull | Some (JNumber _) => False
  | _ => True
  end.

(** [best] is the first entry of [scores] with the greatest score. *)
Definition first_max (best : str * Z) (scores : list (str * Z)) : Prop :=
  exists before after,
    scores = before ++ best :: after
    /\ Forall (fun x => snd x < snd best) before
    /\ Forall (fun x => snd x <= snd best) after.

Section WithUnicode.
Context {U : Unicode}.

(** A text without decimal digits. *)
Definition no_digit (s : str) : Prop := Forall (fun c => decimal c = None) s.

(** The end date a period text parses to lies before [today]. *)
Definition ends_before (period_text : value) (today : date) : Prop :=
  exists e, snd (_parse_policy_period period_text) = Some e /\ date_ltb e today = true.

Section Batch.
Context (catalog : nat -> params -> http_result) (today : date) (api_key : str).
Context (max_results : Z).

(** The outcome of the [n]-th request of a batch. *)
Definition answer (n : nat) (keyword : str) : exc payload :=
  search_policies (catalog n) today api_key keyword 1 (Z.min 20 max_results) [] [] [].

(** What a keyword contributes, as the specification words it: the active
    policies of its response, nothing when its request fails. *)
Definition contribution (n : nat) (keyword : str) : list item :=
  match answer n keyword with
  | Ok data =>
    match youthPolicy data with
    | Some (JList policies) => _filter_active_policies today policies
    | _ => []
    end
  | Raise _ => []
  end.




End Batch.
End WithUnicode.

(** *** Sample inputs *)

Definition day0 : date := Date 2025 6 1.

Definition key0 : str := Eval vm_compute in u "key".

Definition record (id title period : string) : item :=
  Obj (<["bizId" := VStr (u id)]>
       (<["polyBizSjnm" := VStr (u title)]>
        (<["rqutPrdCn" := VStr (u period)]> ∅))).

Definition json_of (policies : list item) : http_result :=
  Response true (Some json_type) (Some (Payload (Some (JList policies)))).


(** Two requests that succeed; one policy comes back twice, one has expired. *)
Definition catalog_ok (n : nat) (_ : params) : http_result :=
  match n with
  | O => json_of [record "R1" "청년 월세 지원" "상시";
                  record "R2" "청년 창업" "2020.01.01~2020.12.31"]
  | _ => json_of [record "R1" "청년 월세 지원" "상시";
                  record "R3" "청년 취업" "2025.01.01~2025.12.31";
                  record "R4" "청년 교육" ""]
  end.

Definition two_keywords : list str := Eval vm_compute in [u "청년"; u "주거"].

(** Two requests that succeed, then one that gets no response. *)
Definition catalog_third_fails (n : nat) (p : params) : http_result :=
  match n with
  | 2%nat => NoResponse
  | _ => catalog_ok n p
  end.

Definition three_keywords : list str := Eval vm_compute in [u "청년"; u "주거"; u "취업"].

(** Two requests that succeed, then a body [{"youthPolicy": null}]. *)
Definition catalog_third_null (n : nat) (p : params) : http_result :=
  match n with
  | 2%nat => Response true (Some json_type) (Some (Payload (Some JNull)))
  | _ => catalog_ok n p
  end.

Definition html : str := Eval vm_compute in u "text/html; charset=UTF-8".

(** A page of HTML with a success status, and one with an error status. *)
Definition server_html (_ : params) : http_result := Response true (Some html) None.

Definition server_denied (_ : params) : http_result := Response false (Some html) None.

(** A request for the category [창업] from a user of [성북구], and a policy
    on housing in [성북구]. *)
Definition seongbuk_user : user_context := UserContext (Some (u "성북구")) None.

Definition seongbuk_housing : item :=
  Obj (<["polyBizSjnm" := VStr (u "성북구 주거 지원")]> ∅).

End CatalogueVocabulary.

Section RankingVocabulary.
Import RAGService.

Section WithUnicode.
Context {U : Unicode}.

(** The key of the de-duplication: the title, trimmed. *)
Definition trimmed_title (doc : Document) : str := strip (get_title doc).

(** The key the specification names: the title trimmed and case-folded. *)
Definition normalized_title (doc : Document) : str := lower (strip (get_title doc)).

(** [doc] is the first document of [docs] with its trimmed title. *)
Definition first_with_title (docs : list Document) (doc : Document) : Prop :=
  exists before after,
    docs = before ++ doc :: after
    /\ Forall (fun doc' => trimmed_title doc' <> trimmed_title doc) before.

End WithUnicode.

(** *** Sample documents *)

Definition doc_of (title content : string) (src : option str) : Document :=
  {| page_content := u content;
     metadata := {| title := Some (u title); agency := None; region := None;
                    category := None; status := None; source_url := None;
                    source := src; updated_at := None |} |}.

(** Two titles that differ in case only. *)
Definition docs_case : list Document :=
  [doc_of "Youth Housing" "rent support" None; doc_of "youth housing" "rent support" None].

(** A mixed list: a title repeated with other spacing, an empty title, a
    document of the catalogue. *)
Definition docs_mixed : list Document :=
  [doc_of "청년 월세 지원" "월세 지원 안내" None;
   doc_of "  " "no title" None;
   doc_of " 청년 월세 지원 " "다른 출처" (Some youthcenter);
   doc_of "청년 취업" "취업 지원" (Some youthcenter)].

End RankingVocabulary.

(** ** Vocabulary of the further properties *)

Section FurtherVocabulary.
Import YouthCenterAPIClient.

(** The policies in the body of a response: what [for] goes through in
    the value of [youthPolicy]. *)
Definition sent (r : http_result) : list item :=
  match r with
  | Response _ _ (Some data) =>
    match youthPolicy data with
    | Some v => match elements v with Ok l => l | Raise _ => [] end
    | None => []
    end
  | _ => []
  end.

(** A decoded body that the client cannot read: [null], a number, an
    array or a string that holds ['youthPolicy'], an object whose
    [youthPolicy] is a number other than zero. *)
Definition malformed (data : payload) : Prop :=
  match data with
  | Null | Number _ => True
  | Elements _ | Text _ => has_youthPolicy data = Ok true
  | Payload (Some (JNumber z)) => z <> 0
  | Payload _ => False
  end.

(** The request fails: no response, an error status, or a body announced
    as JSON that cannot be decoded or cannot be read. *)
Definition fails (r : http_result) : Prop :=
  match r with
  | NoResponse => True
  | Response success content_type json =>
    success = false
    \/ (contains json_type (default [] content_type) = true
        /\ match json with
           | None => True
           | Some data => malformed data
           end)
  end.

End FurtherVocabulary.

Section CategoryVocabulary.
Import YouthCenterAPIClient.
Context {U : Unicode}.

(** The table of the class after [n] searches of one category for one
    user, one after the other; [catalogs k] answers the requests of the
    search that follows [k] others. *)
Fixpoint searched (n : nat) (table : list (str * list str))
    (catalogs : nat -> nat -> params -> http_result) (today : date) (api_key : str)
    (category : str) (uc : option user_context) (max_results : Z)
  : list (str * list str) :=
  match n with
  | O => table
  | S n' =>
    snd (search_policies_by_category
           (searched n' table catalogs today api_key category uc max_results)
           (catalogs n') today api_key category uc max_results)
  end.

(** A policy as the category search labels it. *)
Definition labelled (category : str) (keywords : list str) (policy : item) : item :=
  match policy with
  | Obj d =>
    Obj (<["category_keywords" := VList keywords]>
         (<["matched_category" := VStr category]> d))
  | Scalar v => Scalar v
  end.

End CategoryVocabulary.

Section PatternVocabulary.
Import YouthCenterAPIClient.

(** The last of the [date_patterns]: a year of two digits. *)
Definition pattern_short : list atom :=
  [Digits 2 2; OneOf seps; Digits 1 2; OneOf seps; Digits 1 2].

(** The digits of a date: each one is [digit n] for a figure [n]. *)
Definition figures (cs : str) : Prop :=
  Forall (fun c => exists n, 0 <= n <= 9 /\ c = digit n) cs.

(** The sign [년] that follows the year in the second pattern. *)
Definition year_sign : char := Eval vm_compute in default 0%N (head (u "년")).

(** The years a date of two digits can stand for. *)
Definition short_year (d : date) : Prop := 1950 <= year d <= 2049.

End PatternVocabulary.

Section FurtherSamples.
Import YouthCenterAPIClient.

(** A table with one category, and the user of [성북구] asking for it. *)
Definition housing : str := Eval vm_compute in u "주거".

Definition housing_table : list (str * list str) := Eval vm_compute in
  [(u "주거", [u "주거"; u "월세"])].

Definition housing_keywords : list str := Eval vm_compute in
  [u "주거"; u "월세"; u "성북구"; u "지역"].

(** What the category search makes of the first sample policy. *)
Definition housing_result : item :=
  Obj (<["category_keywords" := VList housing_keywords]>
       (<["matched_category" := VStr housing]>
        (<["bizId" := VStr (u "R1")]>
         (<["polyBizSjnm" := VStr (u "청년 월세 지원")]>
          (<["rqutPrdCn" := VStr (u "상시")]> ∅))))).

Definition new_year : date := Date 2026 1 1.

End FurtherSamples.


(** ** Facts about the runtime *)

(** The concrete table is a table of the interpreter. *)
Lemma basic_decimal_not_space (c : char) :
  basic_isspace c = true -> ascii_decimal c = None.
Proof.
  unfold basic_isspace. cbn [existsb].
  rewrite !orb_true_iff, !N.eqb_eq.
  intros H. repeat (destruct H as [-> | H]; [reflexivity |]). discriminate.
Qed.

Lemma ascii_decimal_range (c : char) (d : Z) :
  ascii_decimal c = Some d -> 0 <= d <= 9.
Proof.
  unfold ascii_decimal. destruct (_ && _) eqn:E; [|done].
  apply andb_true_iff in E as [H1%N.leb_le H2%N.leb_le]. intros [= <-]. lia.
Qed.

Definition basic_unicode : Unicode :=
  {| decimal := ascii_decimal;
     isspace := basic_isspace;
     lower := ascii_lower;
     decimal_range := ascii_decimal_range;
     decimal_ascii := fun c _ => eq_refl;
     decimal_not_space := basic_decimal_not_space |}.

Section DateOrder.

Lemma date_ltb_irrefl (a : date) : date_ltb a a = false.
Proof. unfold date_ltb. destruct a as [y m d]; simpl. lia. Qed.

Lemma date_leb_refl (a : date) : date_leb a a = true.
Proof. unfold date_leb. by rewrite date_ltb_irrefl. Qed.

Lemma date_leb_trans (a b c : date) :
  date_leb a b = true -> date_leb b c = true -> date_leb a c = true.
Proof. unfold date_leb, date_ltb. destruct a, b, c; simpl. lia. Qed.

Lemma date_ltb_leb (a b : date) : date_ltb a b = true -> date_leb a b = true.
Proof. unfold date_leb, date_ltb. destruct a, b; simpl. lia. Qed.

Lemma date_leb_total (a b : date) : date_leb a b = true \/ date_leb b a = true.
Proof. unfold date_leb, date_ltb. destruct a, b; simpl. lia. Qed.

Lemma date_leb_antisym (a b : date) :
  date_leb a b = true -> date_leb b a = true -> a = b.
Proof.
  unfold date_leb, date_ltb. destruct a as [y m d], b as [y' m' d']; simpl.
  intros H1 H2. assert (y = y' /\ m = m' /\ d = d') as (-> & -> & ->) by lia. done.
Qed.

End DateOrder.

Section SortDates.

Lemma insert_date_perm d l : Permutation (insert_date d l) (d :: l).
Proof.
  induction l as [|x r IH]; simpl; [done|].
  destruct (date_ltb x d); [|done].
  rewrite IH. apply perm_swap.
Qed.

Lemma sort_dates_perm l : Permutation (sort_dates l) l.
Proof.
  induction l as [|d r IH]; simpl; [done|].
  by rewrite insert_date_perm, IH.
Qed.

Lemma insert_date_ascending d l : ascending l -> ascending (insert_date d l).
Proof.
  unfold ascending. induction 1 as [|x r Hr IH Hx]; simpl.
  - repeat constructor.
  - destruct (date_ltb x d) eqn:E.
    + constructor; [done|].
      apply Forall_forall. intros y Hy.
      rewrite insert_date_perm in Hy.
      apply elem_of_cons in Hy as [->|Hy].
      * by apply date_ltb_leb.
      * rewrite Forall_forall in Hx. by apply Hx.
    + constructor; [by constructor|].
      assert (date_leb d x = true) as Hdx by (unfold date_leb; by rewrite E).
      constructor; [done|].
      eapply Forall_impl; [exact Hx|]. simpl. intros y Hy.
      by eapply date_leb_trans.
Qed.

Lemma sort_dates_ascending l : ascending (sort_dates l).
Proof.
  induction l; simpl; [constructor|]. by apply insert_date_ascending.
Qed.

Lemma ascending_head_min l d : ascending l -> head l = Some d -> is_min d l.
Proof.
  destruct 1 as [|x r Hr Hx]; simpl; [done|].
  intros [= ->]. split; [left|].
  intros y [->|Hy]%elem_of_cons; [apply date_leb_refl|].
  rewrite Forall_forall in Hx. by apply Hx.
Qed.

Lemma ascending_last_max l d : ascending l -> last l = Some d -> is_max d l.
Proof.
  induction 1 as [|x r Hr IH Hx]; simpl; [done|].
  destruct r as [|y r'].
  - intros [= ->]. split; [left|].
    intros z ->%list_elem_of_singleton. apply date_leb_refl.
  - intros Hl. rewrite last_cons_cons in Hl.
    destruct (IH Hl) as [Hin Hmax]. split; [by right|].
    intros z [->|Hz]%elem_of_cons; [|by apply Hmax].
    rewrite Forall_forall in Hx. by apply Hx.
Qed.

Lemma is_min_perm d l l' : Permutation l l' -> is_min d l -> is_min d l'.
Proof.
  intros HP [Hin Hle]. split; [by rewrite <- HP|].
  intros x Hx. apply Hle. by rewrite HP.
Qed.

Lemma is_max_perm d l l' : Permutation l l' -> is_max d l -> is_max d l'.
Proof.
  intros HP [Hin Hle]. split; [by rewrite <- HP|].
  intros x Hx. apply Hle. by rewrite HP.
Qed.

(** The ends of the sorted list are the least and the greatest date. *)
Lemma sort_dates_ends l :
  (2 <= length l)%nat ->
  exists s e, head (sort_dates l) = Some s /\ last (sort_dates l) = Some e
              /\ is_min s l /\ is_max e l /\ date_leb s e = true.
Proof.
  intros Hlen.
  pose proof (sort_dates_perm l) as HP.
  pose proof (sort_dates_ascending l) as HS.
  assert (length (sort_dates l) = length l) as Hl by (by rewrite HP).
  destruct (head (sort_dates l)) as [s|] eqn:Hh.
  2:{ apply head_None in Hh. rewrite Hh in Hl. simpl in Hl. lia. }
  destruct (last (sort_dates l)) as [e|] eqn:He.
  2:{ apply last_None in He. rewrite He in Hl. simpl in Hl. lia. }
  exists s, e. split_and!; try done.
  - eapply is_min_perm; [exact HP|]. by apply ascending_head_min.
  - eapply is_max_perm; [exact HP|]. by apply ascending_last_max.
  - apply (ascending_head_min _ _ HS) in Hh as [_ Hmin].
    apply (ascending_last_max _ _ HS) in He as [Hin _]. by apply Hmin.
Qed.

End SortDates.

Section SortDesc.
Context {A : Type} (key : A -> Z).

Lemma insert_desc_perm x l : Permutation (RAGService.insert_desc key x l) (x :: l).
Proof.
  induction l as [|y r IH]; simpl; [done|].
  destruct (key x <? key y); [|done]. rewrite IH. apply perm_swap.
Qed.

Lemma sort_desc_perm l : Permutation (RAGService.sort_desc key l) l.
Proof.
  induction l as [|x r IH]; simpl; [done|]. by rewrite insert_desc_perm, IH.
Qed.

Lemma insert_desc_descending x l :
  descending key l -> descending key (RAGService.insert_desc key x l).
Proof.
  unfold descending. induction 1 as [|y r Hr IH Hy]; simpl.
  - repeat constructor.
  - destruct (key x <? key y) eqn:E.
    + apply Z.ltb_lt in E. constructor; [done|].
      apply Forall_forall. intros z Hz. rewrite insert_desc_perm in Hz.
      apply elem_of_cons in Hz as [->|Hz]; [lia|].
      rewrite Forall_forall in Hy. by apply Hy.
    + apply Z.ltb_ge in E. constructor; [by constructor|].
      constructor; [done|]. eapply Forall_impl; [exact Hy|]. simpl. lia.
Qed.

Lemma sort_desc_descending l : descending key (RAGService.sort_desc key l).
Proof.
  induction l; simpl; [constructor|]. by apply insert_desc_descending.
Qed.

(** Sorting a sorted list changes nothing. *)
Lemma sort_desc_fixed l : descending key l -> RAGService.sort_desc key l = l.
Proof.
  induction 1 as [|x r Hr IH Hx]; simpl; [done|]. rewrite IH.
  destruct r as [|y r']; simpl; [done|].
  apply Forall_cons in Hx as [Hy _]. by rewrite (proj2 (Z.ltb_ge _ _) Hy).
Qed.

(** The sort is stable: the elements of one key keep their order. *)
Lemma insert_desc_stable k x l :
  filter (fun a => key a = k) (RAGService.insert_desc key x l)
  = filter (fun a => key a = k) (x :: l).
Proof.
  induction l as [|y r IH]; simpl; [done|].
  destruct (key x <? key y) eqn:E; [|done]. apply Z.ltb_lt in E.
  rewrite (filter_cons _ y), IH, !filter_cons.
  repeat case_decide; try done. lia.
Qed.

Lemma sort_desc_stable k l :
  filter (fun a => key a = k) (RAGService.sort_desc key l)
  = filter (fun a => key a = k) l.
Proof.
  induction l as [|x r IH]; simpl; [done|].
  by rewrite insert_desc_stable, !filter_cons, IH.
Qed.

End SortDesc.

Section StringFacts.
Context {U : Unicode}.

Lemma startswith_spec (p s : str) : startswith p s = true <-> exists r, s = p ++ r.
Proof.
  revert s. induction p as [|a p IH]; intros s; simpl.
  - split; [eauto|done].
  - destruct s as [|b s]; simpl.
    + split; [done|]. intros [r Hr]. discriminate.
    + rewrite andb_true_iff, N.eqb_eq, IH. split.
      * intros [-> [r ->]]. eauto.
      * intros [r [= -> ->]]. eauto.
Qed.

(** [contains] is the test of a substring. *)
Lemma contains_spec (needle hay : str) :
  contains needle hay = true <-> exists l r, hay = l ++ needle ++ r.
Proof.
  induction hay as [|c hay IH]; simpl.
  - rewrite orb_false_r, startswith_spec. split.
    + intros [r Hr]. exists [], r. done.
    + intros (l & r & H). symmetry in H.
      apply app_eq_nil in H as [-> H]. eauto.
  - rewrite orb_true_iff, startswith_spec, IH. split.
    + intros [[r Hr]|(l & r & ->)].
      * exists [], r. done.
      * exists (c :: l), r. done.
    + intros (l & r & H). destruct l as [|c' l]; simpl in H.
      * left. eauto.
      * right. injection H as -> ->. eauto.
Qed.

Lemma contains_head_elem (needle hay : str) c :
  head needle = Some c -> contains needle hay = true -> c ∈ hay.
Proof.
  intros Hh (l & r & ->)%contains_spec.
  destruct needle as [|c' n]; simplify_eq/=. set_solver.
Qed.

Lemma lstrip_decompose (s : str) :
  exists ws, s = ws ++ lstrip s /\ Forall (fun c => isspace c = true) ws.
Proof.
  induction s as [|c s (ws & Hs & Hws)]; simpl.
  - exists []. done.
  - destruct (isspace c) eqn:E.
    + exists (c :: ws). split; [by rewrite Hs at 1|by constructor].
    + exists []. done.
Qed.

(** A string is its stripped form between two runs of white space. *)
Lemma strip_decompose (s : str) :
  exists ws1 ws2, s = ws1 ++ strip s ++ ws2
    /\ Forall (fun c => isspace c = true) ws1
    /\ Forall (fun c => isspace c = true) ws2.
Proof.
  destruct (lstrip_decompose s) as (ws1 & Hs & H1).
  destruct (lstrip_decompose (rev (lstrip s))) as (ws2 & Hr & H2).
  exists ws1, (rev ws2). split_and!; [|done|by apply Forall_rev].
  unfold strip, rstrip. rewrite <- rev_app_distr, <- Hr, rev_involutive. done.
Qed.

Lemma strip_length (s : str) : (length (strip s) <= length s)%nat.
Proof.
  destruct (strip_decompose s) as (ws1 & ws2 & Hs & _).
  rewrite Hs at 2. rewrite !length_app. lia.
Qed.

Lemma strip_elem (s : str) c : c ∈ strip s -> c ∈ s.
Proof.
  destruct (strip_decompose s) as (ws1 & ws2 & Hs & _).
  rewrite Hs at 2. set_solver.
Qed.

Lemma lstrip_nil (s : str) :
  lstrip s = [] <-> Forall (fun c => isspace c = true) s.
Proof.
  induction s as [|c s IH]; simpl; [done|].
  destruct (isspace c) eqn:E.
  - rewrite IH. split; [by constructor|by inversion 1].
  - split; [done|]. inversion 1; congruence.
Qed.

(** The stripped form is empty exactly for a string of white space. *)
Lemma strip_nil (s : str) :
  strip s = [] <-> Forall (fun c => isspace c = true) s.
Proof.
  split.
  - intros H. destruct (strip_decompose s) as (ws1 & ws2 & Hs & H1 & H2).
    rewrite Hs, H. simpl. by apply Forall_app.
  - intros H. unfold strip, rstrip.
    apply lstrip_nil in H. rewrite H. done.
Qed.

End StringFacts.

Section RegexFacts.
Context {U : Unicode}.

Lemma first_some_None {A} (f : nat -> option A) ks :
  (forall k, k ∈ ks -> f k = None) -> first_some f ks = None.
Proof.
  induction ks as [|k ks IH]; simpl; [done|]. intros H.
  rewrite (H k) by left. apply IH. intros k' Hk'. apply H. by right.
Qed.

Lemma elem_of_downto k hi lo : k ∈ downto hi lo -> (lo <= k <= hi)%nat.
Proof.
  unfold downto. rewrite list_elem_of_In, <- in_rev, in_seq. lia.
Qed.

Lemma take_digits_no_digit n (s : str) :
  no_digit s -> take_digits (S n) s = None.
Proof.
  destruct 1 as [|c r Hc Hr]; simpl; [done|].
  unfold isdigit. by rewrite Hc.
Qed.

(** A pattern that starts with a group of digits matches nowhere in a text
    without digits. *)
Lemma match_here_no_digit lo hi p (s : str) :
  no_digit s -> match_here (Digits (S lo) hi :: p) s = None.
Proof.
  intros Hs. simpl. apply first_some_None.
  intros k [Hk _]%elem_of_downto.
  destruct k as [|k]; [lia|]. by rewrite take_digits_no_digit.
Qed.

Lemma findall_from_no_digit fuel lo hi p (s : str) :
  no_digit s -> findall_from fuel (Digits (S lo) hi :: p) s = [].
Proof.
  revert s. induction fuel as [|fuel IH]; intros s Hs; [done|].
  cbn [findall_from]. rewrite match_here_no_digit by done.
  destruct Hs; [done|]. by apply IH.
Qed.

Lemma findall_no_digit lo hi p (s : str) :
  no_digit s -> findall (Digits (S lo) hi :: p) s = [].
Proof. apply findall_from_no_digit. Qed.

(** The equations of the scan. *)
Lemma findall_from_match fuel p (s : str) gs rest :
  match_here p s = Some (gs, rest) -> (length rest < length s)%nat ->
  findall_from (S fuel) p s = gs :: findall_from fuel p rest.
Proof.
  intros Hm Hl. cbn [findall_from]. rewrite Hm.
  by rewrite (proj2 (Nat.ltb_lt _ _) Hl).
Qed.

Lemma findall_from_skip fuel p c (s : str) :
  match_here p (c :: s) = None ->
  findall_from (S fuel) p (c :: s) = findall_from fuel p s.
Proof. intros Hm. cbn [findall_from]. by rewrite Hm. Qed.

(** The scan never runs out of fuel: any amount above the length of the
    text gives the same matches. *)
Lemma findall_from_fuel (p : list atom) (n m : nat) (s : str) :
  (length s < n)%nat -> (length s < m)%nat ->
  findall_from n p s = findall_from m p s.
Proof.
  revert m s. induction n as [|n IH]; intros m s Hn Hm; [lia|].
  destruct m as [|m]; [lia|]. cbn [findall_from].
  destruct (match_here p s) as [[gs rest]|].
  - f_equal. destruct (length rest <? length s)%nat eqn:E.
    + apply Nat.ltb_lt in E. apply IH; lia.
    + destruct s as [|c r]; [done|]. simpl in *. apply IH; lia.
  - destruct s as [|c r]; [done|]. simpl in *. apply IH; lia.
Qed.

Lemma decimal_digit (n : Z) : 0 <= n <= 9 -> decimal (digit n) = Some n.
Proof.
  intros H. rewrite decimal_ascii by (unfold digit; lia).
  unfold ascii_decimal, digit.
  assert (((48 <=? Z.to_N (48 + n)) && (Z.to_N (48 + n) <=? 57))%N = true) as ->
    by (apply andb_true_iff; split; apply N.leb_le; lia).
  f_equal. lia.
Qed.

Lemma digit_below (n : Z) : 0 <= n <= 9 -> (digit n < 78)%N.
Proof. unfold digit. lia. Qed.

Lemma isdigit_digit (n : Z) : 0 <= n <= 9 -> isdigit (digit n) = true.
Proof. intros H. unfold isdigit. by rewrite decimal_digit. Qed.

Lemma isdigit_ascii (c : char) :
  (c < 128)%N -> isdigit c = match ascii_decimal c with Some _ => true | None => false end.
Proof. intros H. unfold isdigit. by rewrite decimal_ascii. Qed.

Lemma int_two_digits (n : Z) : 0 <= n < 100 -> int (two_digits n) = Some n.
Proof.
  intros H. unfold int, two_digits. cbn [int_from].
  rewrite !decimal_digit by (Z.to_euclidean_division_equations; lia).
  f_equal. Z.to_euclidean_division_equations. lia.
Qed.

Lemma int_four_digits (n : Z) : 0 <= n < 10000 -> int (four_digits n) = Some n.
Proof.
  intros H. unfold int, four_digits. cbn [int_from].
  rewrite !decimal_digit by (Z.to_euclidean_division_equations; lia).
  f_equal. Z.to_euclidean_division_equations. lia.
Qed.

End RegexFacts.


(** ** The period parser *)

Section PeriodParser.
Import YouthCenterAPIClient.
Context {U : Unicode}.

Lemma dates_no_digit (text : str) : no_digit text -> dates text = [].
Proof.
  intros H. unfold dates, date_patterns. cbn [flat_map].
  by rewrite !findall_no_digit.
Qed.

Lemma not_available_no_digit (text : str) :
  strip text = not_available -> no_digit text.
Proof.
  intros H. destruct (strip_decompose text) as (ws1 & ws2 & Ht & H1 & H2).
  rewrite Ht, H. unfold no_digit. rewrite !Forall_app. split_and!.
  - eapply Forall_impl; [exact H1|]. apply decimal_not_space.
  - unfold not_available. repeat constructor; by rewrite decimal_ascii.
  - eapply Forall_impl; [exact H2|]. apply decimal_not_space.
Qed.

(** On a string the body of [_parse_policy_period] raises nothing. *)
Lemma parse_policy_period_body_str (text : str) :
  _parse_policy_period_body (VStr text) = Ok (_parse_policy_period (VStr text)).
Proof.
  unfold _parse_policy_period, _parse_policy_period_body.
  repeat (case_match; simpl; try done).
Qed.

Lemma parse_policy_period_marker (text marker : str) :
  marker ∈ rolling_markers -> contains marker text = true ->
  _parse_policy_period (VStr text) = (None, None).
Proof.
  intros Hm Hc. unfold _parse_policy_period, _parse_policy_period_body.
  destruct (_ || _); [done|].
  assert (existsb (fun keyword => contains keyword text) rolling_markers = true)
    as ->; [|done].
  apply existsb_exists. exists marker. split; [by apply list_elem_of_In|done].
Qed.

Lemma parse_policy_period_no_date (text : str) :
  dates text = [] -> _parse_policy_period (VStr text) = (None, None).
Proof.
  intros Hd. unfold _parse_policy_period, _parse_policy_period_body.
  rewrite Hd. simpl. by repeat case_match.
Qed.

(** Past the two guards, the result is read off the list [dates]; the texts
    the first guard stops hold no date. *)
Lemma parse_policy_period_dates (text : str) :
  existsb (fun keyword => contains keyword text) rolling_markers = false ->
  _parse_policy_period (VStr text) =
    if (2 <=? length (dates text))%nat
    then (head (sort_dates (dates text)), last (sort_dates (dates text)))
    else if (length (dates text) =? 1)%nat then (None, head (dates text))
    else (None, None).
Proof.
  intros Hm. unfold _parse_policy_period, _parse_policy_period_body.
  rewrite Hm. destruct (_ || _) eqn:E; [|simpl; by repeat case_match].
  assert (dates text = []) as ->; [|done].
  apply orb_true_iff in E as [E|E].
  - destruct text; [|done]. done.
  - apply dates_no_digit, not_available_no_digit. by apply bool_decide_eq_true in E.
Qed.

(** The first pattern reads a date written [YYYY.MM.DD]. *)
Lemma match_here_dotted (y1 y2 y3 y4 m1 m2 d1 d2 : char) (rest : str) :
  Forall (fun c => isdigit c = true) [y1; y2; y3; y4; m1; m2; d1; d2] ->
  match_here pattern_dotted
    ([y1; y2; y3; y4] ++ [46%N] ++ [m1; m2] ++ [46%N] ++ [d1; d2] ++ rest)
  = Some ([[y1; y2; y3; y4]; [m1; m2]; [d1; d2]], rest).
Proof.
  intros H. repeat (apply Forall_cons in H as [? H]).
  cbn. repeat (match goal with Hd : isdigit _ = true |- _ => rewrite Hd; clear Hd end; cbn).
  done.
Qed.

Lemma calendar_range (d : date) :
  calendar d -> 1 <= year d <= 9999 /\ 1 <= month d <= 12 /\ 1 <= day d <= 31.
Proof.
  unfold calendar, mk_date. case_match eqn:E; [|done]. intros _.
  rewrite !andb_true_iff in E. unfold days_in_month in E.
  repeat case_match; lia.
Qed.

Lemma dotted_digits (d : date) :
  calendar d ->
  exists y1 y2 y3 y4 m1 m2 d1 d2,
    four_digits (year d) = [y1; y2; y3; y4] /\ two_digits (month d) = [m1; m2]
    /\ two_digits (day d) = [d1; d2]
    /\ Forall (fun c => isdigit c = true /\ (c < 78)%N) [y1; y2; y3; y4; m1; m2; d1; d2].
Proof.
  intros (Hy & Hm & Hd)%calendar_range.
  do 8 eexists. split_and!; try reflexivity.
  repeat constructor;
    first [apply isdigit_digit | apply digit_below];
    Z.to_euclidean_division_equations; lia.
Qed.

Lemma parse_match_dotted (d : date) :
  calendar d ->
  parse_match [four_digits (year d); two_digits (month d); two_digits (day d)] = Some d.
Proof.
  intros Hc. pose proof (calendar_range d Hc) as (Hy & Hm & Hd).
  unfold parse_match.
  change (length (four_digits (year d)) =? 2)%nat with false.
  cbn [mbind option_bind].
  rewrite int_four_digits by lia. cbn [mbind option_bind].
  rewrite !int_two_digits by lia. exact Hc.
Qed.

(** The first pattern finds the two dates of [YYYY.MM.DD~YYYY.MM.DD]. *)
Lemma findall_dotted_period (a b : date) :
  calendar a -> calendar b ->
  findall pattern_dotted (dotted_period a b) =
    [ [four_digits (year a); two_digits (month a); two_digits (day a)];
      [four_digits (year b); two_digits (month b); two_digits (day b)] ].
Proof.
  intros Ha Hb.
  destruct (dotted_digits a Ha)
    as (y1 & y2 & y3 & y4 & m1 & m2 & d1 & d2 & Ey & Em & Ed & Hda).
  destruct (dotted_digits b Hb)
    as (z1 & z2 & z3 & z4 & n1 & n2 & e1 & e2 & Fy & Fm & Fd & Hdb).
  unfold dotted_period, dotted, findall. rewrite Ey, Em, Ed, Fy, Fm, Fd.
  assert (Forall (fun c => isdigit c = true) [y1; y2; y3; y4; m1; m2; d1; d2]) as Ia
    by (eapply Forall_impl; [exact Hda|]; by intros ? [? _]).
  assert (Forall (fun c => isdigit c = true) [z1; z2; z3; z4; n1; n2; e1; e2]) as Ib
    by (eapply Forall_impl; [exact Hdb|]; by intros ? [? _]).
  cbn [length app].
  pose proof (match_here_dotted _ _ _ _ _ _ _ _
                (126%N :: [z1; z2; z3; z4; 46%N; n1; n2; 46%N; e1; e2]) Ia) as Hm.
  cbn [app] in Hm.
  rewrite (findall_from_match _ _ _ _ _ Hm) by (cbn; lia).
  clear Hm. f_equal.
  rewrite findall_from_skip.
  2:{ cbn. by rewrite isdigit_ascii. }
  pose proof (match_here_dotted _ _ _ _ _ _ _ _ [] Ib) as Hm. cbn [app] in Hm.
  rewrite (findall_from_match _ _ _ _ _ Hm) by (cbn; lia).
  f_equal.
Qed.

Lemma dates_dotted_period (a b : date) :
  calendar a -> calendar b ->
  exists more, dates (dotted_period a b) = a :: b :: more.
Proof.
  intros Ha Hb. unfold dates, date_patterns. cbn [flat_map].
  fold pattern_dotted. rewrite findall_dotted_period by done.
  cbn [omap list_omap]. rewrite !parse_match_dotted by done.
  cbn [app]. eauto.
Qed.

Lemma dotted_period_chars (a b : date) :
  calendar a -> calendar b ->
  Forall (fun c => (c < 128)%N /\ c <> 78%N) (dotted_period a b).
Proof.
  intros Ha Hb.
  destruct (dotted_digits a Ha)
    as (y1 & y2 & y3 & y4 & m1 & m2 & d1 & d2 & Ey & Em & Ed & Hda).
  destruct (dotted_digits b Hb)
    as (z1 & z2 & z3 & z4 & n1 & n2 & e1 & e2 & Fy & Fm & Fd & Hdb).
  unfold dotted_period, dotted. rewrite Ey, Em, Ed, Fy, Fm, Fd. cbn [app].
  repeat (apply Forall_cons in Hda as [[_ ?] Hda]).
  repeat (apply Forall_cons in Hdb as [[_ ?] Hdb]).
  repeat constructor; lia.
Qed.

Lemma dotted_period_no_marker (a b : date) :
  calendar a -> calendar b ->
  existsb (fun keyword => contains keyword (dotted_period a b)) rolling_markers = false.
Proof.
  intros Ha Hb. pose proof (dotted_period_chars a b Ha Hb) as Hc.
  rewrite Forall_forall in Hc.
  apply not_true_is_false. intros (m & Hm & Hcont)%existsb_exists.
  apply list_elem_of_In in Hm. unfold rolling_markers in Hm.
  repeat (apply elem_of_cons in Hm as [->|Hm];
          [eapply contains_head_elem in Hcont; [|reflexivity];
           apply Hc in Hcont; lia|]).
  by apply elem_of_nil in Hm.
Qed.

(** The parser on [YYYY.MM.DD~YYYY.MM.DD]: both ends are found, in order,
    and they enclose the two dates written. *)
Lemma parse_policy_period_dotted (a b : date) :
  calendar a -> calendar b ->
  exists s e,
    _parse_policy_period (VStr (dotted_period a b)) = (Some s, Some e)
    /\ date_leb s e = true
    /\ date_leb s a = true /\ date_leb s b = true
    /\ date_leb a e = true /\ date_leb b e = true.
Proof.
  intros Ha Hb.
  rewrite parse_policy_period_dates by by apply dotted_period_no_marker.
  destruct (dates_dotted_period a b Ha Hb) as (more & Hd). rewrite Hd.
  destruct (sort_dates_ends (a :: b :: more))
    as (s & e & Hs & He & [_ Hmin] & [_ Hmax] & Hle).
  { simpl. lia. }
  exists s, e. cbn [length Nat.leb]. rewrite Hs, He.
  split_and!; [done|done|..]; first [apply Hmin | apply Hmax]; set_solver.
Qed.

(** C8: on every string [_parse_policy_period] raises nothing, not even
    inside its [try]; a text with a rolling-admission marker gives
    [(None, None)] whatever dates it holds; a text in which no date is
    recognised gives [(None, None)]; and whenever the body raises (it does
    on a value that is not a string), the result is [(None, None)]. *)
Theorem parse_policy_period_never_raises :
  (forall text : str,
      _parse_policy_period_body (VStr text) = Ok (_parse_policy_period (VStr text)))
  /\ (forall (text marker : str),
        marker ∈ rolling_markers -> contains marker text = true ->
        _parse_policy_period (VStr text) = (None, None))
  /\ (forall text : str,
        dates text = [] -> _parse_policy_period (VStr text) = (None, None))
  /\ (forall v e,
        _parse_policy_period_body v = Raise e ->
        _parse_policy_period v = (None, None)).
Proof.
  split_and!.
  - apply parse_policy_period_body_str.
  - apply parse_policy_period_marker.
  - apply parse_policy_period_no_date.
  - intros v e H. unfold _parse_policy_period. by rewrite H.
Qed.

End PeriodParser.

Section PeriodParserExamples.
Import YouthCenterAPIClient.

(** The parser on the examples of its docstring and on a few others.  A
    date with a four-digit year is matched by the first and by the third
    pattern, so alone it is both start and end. *)
Example parse_policy_period_examples :
  let parse s := _parse_policy_period (U := basic_unicode) (VStr (u s)) in
  parse "2024.01.01~2024.12.31" = (Some (Date 2024 1 1), Some (Date 2024 12 31))
  /\ parse "2024년 1월 1일 ~ 2024년 12월 31일" = (Some (Date 2024 1 1), Some (Date 2024 12 31))
  /\ parse "상시모집" = (None, None)
  /\ parse "2024년 12월 31일까지" = (None, Some (Date 2024 12 31))
  /\ parse "24.12.31" = (None, Some (Date 2024 12 31))
  /\ parse "2024.12.31" = (Some (Date 2024 12 31), Some (Date 2024 12 31))
  /\ parse "2060.01.01" = (Some (Date 1960 1 1), Some (Date 2060 1 1))
  /\ parse "2024.02.30~2024.13.01" = (None, None)
  /\ parse " N/A " = (None, None).
Proof. cbv zeta. split_and!; vm_compute; reflexivity. Qed.

Lemma parse_policy_period_never_raises_witness :
  _parse_policy_period (U := basic_unicode)
    (VStr (u "상시 2024.01.01~2024.12.31")) = (None, None)
  /\ _parse_policy_period (U := basic_unicode) (VInt 20241231)
     = (None, None).
Proof.
  destruct (parse_policy_period_never_raises (U := basic_unicode)) as (_ & Hm & _ & Hr).
  split.
  - apply (Hm _ (u "상시")); [left|vm_compute; reflexivity].
  - apply (Hr _ AttributeError). vm_compute; reflexivity.
Defined.

End PeriodParserExamples.


(** ** The expiry check *)

Section Expiry.
Import YouthCenterAPIClient.
Context {U : Unicode}.

Lemma before_spec (period_text : value) (today : date) :
  before (snd (_parse_policy_period period_text)) today = true
  <-> ends_before period_text today.
Proof.
  unfold ends_before, before. destruct (snd _) as [e|].
  - split; [eauto|]. by intros (e' & [= ->] & ?).
  - split; [done|]. by intros (e' & ? & ?).
Qed.

Lemma is_policy_expired_obj (today : date) (d : gmap string value) :
  _is_policy_expired today (Obj d) =
    before (snd (_parse_policy_period (field d "rqutPrdCn"))) today
    || (truthy (field d "bizPrdCn")
        && before (snd (_parse_policy_period (field d "bizPrdCn"))) today).
Proof.
  unfold _is_policy_expired, _is_policy_expired_body, field. cbn [get bind].
  destruct (_parse_policy_period
              (match d !! "rqutPrdCn" with Some v => v | None => VStr [] end))
    as [start_date end_date]. cbn [snd].
  destruct (before end_date today); [done|]. cbn [orb].
  destruct (truthy _); [|done]. cbn [andb].
  destruct (_parse_policy_period _) as [biz_start biz_end]. cbn [snd].
  by destruct (before biz_end today).
Qed.

(** C2: a policy dictionary is expired exactly when the end date its
    application period [rqutPrdCn] parses to lies before today, or its
    business period [bizPrdCn] is there and parses to an end date before
    today; an exception in the check is caught and the policy counts as
    not expired, as for an element that is not a dictionary. *)
Theorem is_policy_expired_iff (today : date) :
  (forall d : gmap string value,
      _is_policy_expired today (Obj d) = true
      <-> ends_before (field d "rqutPrdCn") today
          \/ (truthy (field d "bizPrdCn") = true
              /\ ends_before (field d "bizPrdCn") today))
  /\ (forall policy e,
        _is_policy_expired_body today policy = Raise e ->
        _is_policy_expired today policy = false)
  /\ (forall v,
        _is_policy_expired_body today (Scalar v) = Raise AttributeError
        /\ _is_policy_expired today (Scalar v) = false).
Proof.
  split_and!.
  - intros d. rewrite is_policy_expired_obj.
    rewrite orb_true_iff, andb_true_iff, !before_spec. done.
  - intros policy e H. unfold _is_policy_expired. by rewrite H.
  - done.
Qed.

End Expiry.

Section ExpiryExamples.
Import YouthCenterAPIClient.

Lemma is_policy_expired_iff_witness :
  _is_policy_expired (U := basic_unicode) day0
    (record "R2" "청년 창업" "2020.01.01~2020.12.31") = true
  /\ _is_policy_expired (U := basic_unicode) day0 (Scalar (VStr (u "2020.12.31"))) = false.
Proof.
  destruct (is_policy_expired_iff (U := basic_unicode) day0) as (Hiff & Hexc & _).
  split.
  - apply Hiff. left. exists (Date 2020 12 31). split; vm_compute; reflexivity.
  - apply (Hexc _ AttributeError). vm_compute; reflexivity.
Defined.

(** A stale application period does not hide a business period that is
    over, and a period that cannot be read hides nothing. *)
Example is_policy_expired_examples :
  let expired d := _is_policy_expired (U := basic_unicode) day0 (Obj d) in
  expired (<["rqutPrdCn" := VStr (u "상시")]>
           (<["bizPrdCn" := VStr (u "2023.01.01~2023.12.31")]> ∅)) = true
  /\ expired (<["rqutPrdCn" := VStr (u "2025.01.01~2025.12.31")]> ∅) = false
  /\ expired (<["rqutPrdCn" := VInt 20201231]> ∅) = false
  /\ expired ∅ = false.
Proof. cbv zeta. split_and!; vm_compute; reflexivity. Qed.

End ExpiryExamples.

(** ** The catalogue requests *)

Section KeywordSearch.
Import YouthCenterAPIClient.
Context {U : Unicode}.
Context (catalog : nat -> params -> http_result) (today : date) (api_key : str).
Context (max_results : Z).

(** What a request that succeeds leaves under [youthPolicy]: the active
    policies of the list sent, or the falsy value sent; the key can be
    tested. *)
Lemma search_policies_ok (server : params -> http_result) (query : str)
    (page_index display : Z) (biz_type_codes policy_biz_codes : list str)
    (keyword : str) (data : payload) :
  search_policies server today api_key query page_index display
                  biz_type_codes policy_biz_codes keyword = Ok data ->
  has_youthPolicy data
  = Ok (match youthPolicy data with Some _ => true | None => false end)
  /\ match youthPolicy data with
     | Some (JList l) =>
       l = _filter_active_policies today
             (sent (server (build_params api_key query page_index display
                                         biz_type_codes policy_biz_codes keyword)))
       \/ l = []
     | Some (JNumber z) => z = 0
     | Some (JText s) => s = []
     | Some (JKeys keys) => keys = []
     | _ => True
     end.
Proof.
  unfold search_policies, sent.
  destruct (server _) as [|success content_type json]; [done|].
  destruct success; [|done]. cbn [negb].
  destruct (contains json_type _).
  2:{ cbn. intros [= <-]. cbn. auto. }
  destruct json as [data'|]; [|done]. cbn [bind].
  destruct data' as [[v|]|l|s|  |z]; cbn [has_youthPolicy bind].
  - destruct v as [l| |z|s|keys]; cbn.
    + destruct l as [|p l]; cbn; intros [= <-]; cbn; auto.
    + intros [= <-]. cbn. auto.
    + destruct (z =? 0) eqn:E; cbn; [|done]. intros [= <-]. cbn.
      split; [done|]. by apply Z.eqb_eq.
    + destruct s as [|c s]; cbn; intros [= <-]; cbn; auto.
    + destruct keys as [|k keys]; cbn; intros [= <-]; cbn; auto.
  - intros [= <-]. cbn. auto.
  - destruct (existsb _ l) eqn:E; cbn; [done|]. intros [= <-]. cbn. by rewrite E.
  - destruct (contains key_youthPolicy s) eqn:E; cbn; [done|]. intros [= <-]. cbn.
    by rewrite E.
  - done.
  - done.
Qed.

(** One turn of the first loop. *)
Lemma gather_cons_ok (n : nat) (keyword : str) (keywords : list str)
    (acc : list item) (data : payload) :
  answer catalog today api_key max_results n keyword = Ok data -> listed data ->
  gather catalog today api_key max_results n (keyword :: keywords) acc
  = gather catalog today api_key max_results (S n) keywords
      (acc ++ contribution catalog today api_key max_results n keyword).
Proof.
  intros Hd Hl. cbn [gather]. unfold contribution.
  fold (answer catalog today api_key max_results n keyword). rewrite Hd. cbn [bind].
  destruct (search_policies_ok _ _ _ _ _ _ _ _ Hd) as [-> Hshape].
  unfold listed in Hl.
  destruct (youthPolicy data) as [[l| |z|s|keys]|] eqn:Ey.
  - assert (get_youthPolicy data = Ok (JList l)) as ->
      by (by destruct data as [[?|]| | | |]; cbn in *; simplify_eq).
    cbn [bind]. unfold filter_active, extend. by cbn.
  - done.
  - done.
  - subst s. assert (get_youthPolicy data = Ok (JText [])) as ->
      by (by destruct data as [[?|]| | | |]; cbn in *; simplify_eq).
    cbn. by rewrite !app_nil_r.
  - subst keys. assert (get_youthPolicy data = Ok (JKeys [])) as ->
      by (by destruct data as [[?|]| | | |]; cbn in *; simplify_eq).
    cbn. by rewrite !app_nil_r.
  - cbn. by rewrite app_nil_r.
Qed.

Lemma gather_cons_raise (n : nat) (keyword : str) (keywords : list str)
    (acc : list item) e :
  answer catalog today api_key max_results n keyword = Raise e ->
  gather catalog today api_key max_results n (keyword :: keywords) acc = (acc, Some e).
Proof.
  intros He. cbn [gather].
  fold (answer catalog today api_key max_results n keyword). by rewrite He.
Qed.

(** A list that cannot be read ends the loop like a request that fails. *)
Lemma gather_cons_unlisted (n : nat) (keyword : str) (keywords : list str)
    (acc : list item) (data : payload) :
  answer catalog today api_key max_results n keyword = Ok data -> ~ listed data ->
  gather catalog today api_key max_results n (keyword :: keywords) acc
  = (acc, Some TypeError).
Proof.
  intros Hd Hl. cbn [gather].
  fold (answer catalog today api_key max_results n keyword). rewrite Hd. cbn [bind].
  destruct (search_policies_ok _ _ _ _ _ _ _ _ Hd) as [-> _].
  unfold listed in Hl.
  destruct data as [[[l| |z|s|keys]|]|l|s| |z]; cbn in Hl; try (by destruct Hl).
  all: reflexivity.
Qed.

(** A turn of the first loop ends the loop or adds the contribution of
    its keyword. *)
Lemma gather_cons (n : nat) (keyword : str) (keywords : list str) (acc : list item) :
  (exists e, gather catalog today api_key max_results n (keyword :: keywords) acc
             = (acc, Some e))
  \/ gather catalog today api_key max_results n (keyword :: keywords) acc
     = gather catalog today api_key max_results (S n) keywords
         (acc ++ contribution catalog today api_key max_results n keyword).
Proof.
  destruct (answer catalog today api_key max_results n keyword) as [data|e] eqn:Hd.
  - destruct (youthPolicy data) as [[l| |z|s|keys]|] eqn:Ey.
    1,4,5,6: right; apply (gather_cons_ok _ _ _ _ _ Hd); unfold listed; by rewrite Ey.
    all: left; exists TypeError; apply (gather_cons_unlisted _ _ _ _ _ Hd);
      unfold listed; rewrite Ey; tauto.
  - left. exists e. by apply gather_cons_raise.
Qed.

(** What a keyword contributes: the active policies of the list sent. *)
Lemma contribution_sent (n : nat) (keyword : str) :
  contribution catalog today api_key max_results n keyword
  = _filter_active_policies today
      (sent (catalog n (build_params api_key keyword 1 (Z.min 20 max_results)
                                     [] [] [])))
  \/ contribution catalog today api_key max_results n keyword = [].
Proof.
  unfold contribution.
  destruct (answer catalog today api_key max_results n keyword) as [data|e] eqn:Hd;
    [|by right].
  destruct (search_policies_ok _ _ _ _ _ _ _ _ Hd) as [_ Hshape].
  destruct (youthPolicy data) as [[l| |z|s|keys]|]; try by right.
  destruct Hshape as [->| ->]; [left|by right].
  unfold _filter_active_policies. rewrite list_filter_filter.
  apply list_filter_iff. tauto.
Qed.








End KeywordSearch.

Section SearchPolicies.
Import YouthCenterAPIClient.
Context {U : Unicode}.

(** C9, as amended: when the catalogue answers with a success status and a
    content type that does not hold [application/json], [search_policies]
    returns a payload whose list [youthPolicy] is empty; when it answers
    with an error status, [search_policies] raises, whatever the content
    type. *)
Theorem search_policies_not_json
    (server : params -> http_result) (today : date) (api_key query : str)
    (page_index display : Z) (biz_type_codes policy_biz_codes : list str)
    (keyword : str) (content_type : option str) (json : option payload) :
  (server (build_params api_key query page_index display
                        biz_type_codes policy_biz_codes keyword)
     = Response true content_type json ->
   contains json_type (default [] content_type) = false ->
   search_policies server today api_key query page_index display
                   biz_type_codes policy_biz_codes keyword
   = Ok (Payload (Some (JList []))))
  /\ (server (build_params api_key query page_index display
                           biz_type_codes policy_biz_codes keyword)
        = Response false content_type json ->
      search_policies server today api_key query page_index display
                      biz_type_codes policy_biz_codes keyword
      = Raise (Exception HTTPError)).
Proof.
  split.
  - intros Hr Hc. unfold search_policies. rewrite Hr. cbn [negb]. by rewrite Hc.
  - intros Hr. unfold search_policies. by rewrite Hr.
Qed.

End SearchPolicies.

Section CatalogueExamples.
Import YouthCenterAPIClient.



(** When the third request fails, what the first two gathered comes back as
    it is: [R1] twice, and four records for a cap of 2. *)
Example search_policies_by_keywords_failure_example :
  search_policies_by_keywords (U := basic_unicode) catalog_third_fails day0 key0
    three_keywords 2
  = [record "R1" "청년 월세 지원" "상시";
     record "R1" "청년 월세 지원" "상시";
     record "R3" "청년 취업" "2025.01.01~2025.12.31";
     record "R4" "청년 교육" ""].
Proof. vm_compute. reflexivity. Qed.

(** A body whose [youthPolicy] is [null] ends the batch in the same way:
    the request succeeds, the list cannot be read, and what the first two
    requests gathered comes back as it is. *)
Example search_policies_by_keywords_null_example :
  search_policies (U := basic_unicode) (catalog_third_null 2) day0 key0 (u "취업") 1 2
                  [] [] []
  = Ok (Payload (Some JNull))
  /\ search_policies_by_keywords (U := basic_unicode) catalog_third_null day0 key0
       three_keywords 2
     = [record "R1" "청년 월세 지원" "상시";
        record "R1" "청년 월세 지원" "상시";
        record "R3" "청년 취업" "2025.01.01~2025.12.31";
        record "R4" "청년 교육" ""].
Proof. split; vm_compute; reflexivity. Qed.

(** The cap is tested after a record is added: a cap of 0 lets one through. *)
Example search_policies_by_keywords_zero_cap :
  search_policies_by_keywords (U := basic_unicode) catalog_ok day0 key0 two_keywords 0
  = [record "R1" "청년 월세 지원" "상시"].
Proof. vm_compute. reflexivity. Qed.

Lemma search_policies_not_json_witness :
  search_policies (U := basic_unicode) server_html day0 key0 (u "청년") 1 20 [] [] []
  = Ok (Payload (Some (JList [])))
  /\ search_policies (U := basic_unicode) server_denied day0 key0 (u "청년") 1 20 [] [] []
     = Raise (Exception HTTPError).
Proof.
  split.
  - apply (search_policies_not_json (U := basic_unicode) server_html day0 key0 (u "청년")
             1 20 [] [] [] (Some html) None); vm_compute; reflexivity.
  - apply (search_policies_not_json (U := basic_unicode) server_denied day0 key0
             (u "청년") 1 20 [] [] [] (Some html) None); vm_compute; reflexivity.
Defined.

(** C9 as stated fails: a page of HTML with an error status makes the
    client raise. *)
Lemma search_policies_error_status_raises :
  server_denied (build_params key0 (u "청년") 1 20 [] [] []) = Response false (Some html) None
  /\ contains json_type html = false
  /\ search_policies (U := basic_unicode) server_denied day0 key0 (u "청년") 1 20 [] [] []
     = Raise (Exception HTTPError).
Proof. split_and!; vm_compute; reflexivity. Qed.

End CatalogueExamples.

(** ** The classifier *)

Section Classifier.
Import YouthCenterAPIClient.
Context {U : Unicode}.

Lemma max_from_first_max (best : str * Z) (scores : list (str * Z)) :
  first_max (max_from best scores) (best :: scores).
Proof.
  revert best. induction scores as [|x scores IH]; intros best; simpl.
  - exists [], []. split_and!; [done|constructor|constructor].
  - destruct (snd best <? snd x) eqn:E.
    + apply Z.ltb_lt in E.
      destruct (IH x) as (before & after & Heq & Hb & Ha).
      exists (best :: before), after. split_and!.
      * simpl. f_equal. exact Heq.
      * constructor; [|done].
        destruct before as [|y before].
        -- injection Heq as Hx _. rewrite <- Hx. lia.
        -- injection Heq as -> _. apply Forall_cons in Hb as [Hb _]. lia.
      * done.
    + apply Z.ltb_ge in E.
      destruct (IH best) as (before & after & Heq & Hb & Ha).
      destruct before as [|y before].
      * injection Heq as Hbest ->. exists [], (x :: after).
        split_and!; [by rewrite <- Hbest|constructor|].
        constructor; [by rewrite <- Hbest|done].
      * injection Heq as -> Heq. apply Forall_cons in Hb as [Hy Hb].
        exists (y :: x :: before), after. split_and!.
        -- simpl. do 2 f_equal. exact Heq.
        -- constructor; [done|]. constructor; [lia|done].
        -- done.
Qed.

(** On a given table and a policy whose three fields are strings, the
    classifier returns the first category with the greatest score, and the
    catch-all category when that score is 0. *)
Lemma classify_policy_category_spec (table : list (str * list str))
    (d : gmap string value) (title content target : str) :
  str_field d "polyBizSjnm" = Some title ->
  str_field d "sporCn" = Some content ->
  str_field d "sporTarget" = Some target ->
  table <> [] ->
  let text := lower title ++ space ++ lower content ++ space ++ lower target in
  exists best,
    first_max best (category_scores table (lower title) text)
    /\ classify_policy_category table (Obj d)
       = if snd best =? 0 then etc else fst best.
Proof.
  intros Ht Hc Hg Hne text.
  assert (forall key s, str_field d key = Some s ->
                        lower_field (Obj d) key = Ok (lower s)) as Hfield.
  { intros key s. unfold str_field, lower_field. cbn [get bind].
    destruct (d !! key) as [[]|]; naive_solver. }
  unfold classify_policy_category, classify_policy_category_body.
  rewrite (Hfield _ _ Ht), (Hfield _ _ Hc), (Hfield _ _ Hg). cbn [bind].
  fold text. destruct table as [|[c kws] table]; [done|].
  cbn [category_scores map max_by_score bind try_except].
  eexists. split; [apply max_from_first_max|done].
Qed.

(** A field that is not a string sends the policy to the catch-all category. *)
Lemma classify_policy_category_raises (table : list (str * list str)) (policy : item) e :
  classify_policy_category_body table policy = Raise e ->
  classify_policy_category table policy = etc.
Proof. intros H. unfold classify_policy_category. by rewrite H. Qed.

(** The search by category leaves the table with a longer keyword list. *)
Lemma search_policies_by_category_table (table : list (str * list str))
    (catalog : nat -> params -> http_result) (today : date) (api_key : str)
    (category : str) (uc : option user_context) (max_results : Z)
    (keywords : list str) :
  lookup_category category table = Some keywords ->
  snd (search_policies_by_category table catalog today api_key category uc max_results)
  = store_category category (keywords ++ context_keywords uc) table.
Proof.
  intros H. unfold search_policies_by_category. rewrite H. by rewrite H.
Qed.

End Classifier.

Section ClassifierExamples.
Import YouthCenterAPIClient.

(** On the table as declared: keywords of the title count 3, keywords of
    the rest 1, the first category wins a tie, no keyword gives [기타]. *)
Example classify_policy_category_examples :
  let classify title content :=
    classify_policy_category (U := basic_unicode) POLICY_CATEGORIES
      (Obj (<["polyBizSjnm" := VStr (u title)]> (<["sporCn" := VStr (u content)]> ∅))) in
  classify "청년 창업 지원" "" = u "창업"
  /\ classify "청년 지원" "월세 전세 임대 창업" = u "주거"
  /\ classify "창업" "월세 전세 임대 주택" = u "주거"
  /\ classify "주거 취업" "" = u "취업"
  /\ classify "청년" "안내" = u "기타"
  /\ classify_policy_category (U := basic_unicode) POLICY_CATEGORIES
       (Obj (<["polyBizSjnm" := VNone]> (<["sporCn" := VStr (u "취업")]> ∅))) = u "기타".
Proof. cbv zeta. split_and!; vm_compute; reflexivity. Qed.

(** C4: the classifier reads the table of the class, and the search by
    category grows that table in place.  On the table as declared the
    policy titled [성북구 주거 지원] is classified [주거]; after one search
    of the category [창업] for a user of [성북구], whatever the catalogue
    answers, the keywords of [창업] hold [성북구] and the same policy is
    classified [창업]. *)
Theorem classify_policy_category_shared_table
    (catalog : nat -> params -> http_result) (today : date) (api_key : str)
    (max_results : Z) :
  let table :=
    snd (search_policies_by_category (U := basic_unicode) POLICY_CATEGORIES
           catalog today api_key (u "창업") (Some seongbuk_user) max_results) in
  classify_policy_category (U := basic_unicode) POLICY_CATEGORIES seongbuk_housing
  = u "주거"
  /\ classify_policy_category (U := basic_unicode) table seongbuk_housing = u "창업"
  /\ lookup_category (u "창업") table
     = Some [u "창업"; u "스타트업"; u "사업"; u "기업"; u "벤처"; u "성북구"; u "지역"].
Proof.
  intros table.
  assert (table = store_category (u "창업")
                    [u "창업"; u "스타트업"; u "사업"; u "기업"; u "벤처"; u "성북구"; u "지역"]
                    POLICY_CATEGORIES) as -> by reflexivity.
  split_and!; vm_compute; reflexivity.
Qed.

End ClassifierExamples.


(** ** De-duplication and ranking of the documents *)

Section Ranking.
Import RAGService.
Context {U : Unicode}.

Lemma unique_docs_loop_keys (docs : list Document) (seen : list str) :
  Forall (fun doc => trimmed_title doc <> [] /\ trimmed_title doc ∉ seen)
         (unique_docs_loop docs seen)
  /\ NoDup (map trimmed_title (unique_docs_loop docs seen)).
Proof.
  revert seen. induction docs as [|doc rest IH]; intros seen; simpl.
  - split; constructor.
  - fold (trimmed_title doc).
    destruct (nonempty (trimmed_title doc)) eqn:Hne; cbn [andb]; [|apply IH].
    destruct (bool_decide (trimmed_title doc ∈ seen)) eqn:Hin; cbn [negb]; [apply IH|].
    apply bool_decide_eq_false in Hin.
    destruct (IH (trimmed_title doc :: seen)) as [Hall Hnd]. split.
    + constructor.
      * split; [|done]. by destruct (trimmed_title doc).
      * eapply Forall_impl; [exact Hall|]. simpl. intros d [? Hd].
        split; [done|]. intros ?. apply Hd. by right.
    + simpl. constructor; [|done].
      rewrite list_elem_of_fmap. intros (d & Hd & Hdin).
      rewrite Forall_forall in Hall. destruct (Hall d Hdin) as [_ Hns].
      apply Hns. rewrite <- Hd. left.
Qed.

(** Each document kept is the first of the input with its trimmed title. *)
Lemma unique_docs_loop_first (docs : list Document) (seen : list str) :
  Forall (first_with_title docs) (unique_docs_loop docs seen).
Proof.
  revert seen. induction docs as [|doc rest IH]; intros seen; simpl; [constructor|].
  fold (trimmed_title doc).
  assert (forall seen' d,
             d ∈ unique_docs_loop rest seen' ->
             trimmed_title doc <> trimmed_title d ->
             first_with_title (doc :: rest) d) as Hlift.
  { intros seen' d Hd Hne. specialize (IH seen'). rewrite Forall_forall in IH.
    destruct (IH d Hd) as (before & after & -> & Hb).
    exists (doc :: before), after. split; [done|]. by constructor. }
  destruct (nonempty (trimmed_title doc)) eqn:Hne; cbn [andb].
  - destruct (bool_decide (trimmed_title doc ∈ seen)) eqn:Hin; cbn [negb].
    + apply bool_decide_eq_true in Hin. apply Forall_forall. intros d Hd.
      apply (Hlift seen d Hd). intros Heq.
      destruct (unique_docs_loop_keys rest seen) as [Hall _].
      rewrite Forall_forall in Hall. destruct (Hall d Hd) as [_ Hns].
      apply Hns. by rewrite <- Heq.
    + constructor.
      * exists [], rest. split; [done|constructor].
      * apply Forall_forall. intros d Hd.
        apply (Hlift _ d Hd). intros Heq.
        destruct (unique_docs_loop_keys rest (trimmed_title doc :: seen)) as [Hall _].
        rewrite Forall_forall in Hall. destruct (Hall d Hd) as [_ Hns].
        apply Hns. rewrite <- Heq. left.
  - apply Forall_forall. intros d Hd.
    apply (Hlift seen d Hd). intros Heq.
    destruct (unique_docs_loop_keys rest seen) as [Hall _].
    rewrite Forall_forall in Hall. destruct (Hall d Hd) as [Hnn _].
    rewrite <- Heq in Hnn. by destruct (trimmed_title doc).
Qed.

(** Every title of the input that is not empty is kept. *)
Lemma unique_docs_loop_complete (docs : list Document) (seen : list str) :
  Forall (fun doc => trimmed_title doc <> [] -> trimmed_title doc ∉ seen ->
                     trimmed_title doc ∈ map trimmed_title (unique_docs_loop docs seen))
         docs.
Proof.
  revert seen. induction docs as [|doc rest IH]; intros seen; [constructor|].
  simpl. fold (trimmed_title doc).
  destruct (nonempty (trimmed_title doc)) eqn:Hne; cbn [andb].
  - destruct (bool_decide (trimmed_title doc ∈ seen)) eqn:Hin; cbn [negb].
    + apply bool_decide_eq_true in Hin. constructor; [done|]. apply IH.
    + constructor; [intros; left|].
      specialize (IH (trimmed_title doc :: seen)).
      eapply Forall_impl; [exact IH|]. simpl. intros d Hd Hnn Hns.
      destruct (decide (trimmed_title d = trimmed_title doc)) as [->|Hne'].
      * left.
      * right. apply Hd; [done|]. intros [?|?]%elem_of_cons; done.
  - constructor; [|apply IH]. intros Hnn. by destruct (trimmed_title doc).
Qed.

(** The loop changes nothing on a list that is already de-duplicated. *)
Lemma unique_docs_loop_fixed (docs : list Document) (seen : list str) :
  NoDup (map trimmed_title docs) ->
  Forall (fun doc => trimmed_title doc <> [] /\ trimmed_title doc ∉ seen) docs ->
  unique_docs_loop docs seen = docs.
Proof.
  revert seen. induction docs as [|doc rest IH]; intros seen Hnd Hall; [done|].
  simpl in *. fold (trimmed_title doc).
  apply NoDup_cons in Hnd as [Hni Hnd]. apply Forall_cons in Hall as [[Hnn Hns] Hall].
  assert (nonempty (trimmed_title doc) = true) as -> by (by destruct (trimmed_title doc)).
  rewrite bool_decide_eq_false_2 by done. cbn [andb negb]. f_equal.
  apply IH; [done|]. apply Forall_forall. intros d Hd.
  rewrite Forall_forall in Hall. destruct (Hall d Hd) as [? Hds].
  split; [done|]. intros [Heq|?]%elem_of_cons; [|done].
  apply Hni. rewrite <- Heq. by apply list_elem_of_fmap_2.
Qed.

Lemma deduplicate_and_rank_docs_eq (docs : list Document) (query : str) :
  _deduplicate_and_rank_docs docs query
  = sort_desc (calculate_relevance (query_keywords query)) (unique_docs_loop docs []).
Proof. by destruct docs. Qed.

Lemma deduplicate_and_rank_docs_perm (docs : list Document) (query : str) :
  Permutation (_deduplicate_and_rank_docs docs query) (unique_docs_loop docs []).
Proof. rewrite deduplicate_and_rank_docs_eq. apply sort_desc_perm. Qed.

(** The titles of the ranked list: distinct once trimmed, and not empty. *)
Lemma ranked_titles (docs : list Document) (query : str) :
  NoDup (map trimmed_title (_deduplicate_and_rank_docs docs query))
  /\ Forall (fun doc => trimmed_title doc <> []) (_deduplicate_and_rank_docs docs query).
Proof.
  pose proof (deduplicate_and_rank_docs_perm docs query) as HP.
  destruct (unique_docs_loop_keys docs []) as [Hall Hnd]. split.
  - change map with (@fmap list _) in *. by rewrite HP.
  - rewrite HP. eapply Forall_impl; [exact Hall|]. by intros ? [? _].
Qed.

(** C5, as amended: no two entries of the output have the same title once
    trimmed (the comparison is exact: case is not folded); every entry is
    the first document of the input with its trimmed title; and every
    trimmed title of the input that is not empty is in the output. *)
Theorem deduplicate_by_trimmed_title (docs : list Document) (query : str) :
  NoDup (map trimmed_title (_deduplicate_and_rank_docs docs query))
  /\ Forall (first_with_title docs) (_deduplicate_and_rank_docs docs query)
  /\ Forall (fun doc =>
               trimmed_title doc <> [] ->
               trimmed_title doc ∈ map trimmed_title (_deduplicate_and_rank_docs docs query))
            docs.
Proof.
  pose proof (deduplicate_and_rank_docs_perm docs query) as HP.
  split_and!.
  - apply ranked_titles.
  - rewrite HP. apply unique_docs_loop_first.
  - eapply Forall_impl; [apply (unique_docs_loop_complete docs [])|].
    simpl. intros d Hd Hnn. change map with (@fmap list _) in *.
    rewrite HP. apply Hd; [done|]. apply not_elem_of_nil.
Qed.

(** C10: every entry of the output has a title that is not empty once
    trimmed; a document whose title is missing, empty or made of white
    space is not in the output. *)
Theorem deduplicate_drops_empty_titles (docs : list Document) (query : str) :
  Forall (fun doc => trimmed_title doc <> []) (_deduplicate_and_rank_docs docs query)
  /\ (forall doc,
        title (metadata doc) = None
        \/ Forall (fun c => isspace c = true) (get_title doc) ->
        doc ∉ _deduplicate_and_rank_docs docs query).
Proof.
  destruct (ranked_titles docs query) as [_ H].
  split; [done|]. intros doc Hempty Hin.
  rewrite Forall_forall in H. apply (H doc Hin).
  unfold trimmed_title. apply strip_nil.
  destruct Hempty as [Hnone|Hsp]; [|done].
  unfold get_title. rewrite Hnone. constructor.
Qed.

(** C6: ranking the ranked list again, with the same query, returns it
    unchanged.  The ranked list is sorted by decreasing score, the sort is
    stable (the documents of one score are in the order the de-duplication
    left them), and the score of a document is 3 per query word found in
    its title, 1 per query word found in its content, and 2 more when its
    source is the catalogue [온통청년]. *)
Theorem deduplicate_and_rank_docs_idempotent (docs : list Document) (query : str) :
  let ranked := _deduplicate_and_rank_docs docs query in
  let score := calculate_relevance (query_keywords query) in
  _deduplicate_and_rank_docs ranked query = ranked
  /\ descending score ranked
  /\ (forall k, filter (fun doc => score doc = k) ranked
                = filter (fun doc => score doc = k) (unique_docs_loop docs []))
  /\ (forall doc,
        score doc
        = hits (query_keywords query) (lower (get_title doc)) * 3
          + hits (query_keywords query) (lower (page_content doc)) * 1
          + (if bool_decide (source (metadata doc) = Some youthcenter) then 2 else 0)).
Proof.
  intros ranked score.
  assert (descending score ranked) as Hsorted.
  { unfold ranked. rewrite deduplicate_and_rank_docs_eq. apply sort_desc_descending. }
  destruct (ranked_titles docs query) as [Hnd Hne].
  split_and!.
  - rewrite deduplicate_and_rank_docs_eq. fold score.
    rewrite unique_docs_loop_fixed.
    + by apply sort_desc_fixed.
    + exact Hnd.
    + eapply Forall_impl; [exact Hne|]. simpl. intros d ?. split; [done|].
      apply not_elem_of_nil.
  - done.
  - intros k. unfold ranked. rewrite deduplicate_and_rank_docs_eq.
    apply sort_desc_stable.
  - intros doc. unfold score, calculate_relevance. lia.
Qed.

Lemma snippet_length (doc : Document) : (length (snippet doc) <= 203)%nat.
Proof.
  unfold snippet.
  assert (length (strip (replace_char 10%N 32%N (take 200 (page_content doc)))) <= 200)%nat.
  { etrans; [apply strip_length|]. unfold replace_char.
    rewrite length_map, length_take. lia. }
  case_match; rewrite ?length_app; simpl; lia.
Qed.

(** C7: on the empty list the context is the sentence
    [관련 정책 정보를 찾을 수 없습니다.] and the list of citations is
    empty.  The snippet of every citation is the snippet of its document:
    at most 203 characters, the first 200 characters of the content (line
    breaks turned into spaces, trimmed) followed by [...] exactly when the
    content is longer than 200 characters. *)
Theorem context_assembler_empty_and_snippet (now : str) (docs : list Document) :
  _build_context_from_docs [] = no_policy_found
  /\ _extract_references_from_docs now [] = []
  /\ map ref_snippet (_extract_references_from_docs now docs) = map snippet docs
  /\ Forall (fun doc =>
               (length (snippet doc) <= 203)%nat
               /\ snippet doc
                  = strip (replace_char 10%N 32%N (take 200 (page_content doc)))
                    ++ (if bool_decide (200 < length (page_content doc))%nat
                        then ellipsis else []))
            docs.
Proof.
  split_and!; [done|done|..].
  - unfold _extract_references_from_docs.
    change map with (@fmap list _). rewrite fmap_imap.
    rewrite (imap_ext _ (const snippet)) by done. apply imap_const.
  - apply Forall_forall. intros doc _. split; [apply snippet_length|].
    unfold snippet. case_bool_decide as H.
    + by rewrite (proj2 (Nat.ltb_lt _ _) H).
    + rewrite (proj2 (Nat.ltb_ge _ _)) by lia. by rewrite app_nil_r.
Qed.

End Ranking.

Section RankingExamples.
Import RAGService.

(** C5 as stated fails: two titles that differ in case only are both kept,
    and they are equal once trimmed and case-folded. *)
Lemma deduplicate_is_case_sensitive :
  let ranked := _deduplicate_and_rank_docs (U := basic_unicode) docs_case (u "youth") in
  ranked = docs_case
  /\ ~ NoDup (map (normalized_title (U := basic_unicode)) ranked).
Proof.
  split; [vm_compute; reflexivity|].
  intros H. apply NoDup_cons in H as [H _]. apply H. vm_compute. left.
Qed.

(** A mixed list: the empty title goes, the repeated title keeps its first
    document, and the document of the catalogue, with the same hits and the
    bonus, comes first. *)
Example deduplicate_and_rank_docs_example :
  _deduplicate_and_rank_docs (U := basic_unicode) docs_mixed (u "청년")
  = [doc_of "청년 취업" "취업 지원" (Some youthcenter);
     doc_of "청년 월세 지원" "월세 지원 안내" None].
Proof. vm_compute. reflexivity. Qed.

Lemma deduplicate_drops_empty_titles_witness :
  doc_of "  " "no title" None
    ∉ _deduplicate_and_rank_docs (U := basic_unicode) docs_mixed (u "청년 지원").
Proof.
  apply (deduplicate_drops_empty_titles (U := basic_unicode)).
  right. vm_compute. repeat constructor.
Defined.

(** A content of 201 characters gives a snippet of 203. *)
Example snippet_example :
  length (snippet (U := basic_unicode)
            {| page_content := repeat 97%N 201;
               metadata := metadata (doc_of "t" "" None) |}) = 203%nat.
Proof. vm_compute. reflexivity. Qed.

End RankingExamples.

(** ** Day numbers *)

Section Ordinal.

Lemma calendar_day (d : date) :
  calendar d ->
  1 <= year d <= 9999 /\ 1 <= month d <= 12
  /\ 1 <= day d <= days_in_month (year d) (month d).
Proof.
  unfold calendar, mk_date. case_match eqn:E; [|done]. intros _.
  rewrite !andb_true_iff in E. lia.
Qed.

Lemma days_in_month_bounds (y m : Z) : 28 <= days_in_month y m <= 31.
Proof. unfold days_in_month. repeat case_match; lia. Qed.

Lemma days_in_months_app (y : Z) (l k : list Z) :
  days_in_months y (l ++ k) = days_in_months y l + days_in_months y k.
Proof. induction l as [|m l IH]; simpl; [done|]. rewrite IH. lia. Qed.

Lemma days_before_month_succ (y m : Z) :
  1 <= m ->
  days_before_month y (m + 1) = days_before_month y m + days_in_month y m.
Proof.
  intros Hm. unfold days_before_month.
  replace (Z.to_nat (m + 1 - 1)) with (S (Z.to_nat (m - 1))) by lia.
  rewrite seq_S, map_app, days_in_months_app. cbn [days_in_months map].
  replace (Z.of_nat (1 + Z.to_nat (m - 1))) with m by lia. lia.
Qed.

Lemma days_before_month_mono (y m : Z) (k : nat) :
  1 <= m -> days_before_month y m <= days_before_month y (m + Z.of_nat k).
Proof.
  intros Hm. induction k as [|k IH].
  - replace (m + Z.of_nat 0) with m by lia. lia.
  - replace (m + Z.of_nat (S k)) with ((m + Z.of_nat k) + 1) by lia.
    rewrite days_before_month_succ by lia.
    pose proof (days_in_month_bounds y (m + Z.of_nat k)). lia.
Qed.

Lemma days_before_month_le (y m m' : Z) :
  1 <= m <= m' -> days_before_month y m <= days_before_month y m'.
Proof.
  intros H. replace m' with (m + Z.of_nat (Z.to_nat (m' - m))) by lia.
  apply days_before_month_mono. lia.
Qed.

Lemma days_before_month_nonneg (y m : Z) : 1 <= m -> 0 <= days_before_month y m.
Proof.
  intros H. pose proof (days_before_month_le y 1 m) as H'.
  change (days_before_month y 1) with 0 in H'. lia.
Qed.

(** The days of a year: 365, and one more in a leap year. *)
Lemma days_before_month_13 (y : Z) :
  days_before_month y 13 = 365 + (if is_leap y then 1 else 0).
Proof.
  unfold days_before_month.
  replace (map Z.of_nat (seq 1 (Z.to_nat (13 - 1))))
    with [1; 2; 3; 4; 5; 6; 7; 8; 9; 10; 11; 12] by reflexivity.
  cbn [days_in_months]. unfold days_in_month.
  destruct (is_leap y); reflexivity.
Qed.

Lemma days_before_year_succ (y : Z) :
  days_before_year (y + 1) = days_before_year y + 365 + (if is_leap y then 1 else 0).
Proof.
  unfold days_before_year, is_leap. cbv zeta.
  replace (y + 1 - 1) with y by lia.
  destruct (y mod 4 =? 0) eqn:E4; destruct (y mod 100 =? 0) eqn:E100;
    destruct (y mod 400 =? 0) eqn:E400; cbn [andb orb negb];
    rewrite ?Z.eqb_eq, ?Z.eqb_neq in *;
    Z.to_euclidean_division_equations; lia.
Qed.

Lemma days_before_year_le (y y' : Z) :
  y <= y' -> days_before_year y <= days_before_year y'.
Proof.
  intros H. unfold days_before_year. cbv zeta.
  Z.to_euclidean_division_equations. lia.
Qed.

(** The day number of the last day of a month bounds the month. *)
Lemma toordinal_lt (a b : date) :
  calendar a -> calendar b -> date_ltb a b = true -> toordinal a < toordinal b.
Proof.
  intros (Hya & Hma & Hda)%calendar_day (Hyb & Hmb & Hdb)%calendar_day.
  unfold date_ltb, toordinal. destruct a as [ya ma da], b as [yb mb db]. simpl in *.
  rewrite orb_true_iff, andb_true_iff, orb_true_iff, andb_true_iff,
    !Z.ltb_lt, !Z.eqb_eq.
  pose proof (days_before_month_succ ya ma) as Hsa.
  pose proof (days_before_month_nonneg yb mb).
  intros [Hy|[-> [Hm|[-> Hd]]]]; [| |lia].
  - pose proof (days_before_month_le ya (ma + 1) 13).
    pose proof (days_before_month_13 ya) as H13.
    pose proof (days_before_year_succ ya) as Hys.
    pose proof (days_before_year_le (ya + 1) yb).
    destruct (is_leap ya); lia.
  - pose proof (days_before_month_le yb (ma + 1) mb). lia.
Qed.

(** Day numbers order the dates of the calendar as the dates are ordered. *)
Lemma toordinal_ltb (a b : date) :
  calendar a -> calendar b ->
  date_ltb a b = (toordinal a <? toordinal b).
Proof.
  intros Ha Hb. destruct (date_ltb a b) eqn:E.
  - symmetry. apply Z.ltb_lt. by apply toordinal_lt.
  - symmetry. apply Z.ltb_ge.
    destruct (date_ltb b a) eqn:E'.
    + pose proof (toordinal_lt b a Hb Ha E'). lia.
    + assert (a = b) as -> by (apply date_leb_antisym; unfold date_leb; by rewrite ?E, ?E').
      lia.
Qed.

End Ordinal.

(** ** Requests: what every search returns *)

Section ActivePolicies.
Import YouthCenterAPIClient.
Context {U : Unicode}.
Context (today : date).

Lemma filter_active_policies_active (policies : list item) :
  Forall (fun policy => _is_policy_expired today policy = false)
         (_filter_active_policies today policies).
Proof.
  apply Forall_forall. intros policy Hp.
  unfold _filter_active_policies in Hp. by apply list_elem_of_filter in Hp as [? _].
Qed.

Lemma filter_active_policies_fixed (policies : list item) :
  Forall (fun policy => _is_policy_expired today policy = false) policies ->
  _filter_active_policies today policies = policies.
Proof.
  unfold _filter_active_policies. induction 1 as [|policy policies Hp _ IH]; [done|].
  rewrite filter_cons_True by done. by rewrite IH.
Qed.

(** X1: a search that succeeds returns only policies that have not
    expired, in the order the catalogue sent them, and filtering its result
    once more changes nothing. *)
Theorem search_policies_active (server : params -> http_result) (api_key query : str)
    (page_index display : Z) (biz_type_codes policy_biz_codes : list str)
    (keyword : str) (data : payload) (policies : list item) :
  search_policies server today api_key query page_index display
                  biz_type_codes policy_biz_codes keyword = Ok data ->
  youthPolicy data = Some (JList policies) ->
  Forall (fun policy => _is_policy_expired today policy = false) policies
  /\ policies `sublist_of`
       sent (server (build_params api_key query page_index display
                                  biz_type_codes policy_biz_codes keyword))
  /\ _filter_active_policies today policies = policies.
Proof.
  intros Hs Hy. destruct (search_policies_ok _ _ _ _ _ _ _ _ _ _ Hs) as [_ Hshape].
  rewrite Hy in Hshape. destruct Hshape as [->| ->].
  - split_and!.
    + apply filter_active_policies_active.
    + apply sublist_filter.
    + apply filter_active_policies_fixed, filter_active_policies_active.
  - split_and!; [constructor|apply sublist_nil_l|done].
Qed.

(** A request raises exactly when it fails. *)
Lemma search_policies_raises (server : params -> http_result) (api_key query : str)
    (page_index display : Z) (biz_type_codes policy_biz_codes : list str)
    (keyword : str) :
  (exists e, search_policies server today api_key query page_index display
                             biz_type_codes policy_biz_codes keyword = Raise e)
  <-> fails (server (build_params api_key query page_index display
                                  biz_type_codes policy_biz_codes keyword)).
Proof.
  unfold search_policies, fails.
  destruct (server _) as [|success content_type json]; [split; eauto|].
  destruct success; cbn [negb]; [|split; eauto].
  destruct (contains json_type _).
  2:{ cbn. split; [by intros [e [=]]|by intros [[=]|[[=] _]]]. }
  destruct json as [data|]; [|cbn; split; eauto].
  cbn [bind].
  destruct data as [[[l| |z|s|keys]|]|l|s| |z]; cbn [has_youthPolicy bind malformed].
  - destruct l; cbn; (split; [by intros [e [=]]|by intros [[=]|[_ []]]]).
  - cbn. split; [by intros [e [=]]|by intros [[=]|[_ []]]].
  - cbn. destruct (Z.eqb_spec z 0) as [->|Hz]; cbn.
    + split; [by intros [e [=]]|by intros [[=]|[_ []]]].
    + split; eauto.
  - destruct s; cbn; (split; [by intros [e [=]]|by intros [[=]|[_ []]]]).
  - destruct keys; cbn; (split; [by intros [e [=]]|by intros [[=]|[_ []]]]).
  - cbn. split; [by intros [e [=]]|by intros [[=]|[_ []]]].
  - destruct (existsb _ l); cbn.
    + split; eauto.
    + split; [by intros [e [=]]|by intros [[=]|[_ [=]]]].
  - destruct (contains key_youthPolicy s); cbn.
    + split; eauto.
    + split; [by intros [e [=]]|by intros [[=]|[_ [=]]]].
  - cbn. split; eauto.
  - cbn. split; eauto.
Qed.

(** X2: [search_policies] raises exactly when the request gets no
    response, an error status, or a body announced as JSON that cannot be
    decoded or cannot be read: [null], a number, an array or a string that
    holds ['youthPolicy'], an object whose [youthPolicy] is a number other
    than zero.  What it raises is always a plain [Exception] around the
    cause. *)
Theorem search_policies_raises_iff (server : params -> http_result) (api_key query : str)
    (page_index display : Z) (biz_type_codes policy_biz_codes : list str)
    (keyword : str) :
  let result := search_policies server today api_key query page_index display
                  biz_type_codes policy_biz_codes keyword in
  ((exists e, result = Raise e)
   <-> fails (server (build_params api_key query page_index display
                                   biz_type_codes policy_biz_codes keyword)))
  /\ (forall e, result = Raise e -> exists cause, e = Exception cause).
Proof.
  cbv zeta. split; [apply search_policies_raises|].
  unfold search_policies.
  destruct (server _) as [|success content_type json]; [intros e [= <-]; eauto|].
  destruct (negb success); [intros e [= <-]; eauto|].
  match goal with |- context [match ?m with Ok _ => _ | Raise _ => _ end] =>
    destruct m end; [done|]. intros e' [= <-]. eauto.
Qed.

Lemma gather_active (catalog : nat -> params -> http_result) (api_key : str)
    (max_results : Z) (keywords : list str) (n : nat) (acc : list item) :
  Forall (fun policy => _is_policy_expired today policy = false) acc ->
  Forall (fun policy => _is_policy_expired today policy = false)
         (fst (gather catalog today api_key max_results n keywords acc)).
Proof.
  revert n acc. induction keywords as [|keyword keywords IH]; intros n acc Hacc; [done|].
  destruct (gather_cons catalog today api_key max_results n keyword keywords acc)
    as [[e ->]| ->]; [done|].
  apply IH. apply Forall_app. split; [done|].
  destruct (contribution_sent catalog today api_key max_results n keyword) as [->| ->];
    [apply filter_active_policies_active|constructor].
Qed.

Lemma unique_loop_subseteq (max_results : Z) (all_policies : list item)
    (seen_ids : list value) (unique_policies result : list item) :
  unique_loop max_results all_policies seen_ids unique_policies = Ok result ->
  result ⊆ unique_policies ++ all_policies.
Proof.
  revert seen_ids unique_policies.
  induction all_policies as [|policy rest IH]; intros seen unique.
  { cbn. intros [= <-]. by rewrite app_nil_r. }
  assert (forall l, l ⊆ unique ++ rest \/ l ⊆ (unique ++ [policy]) ++ rest ->
                    l ⊆ unique ++ policy :: rest) as Hsub.
  { intros l Hl x Hx. apply elem_of_app. rewrite elem_of_cons.
    destruct Hl as [Hl|Hl]; apply Hl in Hx.
    - apply elem_of_app in Hx as [?|?]; auto.
    - apply elem_of_app in Hx as [[?|?%list_elem_of_singleton]%elem_of_app|?]; auto. }
  assert (unique ⊆ unique ++ rest) as Hu by (intros x Hx; apply elem_of_app; auto).
  assert (unique ++ [policy] ⊆ (unique ++ [policy]) ++ rest) as Hp
    by (intros x Hx; apply elem_of_app; auto).
  cbn [unique_loop]. destruct (policy_id policy) as [id|e]; [|done]. cbn [bind].
  destruct (truthy id).
  - destruct (hashable id); [|done]. destruct (bool_decide _); cbn [bind].
    + destruct (_ <=? _); [intros [= <-]; auto|]. intros H%IH. auto.
    + destruct (_ <=? _); [intros [= <-]; auto|]. intros H%IH. auto.
  - cbn [bind]. destruct (_ <=? _); [intros [= <-]; auto|]. intros H%IH. auto.
Qed.

Lemma keyword_search_active (catalog : nat -> params -> http_result)
    (api_key : str) (keywords : list str) (max_results : Z) :
  Forall (fun policy => _is_policy_expired today policy = false)
         (search_policies_by_keywords catalog today api_key keywords max_results).
Proof.
  unfold search_policies_by_keywords.
  pose proof (gather_active catalog api_key max_results keywords 0 [] (Forall_nil_2 _)) as H.
  destruct (gather _ _ _ _ _ _ _) as [all_policies [e|]]; cbn [fst] in H; [done|].
  destruct (unique_loop _ _ _ _) as [result|e] eqn:E; cbn [try_except]; [|done].
  apply unique_loop_subseteq in E. cbn [app] in E.
  rewrite Forall_forall in H |- *. intros policy Hp. apply H, E, Hp.
Qed.

Lemma gather_sent (catalog : nat -> params -> http_result) (api_key : str)
    (max_results : Z) (keywords : list str) (n : nat) (acc : list item)
    (policy : item) :
  policy ∈ fst (gather catalog today api_key max_results n keywords acc) ->
  policy ∈ acc
  \/ exists i keyword,
       keywords !! i = Some keyword
       /\ policy ∈ sent (catalog (n + i)%nat
                           (build_params api_key keyword 1 (Z.min 20 max_results)
                                         [] [] [])).
Proof.
  revert n acc. induction keywords as [|keyword keywords IH]; intros n acc; [by left|].
  destruct (gather_cons catalog today api_key max_results n keyword keywords acc)
    as [[e ->]| ->]; [by left|].
  intros [Hp|(i & kw & Hi & Hp)]%IH.
  - apply elem_of_app in Hp as [Hp|Hp]; [by left|]. right.
    exists 0%nat, keyword. split; [done|]. rewrite Nat.add_0_r.
    destruct (contribution_sent catalog today api_key max_results n keyword)
      as [Hc|Hc]; rewrite Hc in Hp; [|by apply elem_of_nil in Hp].
    unfold _filter_active_policies in Hp. by apply list_elem_of_filter in Hp as [_ Hp].
  - right. exists (S i), kw. split; [done|].
    by replace (n + S i)%nat with (S n + i)%nat by lia.
Qed.

(** X3: whatever the catalogue answers and however the keyword search
    ends, every policy it returns has not expired and was sent in answer to
    the request of one of the keywords. *)
Theorem search_policies_by_keywords_active (catalog : nat -> params -> http_result)
    (api_key : str) (keywords : list str) (max_results : Z) :
  Forall (fun policy =>
            _is_policy_expired today policy = false
            /\ exists i keyword,
                 keywords !! i = Some keyword
                 /\ policy ∈ sent (catalog i
                                     (build_params api_key keyword 1
                                                   (Z.min 20 max_results) [] [] [])))
         (search_policies_by_keywords catalog today api_key keywords max_results).
Proof.
  pose proof (keyword_search_active catalog api_key keywords max_results) as Hactive.
  rewrite Forall_forall in Hactive |- *. intros policy Hp. split; [by apply Hactive|].
  assert (policy ∈ fst (gather catalog today api_key max_results 0 keywords [])) as Hg.
  { revert Hp. unfold search_policies_by_keywords.
    destruct (gather _ _ _ _ _ _ _) as [all_policies [e|]]; cbn [fst]; [done|].
    destruct (unique_loop _ _ _ _) as [result|e] eqn:E; cbn [try_except]; [|done].
    apply unique_loop_subseteq in E. apply E. }
  apply gather_sent in Hg as [Hg|Hg]; [by apply elem_of_nil in Hg|exact Hg].
Qed.

(** X4: filtering the active policies twice is filtering once, and an
    entry that is no dictionary is never filtered out. *)
Theorem filter_active_policies_idempotent (policies : list item) :
  _filter_active_policies today (_filter_active_policies today policies)
  = _filter_active_policies today policies
  /\ (forall v, Scalar v ∈ policies ->
                Scalar v ∈ _filter_active_policies today policies).
Proof.
  split.
  - apply filter_active_policies_fixed, filter_active_policies_active.
  - intros v Hv. unfold _filter_active_policies. apply list_elem_of_filter. done.
Qed.

End ActivePolicies.

(** ** Searches by region and age, and by identifier *)

Section RegionAndAge.
Import YouthCenterAPIClient.
Context {U : Unicode}.

Lemma nonempty_true {A} (l : list A) : nonempty l = true <-> l <> [].
Proof. by destruct l. Qed.

(** X5: the search by region and age asks for one to five terms, and each
    of them is sent as the [query] of its request: none is empty. *)
Theorem search_terms_requests (region : option str) (age : option Z)
    (api_key : str) (display : Z) :
  (1 <= length (search_terms region age) <= 5)%nat
  /\ Forall (fun term =>
               query (build_params api_key term 1 display [] [] []) = Some term)
            (search_terms region age).
Proof.
  assert (forall terms, Forall (fun term : str => term <> []) terms ->
            Forall (fun term =>
               query (build_params api_key term 1 display [] [] []) = Some term) terms)
    as Hq.
  { intros terms Ht. eapply Forall_impl; [exact Ht|]. intros [|c term]; [done|]. reflexivity. }
  unfold search_terms, region_terms, age_terms.
  destruct region as [region|]; [destruct (nonempty region) eqn:En|].
  1: apply nonempty_true in En.
  all: destruct age as [age|];
    [destruct (age =? 0), (age <=? 24), (age <=? 29), (age <=? 34)|].
  all: try destruct (contains kw_district region && negb (contains kw_seoul region)).
  all: cbn [app nonempty length]; split; [lia|].
  all: apply Hq; repeat constructor; done.
Qed.

Lemma find_policy_found (policy_id : str) (policies : list item) (policy : item) :
  find_policy policy_id policies = Ok (Some policy) ->
  policy ∈ policies
  /\ exists d, policy = Obj d
       /\ (d !! "polyBizSecd" = Some (VStr policy_id)
           \/ d !! "bizId" = Some (VStr policy_id)).
Proof.
  induction policies as [|p rest IH]; [done|].
  cbn [find_policy]. destruct p as [d|v]; [|done]. cbn [get bind].
  destruct (bool_decide _) eqn:E1.
  { apply bool_decide_eq_true in E1. intros [= <-]. split; [left|].
    exists d. split; [done|]. left. revert E1. destruct (d !! "polyBizSecd"); [by intros ->|done]. }
  destruct (bool_decide (_ = _)) eqn:E2 in |- *.
  { apply bool_decide_eq_true in E2. intros [= <-]. split; [left|].
    exists d. split; [done|]. right. revert E2. destruct (d !! "bizId"); [by intros ->|done]. }
  intros [Hin Hd]%IH. split; [by right|done].
Qed.

(** X6: the policy [get_policy_detail] returns was sent by the catalogue,
    has not expired and carries the identifier asked for as [polyBizSecd]
    or as [bizId]; when the request fails the result is [None]. *)
Theorem get_policy_detail_found (server : params -> http_result) (today : date)
    (api_key policy_id : str) :
  (forall policy,
      get_policy_detail server today api_key policy_id = Some policy ->
      policy ∈ sent (server (build_params api_key [] 1 100 [] [] []))
      /\ _is_policy_expired today policy = false
      /\ exists d, policy = Obj d
           /\ (d !! "polyBizSecd" = Some (VStr policy_id)
               \/ d !! "bizId" = Some (VStr policy_id)))
  /\ (fails (server (build_params api_key [] 1 100 [] [] [])) ->
      get_policy_detail server today api_key policy_id = None).
Proof.
  split.
  - intros policy. unfold get_policy_detail.
    destruct (search_policies _ _ _ _ _ _ _ _ _) as [data|e] eqn:Es; [|done].
    cbn [bind]. destruct (search_policies_ok _ _ _ _ _ _ _ _ _ _ Es) as [-> Hshape].
    cbn [bind].
    destruct data as [[v|]|l|s| |z]; cbn [youthPolicy negb get_youthPolicy bind] in *;
      [|done..].
    destruct (elements v) as [policies|e] eqn:Ev; [|done]. cbn [bind].
    destruct (find_policy _ _) as [[found|]|e] eqn:Ef; cbn [try_except]; [|done..].
    intros [= ->]. apply find_policy_found in Ef as [Hin Hd].
    assert (policy ∈ _filter_active_policies today
                       (sent (server (build_params api_key [] 1 100 [] [] [])))) as Hf.
    { destruct v as [l| |z|s|keys]; cbn in Ev; simplify_eq.
      - destruct Hshape as [->| ->]; [done|by apply elem_of_nil in Hin].
      - by apply elem_of_nil in Hin.
      - by apply elem_of_nil in Hin. }
    unfold _filter_active_policies in Hf.
    apply list_elem_of_filter in Hf as [? ?]. done.
  - intros Hf. unfold get_policy_detail.
    apply (search_policies_raises today) in Hf as [e ->]. done.
Qed.

End RegionAndAge.

(** ** The table of categories *)

Section Categories.
Import YouthCenterAPIClient.
Context {U : Unicode}.

Lemma lookup_store_same (category : str) (keywords : list str)
    (table : list (str * list str)) :
  is_Some (lookup_category category table) ->
  lookup_category category (store_category category keywords table) = Some keywords.
Proof.
  induction table as [|[c old] table IH]; [by intros [? [=]]|].
  cbn. destruct (bool_decide (c = category)) eqn:E.
  - intros _. cbn. by rewrite E.
  - intros H. cbn. rewrite E. by apply IH.
Qed.

Lemma lookup_store_other (category c : str) (keywords : list str)
    (table : list (str * list str)) :
  c <> category ->
  lookup_category c (store_category category keywords table) = lookup_category c table.
Proof.
  intros Hc. induction table as [|[c' old] table IH]; [done|].
  cbn. destruct (bool_decide (c' = category)) eqn:E.
  - apply bool_decide_eq_true in E as ->. cbn.
    by rewrite !bool_decide_eq_false_2.
  - cbn. by rewrite IH.
Qed.

Lemma store_category_keys (category : str) (keywords : list str)
    (table : list (str * list str)) :
  map fst (store_category category keywords table) = map fst table.
Proof.
  induction table as [|[c old] table IH]; [done|].
  cbn. destruct (bool_decide _); cbn; [done|]. by rewrite IH.
Qed.

(** The category a search is made for: the one asked for when the table
    has it, else [etc]. *)
Lemma search_policies_by_category_unfold (table : list (str * list str))
    (catalog : nat -> params -> http_result) (today : date) (api_key : str)
    (category : str) (uc : option user_context) (max_results : Z)
    (keywords : list str) :
  lookup_category category table = Some keywords ->
  search_policies_by_category table catalog today api_key category uc max_results
  = (try_except
       (label_policies category (keywords ++ context_keywords uc)
          (search_policies_by_keywords catalog today api_key
             (keywords ++ context_keywords uc) max_results))
       (fun _ => []),
     store_category category (keywords ++ context_keywords uc) table).
Proof. intros H. unfold search_policies_by_category. by rewrite !H. Qed.

(** X7: a search of a category of the table leaves the table with the
    keywords of the user appended to that category; the other categories
    and the order of the keys do not change. *)
Theorem search_policies_by_category_extends (table : list (str * list str))
    (catalog : nat -> params -> http_result) (today : date) (api_key : str)
    (category : str) (uc : option user_context) (max_results : Z)
    (keywords : list str) :
  lookup_category category table = Some keywords ->
  let table' :=
    snd (search_policies_by_category table catalog today api_key category uc
                                     max_results) in
  lookup_category category table' = Some (keywords ++ context_keywords uc)
  /\ (forall c, c <> category -> lookup_category c table' = lookup_category c table)
  /\ map fst table' = map fst table.
Proof.
  intros H. cbv zeta. rewrite (search_policies_by_category_unfold _ _ _ _ _ _ _ _ H).
  cbn [snd]. split_and!.
  - apply lookup_store_same. by rewrite H.
  - intros c Hc. by apply lookup_store_other.
  - apply store_category_keys.
Qed.

End Categories.

Section CategorySearches.
Import YouthCenterAPIClient.
Context {U : Unicode}.

(** X8: the keywords of the user accumulate: after [n] searches of a
    category its list holds them [n] times. *)
Theorem search_policies_by_category_accumulates (n : nat)
    (table : list (str * list str))
    (catalogs : nat -> nat -> params -> http_result) (today : date) (api_key : str)
    (category : str) (uc : option user_context) (max_results : Z)
    (keywords : list str) :
  lookup_category category table = Some keywords ->
  lookup_category category
    (searched n table catalogs today api_key category uc max_results)
  = Some (keywords ++ concat (replicate n (context_keywords uc))).
Proof.
  intros H. induction n as [|n IH].
  - cbn. by rewrite app_nil_r.
  - cbn [searched].
    rewrite (search_policies_by_category_unfold _ _ _ _ _ _ _ _ IH). cbn [snd].
    rewrite lookup_store_same by by rewrite IH.
    f_equal. rewrite <- app_assoc. f_equal.
    clear. induction n as [|n IH]; cbn [replicate concat].
    + by rewrite app_nil_r.
    + rewrite <- app_assoc. by rewrite IH.
Qed.

Lemma label_policies_labelled (category : str) (keywords : list str)
    (policies result : list item) :
  label_policies category keywords policies = Ok result ->
  result = map (labelled category keywords) policies
  /\ Forall (fun policy => exists d, policy = Obj d) policies.
Proof.
  revert result. induction policies as [|policy rest IH]; intros result.
  { cbn. by intros [= <-]. }
  cbn [label_policies]. destruct policy as [d|v]; [|done]. cbn [setitem bind].
  destruct (label_policies category keywords rest) as [rest'|e]; [|done].
  cbn [bind]. intros [= <-]. destruct (IH rest' eq_refl) as [-> Hall].
  split; [done|]. constructor; eauto.
Qed.

Lemma is_policy_expired_labelled (today : date) (category : str)
    (keywords : list str) (policy : item) :
  _is_policy_expired today (labelled category keywords policy)
  = _is_policy_expired today policy.
Proof.
  destruct policy as [d|v]; [|done]. cbn [labelled].
  rewrite !is_policy_expired_obj. unfold field.
  by rewrite !lookup_insert_ne by done.
Qed.

Lemma category_search_known (table : list (str * list str))
    (catalog : nat -> params -> http_result) (today : date) (api_key : str)
    (uc : option user_context) (max_results : Z) (policy : item)
    (c : str) (keywords : list str) :
  lookup_category c table = Some keywords ->
  policy ∈ fst (search_policies_by_category table catalog today api_key c uc
                                            max_results) ->
  exists d keywords',
    policy = Obj d
    /\ lookup_category c
         (snd (search_policies_by_category table catalog today api_key c uc
                                           max_results)) = Some keywords'
    /\ d !! "matched_category" = Some (VStr c)
    /\ d !! "category_keywords" = Some (VList keywords')
    /\ _is_policy_expired today policy = false.
Proof.
  intros Hc.
  rewrite (search_policies_by_category_unfold _ _ _ _ _ _ _ _ Hc). cbn [fst snd].
  destruct (label_policies _ _ _) as [result|e] eqn:El; cbn [try_except];
    [|by intros ?%elem_of_nil].
  apply label_policies_labelled in El as [-> Hobj].
  intros (p & -> & Hp)%list_elem_of_fmap.
  pose proof (keyword_search_active today catalog api_key
                (keywords ++ context_keywords uc) max_results) as Hactive.
  rewrite Forall_forall in Hactive, Hobj.
  destruct (Hobj p Hp) as [d ->]. cbn [labelled].
  eexists _, _. split; [reflexivity|]. split_and!.
  - apply lookup_store_same. by rewrite Hc.
  - by rewrite lookup_insert_ne, lookup_insert_eq.
  - by rewrite lookup_insert_eq.
  - transitivity (_is_policy_expired today (Obj d)); [|by apply Hactive].
    apply (is_policy_expired_labelled today c _ (Obj d)).
Qed.

(** An unknown category is searched as [etc]. *)
Lemma category_search_unknown (table : list (str * list str))
    (catalog : nat -> params -> http_result) (today : date) (api_key : str)
    (category : str) (uc : option user_context) (max_results : Z) :
  lookup_category category table = None ->
  search_policies_by_category table catalog today api_key category uc max_results
  = search_policies_by_category table catalog today api_key etc uc max_results.
Proof.
  intros Hc. unfold search_policies_by_category. rewrite Hc.
  destruct (lookup_category etc table) eqn:He; cbv zeta; by rewrite !He.
Qed.

Lemma category_search_results (table : list (str * list str))
    (catalog : nat -> params -> http_result) (today : date) (api_key : str)
    (category : str) (uc : option user_context) (max_results : Z) (policy : item) :
  policy ∈ fst (search_policies_by_category table catalog today api_key category uc
                                            max_results) ->
  exists d keywords,
    policy = Obj d
    /\ d !! "category_keywords" = Some (VList keywords)
    /\ _is_policy_expired today policy = false.
Proof.
  destruct (lookup_category category table) as [keywords|] eqn:Hc.
  - intros Hp.
    destruct (category_search_known _ _ _ _ _ _ _ _ _ Hc Hp)
      as (d & keywords' & ? & ? & ? & ? & ?). eauto.
  - rewrite (category_search_unknown _ _ _ _ _ _ _ Hc).
    destruct (lookup_category etc table) as [keywords|] eqn:He.
    + intros Hp.
      destruct (category_search_known _ _ _ _ _ _ _ _ _ He Hp)
        as (d & keywords' & ? & ? & ? & ? & ?). eauto.
    + unfold search_policies_by_category. rewrite !He. cbn [fst].
      by intros ?%elem_of_nil.
Qed.

(** X9: every policy the category search returns is a dictionary labelled
    with the category searched (the one asked for, or [기타] when the table
    lacks it) and with the list the table now holds for it, and has not
    expired. *)
Theorem search_policies_by_category_labels (table : list (str * list str))
    (catalog : nat -> params -> http_result) (today : date) (api_key : str)
    (category : str) (uc : option user_context) (max_results : Z) (policy : item) :
  policy ∈ fst (search_policies_by_category table catalog today api_key category uc
                                            max_results) ->
  exists d c keywords,
    policy = Obj d
    /\ (c = category \/ (lookup_category category table = None /\ c = etc))
    /\ lookup_category c
         (snd (search_policies_by_category table catalog today api_key category uc
                                           max_results)) = Some keywords
    /\ d !! "matched_category" = Some (VStr c)
    /\ d !! "category_keywords" = Some (VList keywords)
    /\ _is_policy_expired today policy = false.
Proof.
  destruct (lookup_category category table) as [keywords|] eqn:Hc.
  - intros Hp.
    destruct (category_search_known _ _ _ _ _ _ _ _ _ Hc Hp)
      as (d & keywords' & ? & ? & ? & ? & ?).
    exists d, category, keywords'. split_and!; auto.
  - rewrite (category_search_unknown _ _ _ _ _ _ _ Hc).
    destruct (lookup_category etc table) as [keywords|] eqn:He.
    + intros Hp.
      destruct (category_search_known _ _ _ _ _ _ _ _ _ He Hp)
        as (d & keywords' & ? & ? & ? & ? & ?).
      exists d, etc, keywords'. split_and!; auto.
    + unfold search_policies_by_category. rewrite !He. cbn [fst].
      by intros ?%elem_of_nil.
Qed.

Lemma max_from_elem (best : str * Z) (scores : list (str * Z)) :
  max_from best scores ∈ best :: scores.
Proof.
  revert best. induction scores as [|x scores IH]; intros best; [by left|].
  cbn [max_from]. specialize (IH (if snd best <? snd x then x else best)).
  apply elem_of_cons in IH as [->|IH].
  - destruct (_ <? _); [right; left|left].
  - by do 2 right.
Qed.

(** X10: the classifier answers [기타] or a category of the table, on any
    policy and any table. *)
Theorem classify_policy_category_range (table : list (str * list str))
    (policy : item) :
  classify_policy_category table policy = etc
  \/ classify_policy_category table policy ∈ map fst table.
Proof.
  unfold classify_policy_category, classify_policy_category_body.
  destruct (lower_field policy "polyBizSjnm") as [title|e]; [|by left]. cbn [bind].
  destruct (lower_field policy "sporCn") as [content|e]; [|by left]. cbn [bind].
  destruct (lower_field policy "sporTarget") as [target|e]; [|by left]. cbn [bind].
  unfold max_by_score.
  destruct (category_scores table title _) as [|x scores] eqn:E; [by left|].
  cbn [bind try_except]. destruct (_ =? 0); [by left|]. right.
  pose proof (max_from_elem x scores) as Hin. rewrite <- E in Hin.
  assert (map fst (category_scores table title
                     (title ++ space ++ content ++ space ++ target)) = map fst table)
    as <-.
  { unfold category_scores. rewrite map_map. apply map_ext. by intros [c kws]. }
  apply list_elem_of_In, in_map, list_elem_of_In, Hin.
Qed.

End CategorySearches.

(** ** The dates a period parses to *)

Section ParsedDates.
Import YouthCenterAPIClient.
Context {U : Unicode}.

Lemma mk_date_calendar (y m d : Z) (x : date) : mk_date y m d = Some x -> calendar x.
Proof.
  unfold mk_date. destruct (_ && _) eqn:E; [|done]. intros [= <-].
  unfold calendar, mk_date. cbn [year month day]. by rewrite E.
Qed.

Lemma parse_match_calendar (groups : list str) (d : date) :
  parse_match groups = Some d -> calendar d.
Proof.
  unfold parse_match. destruct groups as [|y [|m [|dd [|]]]]; try done.
  intros H.
  apply bind_Some in H as (year' & _ & H).
  apply bind_Some in H as (yz & _ & H).
  apply bind_Some in H as (mz & _ & H).
  apply bind_Some in H as (dz & _ & H).
  by apply mk_date_calendar in H.
Qed.

Lemma dates_calendar (text : str) : Forall calendar (dates text).
Proof.
  apply Forall_forall. intros d Hd. unfold dates in Hd.
  apply list_elem_of_In, in_flat_map in Hd as (pattern & _ & Hd).
  apply list_elem_of_In, list_elem_of_omap in Hd as (groups & _ & Hd).
  by apply parse_match_calendar in Hd.
Qed.

Lemma parse_policy_period_end (v : value) (e : date) :
  snd (_parse_policy_period v) = Some e ->
  exists text, v = VStr text /\ e ∈ dates text.
Proof.
  destruct v as [|text|z|l].
  - done.
  - intros H. exists text. split; [done|]. revert H.
    destruct (existsb (fun keyword => contains keyword text) rolling_markers) eqn:Em.
    { apply existsb_exists in Em as (marker & Hm%list_elem_of_In & Hc).
      by rewrite (parse_policy_period_marker text marker Hm Hc). }
    rewrite parse_policy_period_dates by done.
    destruct (2 <=? length (dates text))%nat.
    + cbn [snd]. intros H%last_Some_elem_of.
      by rewrite (sort_dates_perm (dates text)) in H.
    + destruct (length (dates text) =? 1)%nat; [|done].
      cbn [snd]. apply head_Some_elem_of.
  - unfold _parse_policy_period. cbn. by destruct (z =? 0).
  - unfold _parse_policy_period. cbn. by destruct l.
Qed.

Lemma parse_policy_period_end_calendar (v : value) (e : date) :
  snd (_parse_policy_period v) = Some e -> calendar e.
Proof.
  intros (text & _ & He)%parse_policy_period_end.
  pose proof (dates_calendar text) as H. rewrite Forall_forall in H. by apply H.
Qed.

Lemma parse_policy_period_start (v : value) (s : date) :
  fst (_parse_policy_period v) = Some s ->
  exists e, snd (_parse_policy_period v) = Some e /\ date_leb s e = true
            /\ calendar s.
Proof.
  destruct v as [|text|z|l].
  - done.
  - destruct (existsb (fun keyword => contains keyword text) rolling_markers) eqn:Em.
    { apply existsb_exists in Em as (marker & Hm%list_elem_of_In & Hc).
      by rewrite (parse_policy_period_marker text marker Hm Hc). }
    rewrite parse_policy_period_dates by done.
    destruct (2 <=? length (dates text))%nat eqn:E2.
    + apply Nat.leb_le in E2.
      destruct (sort_dates_ends (dates text) E2) as (s' & e & Hs & He & [Hin _] & _ & Hle).
      cbn [fst snd]. rewrite Hs, He. intros [= <-]. exists e. split_and!; [done..|].
      pose proof (dates_calendar text) as H. rewrite Forall_forall in H. by apply H.
    + by destruct (length (dates text) =? 1)%nat.
  - unfold _parse_policy_period. cbn. by destruct (z =? 0).
  - unfold _parse_policy_period. cbn. by destruct l.
Qed.

(** X11: the dates [_parse_policy_period] returns are dates of the
    calendar read from a string; a start date comes with an end date that
    is not before it. *)
Theorem parse_policy_period_calendar (v : value) :
  (forall e, snd (_parse_policy_period v) = Some e ->
             calendar e /\ exists text, v = VStr text /\ e ∈ dates text)
  /\ (forall s, fst (_parse_policy_period v) = Some s ->
                calendar s
                /\ exists e, snd (_parse_policy_period v) = Some e
                             /\ date_leb s e = true).
Proof.
  split.
  - intros e He. split; [by eapply parse_policy_period_end_calendar|].
    by apply parse_policy_period_end.
  - intros s (e & He & Hle & Hc)%parse_policy_period_start. eauto.
Qed.

End ParsedDates.

(** ** Days left *)

Section DaysLeft.

Lemma days_between_sign (e today : date) :
  calendar e -> calendar today ->
  (days_between e today <? 0) = date_ltb e today
  /\ (0 <? days_between e today) = date_ltb today e
  /\ (days_between e today = 0 <-> e = today).
Proof.
  intros He Ht. unfold days_between.
  rewrite (toordinal_ltb e today He Ht), (toordinal_ltb today e Ht He).
  split_and!.
  - destruct (toordinal e <? toordinal today) eqn:E.
    + apply Z.ltb_lt in E. apply Z.ltb_lt. lia.
    + apply Z.ltb_ge in E. apply Z.ltb_ge. lia.
  - destruct (toordinal today <? toordinal e) eqn:E.
    + apply Z.ltb_lt in E. apply Z.ltb_lt. lia.
    + apply Z.ltb_ge in E. apply Z.ltb_ge. lia.
  - split; [|intros ->; lia]. intros H.
    apply date_leb_antisym; unfold date_leb; apply negb_true_iff.
    + rewrite (toordinal_ltb today e Ht He). apply Z.ltb_ge. lia.
    + rewrite (toordinal_ltb e today He Ht). apply Z.ltb_ge. lia.
Qed.

End DaysLeft.

(** ** Texts for the language model *)

Section Texts.
Import YouthCenterAPIClient.
Context {U : Unicode}.
Context (repr : list str -> str).

Lemma period_info_ok (today : date) (v : value) :
  exists w, period_info today v = Ok w.
Proof.
  unfold period_info.
  destruct (_parse_policy_period v) as [s e] eqn:E.
  destruct (period_note today e) as [note|] eqn:En; [|eauto].
  destruct e as [e|]; [|done].
  destruct (parse_policy_period_end v e) as (text & -> & _); [by rewrite E|].
  cbn [iadd]. eauto.
Qed.

(** X12: the application period shown to the model: unchanged when the
    end date has passed or is unknown, followed by the days left when the
    end date is ahead (at least one), by the note for the last day when it
    is today. *)
Theorem period_info_days_left (today : date) (v : value) :
  calendar today ->
  (forall e, snd (_parse_policy_period v) = Some e ->
     exists text,
       v = VStr text
       /\ period_info today v
          = Ok (VStr (text ++
                  if date_ltb e today then []
                  else if date_ltb today e
                  then u " (마감까지 " ++ str_of_Z (days_between e today) ++ u "일)"
                  else u " (오늘 마감)"))
       /\ (date_ltb today e = true -> 1 <= days_between e today))
  /\ (snd (_parse_policy_period v) = None -> period_info today v = Ok v).
Proof.
  intros Ht. split.
  - intros e He.
    destruct (parse_policy_period_end v e He) as (text & -> & _).
    pose proof (parse_policy_period_end_calendar _ _ He) as Hc.
    destruct (days_between_sign e today Hc Ht) as (Hneg & Hpos & Hzero).
    exists text. split; [done|]. split.
    + unfold period_info. destruct (_parse_policy_period (VStr text)) as [s e'].
      cbn [snd] in He. subst e'. unfold period_note.
      rewrite Hpos. destruct (date_ltb today e) eqn:E1.
      * assert (date_ltb e today = false) as ->; [|done].
        rewrite <- Hneg. apply Z.ltb_ge. apply Z.ltb_lt in Hpos. lia.
      * destruct (days_between e today =? 0) eqn:E0.
        -- apply Z.eqb_eq, Hzero in E0 as ->. by rewrite date_ltb_irrefl.
        -- assert (date_ltb e today = true) as ->; [|by rewrite app_nil_r].
           rewrite <- Hneg. apply Z.ltb_lt. apply Z.eqb_neq in E0.
           apply Z.ltb_ge in Hpos. lia.
    + intros Hlt. rewrite <- Hpos in Hlt. apply Z.ltb_lt in Hlt. lia.
  - intros He. unfold period_info. destruct (_parse_policy_period v) as [s e].
    cbn [snd] in He. by subst e.
Qed.

Lemma shown_obj (d : gmap string value) (key : string) :
  exists text, shown repr (Obj d) key = Ok text.
Proof. unfold shown. cbn [get bind]. eauto. Qed.

(** X13: on a dictionary [format_policy_for_llm] returns the full text and
    never its fallback; on anything else the fallback itself raises
    [AttributeError]. *)
Theorem format_policy_for_llm_total (today : date) :
  (forall d, exists text,
      format_policy_for_llm repr today (Obj d) = Ok text
      /\ format_policy_for_llm_body repr today (Obj d) = Ok text)
  /\ (forall v, format_policy_for_llm repr today (Scalar v) = Raise AttributeError).
Proof.
  split; [|done].
  intros d. unfold format_policy_for_llm.
  assert (exists text, format_policy_for_llm_body repr today (Obj d) = Ok text)
    as [text ->]; [|eauto].
  unfold format_policy_for_llm_body. cbn [get bind].
  destruct (period_info_ok today
              (match d !! "rqutPrdCn" with Some v => v | None => VStr not_available end))
    as [w ->].
  cbn [bind].
  repeat (match goal with
          | |- context [shown repr (Obj d) ?k] =>
            destruct (shown_obj d k) as [? ->]; cbn [bind]
          end).
  eauto.
Qed.

Lemma suggestions_length (policies : list item) (texts : list str) :
  suggestions repr policies = Ok texts -> length texts = length policies.
Proof.
  revert texts. induction policies as [|policy rest IH]; intros texts.
  { by intros [= <-]. }
  cbn [suggestions]. destruct (shown repr policy "polyBizSjnm"); [|done].
  cbn [bind]. destruct (shown repr policy "cnsgNmor"); [|done]. cbn [bind].
  destruct (suggestions repr rest) as [rest'|]; [|done]. cbn [bind].
  intros [= <-]. cbn [length]. by rewrite (IH rest' eq_refl).
Qed.

Lemma search_terms_cons (region : option str) (age : option Z) :
  exists term terms, search_terms region age = term :: terms.
Proof.
  unfold search_terms. destruct (region_terms region ++ age_terms age); cbn; eauto.
Qed.

Lemma suggestions_scalar (policies : list item) (v : value) :
  Scalar v ∈ policies -> exists e, suggestions repr policies = Raise e.
Proof.
  induction policies as [|policy rest IH]; [by intros ?%elem_of_nil|].
  intros [<-|Hin]%elem_of_cons; [cbn; eauto|].
  cbn [suggestions]. destruct (shown repr policy "polyBizSjnm"); [|cbn; eauto].
  cbn [bind]. destruct (shown repr policy "cnsgNmor"); [|cbn; eauto]. cbn [bind].
  destruct (IH Hin) as [e ->]. cbn. eauto.
Qed.

(** X14: [get_policy_suggestions] returns at most five lines; when every
    request fails it returns no line, not the fallback, which is what it
    returns when one of the first five entries is no dictionary. *)
Theorem get_policy_suggestions_bounded (catalog : nat -> params -> http_result)
    (today : date) (api_key : str) (uc : option user_context) :
  let region := match uc with Some uc => region uc | None => None end in
  let age := match uc with Some uc => age uc | None => None end in
  (length (get_policy_suggestions repr catalog today api_key uc) <= 5)%nat
  /\ ((forall n p, fails (catalog n p)) ->
      get_policy_suggestions repr catalog today api_key uc = [])
  /\ (forall v,
        Scalar v ∈ take 5 (search_policies_by_region_and_age catalog today api_key
                                                              region age 10) ->
        get_policy_suggestions repr catalog today api_key uc = [suggestion_fallback]).
Proof.
  cbv zeta. unfold get_policy_suggestions. split_and!.
  - destruct (suggestions repr _) as [texts|e] eqn:E; cbn [try_except length]; [|lia].
    apply suggestions_length in E. rewrite E, length_take. lia.
  - intros Hdown. unfold search_policies_by_region_and_age, search_policies_by_keywords.
    destruct (search_terms_cons (match uc with Some uc => region uc | None => None end)
                (match uc with Some uc => age uc | None => None end))
      as (term & terms & ->).
    cbn [gather].
    destruct (proj2 (search_policies_raises today (catalog 0%nat) api_key term 1
                       (Z.min 20 10) [] [] []) (Hdown _ _)) as [e ->].
    reflexivity.
  - intros v Hv. by destruct (suggestions_scalar _ _ Hv) as [e ->].
Qed.

End Texts.

(** ** Helpers of the chat routes *)

Section FollowUps.
Import LLMChat.
Context {U : Unicode}.




End FollowUps.

Section CategoryRows.
Import YouthCenterAPIClient LLMChat.
Context {U : Unicode}.

Lemma no_digit_not_available : no_digit not_available.
Proof. repeat constructor; by rewrite decimal_ascii. Qed.

Lemma any_occurs_str (keywords : list str) (text : str) :
  any_occurs keywords (VStr text)
  = Ok (existsb (fun keyword => contains keyword text) keywords).
Proof.
  induction keywords as [|keyword keywords IH]; [done|].
  cbn [any_occurs occurs bind existsb]. destruct (contains keyword text); [done|].
  by rewrite IH.
Qed.

Lemma any_occurs_list (keywords l : list str) :
  exists found, any_occurs keywords (VList l) = Ok found.
Proof.
  induction keywords as [|keyword keywords IH]; [cbn; eauto|].
  cbn [any_occurs occurs bind]. destruct (bool_decide _); eauto.
Qed.

Lemma status_not_expired (n : Z) :
  0 <= n ->
  (if n <? 0 then status_expired
   else if n =? 0 then status_today
   else if n <=? 7 then u "마감 임박 (" ++ str_of_Z n ++ u "일)"
   else str_of_Z n ++ u "일 남음") <> status_expired.
Proof.
  intros Hn. destruct (n <? 0) eqn:E; [apply Z.ltb_lt in E; lia|].
  destruct (n =? 0); [done|]. destruct (n <=? 7).
  - intros H. apply (f_equal head) in H. vm_compute in H. done.
  - intros H. apply (f_equal length) in H. rewrite length_app in H.
    vm_compute (length (u "일 남음")) in H. vm_compute (length status_expired) in H. lia.
Qed.

Lemma period_status_active (today : date) (v : value) :
  calendar today ->
  before (snd (_parse_policy_period v)) today = false ->
  (exists status, period_status today v = Ok status
     /\ snd status <> status_expired
     /\ (forall n, fst status = Some n -> 0 <= n))
  \/ (period_status today v = Raise TypeError
      /\ (v = VNone \/ exists z, v = VInt z)).
Proof.
  intros Ht Hb. unfold period_status.
  destruct (_parse_policy_period v) as [s [e|]] eqn:E; cbn [snd before] in Hb.
  - left. eexists. split; [reflexivity|]. cbn [fst snd].
    assert (calendar e) as Hc by (eapply parse_policy_period_end_calendar; by rewrite E).
    destruct (days_between_sign e today Hc Ht) as (Hneg & _ & _).
    rewrite Hb in Hneg. apply Z.ltb_ge in Hneg.
    split; [by apply status_not_expired|]. by intros n [= <-].
  - destruct v as [|text|z|l].
    + right. split; [done|]. by left.
    + left. rewrite any_occurs_str. cbn [bind]. eexists. split; [reflexivity|].
      cbn [fst snd]. split; [|done]. by destruct (existsb _ _).
    + right. split; [done|]. right. eauto.
    + left. destruct (any_occurs_list rolling_shown l) as [found ->]. cbn [bind].
      eexists. split; [reflexivity|]. cbn [fst snd]. split; [|done]. by destruct found.
Qed.

(** X16: in the rows of the category route, a policy found by the category
    search is never marked expired, never gets the status [만료됨] nor a
    negative number of days, and shows at most three keywords; the row
    fails with [TypeError] only when the application period is [None] or a
    number. *)
Theorem category_rows_not_expired (table : list (str * list str))
    (catalog : nat -> params -> http_result) (today : date) (api_key : str)
    (category : str) (uc : option user_context) (max_results : Z) (policy : item) :
  calendar today ->
  policy ∈ fst (search_policies_by_category table catalog today api_key category uc
                                            max_results) ->
  (exists row,
      format_row today policy = Ok row
      /\ row_is_expired row = false
      /\ row_period_status row <> status_expired
      /\ (forall n, row_remaining_days row = Some n -> 0 <= n)
      /\ exists keywords,
           row_matched_keywords row = VList keywords /\ (length keywords <= 3)%nat)
  \/ (format_row today policy = Raise TypeError
      /\ exists d, policy = Obj d
           /\ (d !! "rqutPrdCn" = Some VNone
               \/ exists z, d !! "rqutPrdCn" = Some (VInt z))).
Proof.
  intros Ht (d & keywords & -> & Hk & Hactive)%category_search_results.
  unfold format_row. rewrite Hactive. cbn [get bind]. rewrite Hk.
  rewrite is_policy_expired_obj in Hactive.
  apply orb_false_iff in Hactive as [Hactive _]. unfold field in Hactive.
  assert (before (snd (_parse_policy_period
            (match d !! "rqutPrdCn" with Some v => v | None => VStr not_available end)))
            today = false) as Hb.
  { destruct (d !! "rqutPrdCn"); [done|].
    by rewrite parse_policy_period_no_date
      by apply dates_no_digit, no_digit_not_available. }
  destruct (period_status_active today _ Ht Hb)
    as [(status & -> & Hs & Hn)|(-> & Hv)].
  - left. cbn [bind first_three]. eexists. split; [reflexivity|].
    cbn [row_is_expired row_period_status row_remaining_days row_matched_keywords].
    split_and!; [done..|]. eexists. split; [done|]. rewrite length_take. lia.
  - right. split; [done|]. exists d. split; [done|].
    destruct (d !! "rqutPrdCn") as [v|]; [|by destruct Hv as [|[]]].
    destruct Hv as [->|[z ->]]; eauto.
Qed.

End CategoryRows.

(** ** Documents of the local store *)

Section LocalDocuments.
Import RAGService.

Lemma filter_docs_loop_spec (user_context : UserContext) (docs : list Document)
    (user_region : str) :
  uc_region user_context = Some user_region -> user_region <> [] ->
  filter_docs_loop user_context docs
  = filter (fun doc => region (metadata doc) = Some whole_seoul
                       \/ region (metadata doc) = Some user_region) docs.
Proof.
  intros Hr Hne. induction docs as [|doc docs IH]; [done|].
  cbn [filter_docs_loop]. rewrite Hr, IH.
  destruct user_region as [|c user_region]; [done|]. cbn [nonempty andb].
  destruct (region (metadata doc)) as [r|] eqn:Er; cbn [from_option id].
  - do 2 case_bool_decide; cbn [negb andb].
    + by rewrite filter_cons_True by (left; congruence).
    + by rewrite filter_cons_True by (left; congruence).
    + by rewrite filter_cons_True by (right; congruence).
    + rewrite filter_cons_False; [done|]. cbn beta. intros [?|?]; congruence.
  - rewrite !bool_decide_eq_false_2 by done. cbn [negb andb].
    rewrite filter_cons_False; [done|]. cbn beta. intros [?|?]; congruence.
Qed.

Lemma filter_docs_loop_id (user_context : UserContext) (docs : list Document) :
  uc_region user_context = None \/ uc_region user_context = Some [] ->
  filter_docs_loop user_context docs = docs.
Proof.
  intros H. induction docs as [|doc docs IH]; [done|].
  cbn [filter_docs_loop]. rewrite IH. by destruct H as [-> | ->].
Qed.

(** X17: the filter by user context keeps every document when no region
    is given; for a region it keeps, in order, the documents of that region
    and of [서울시 전체], so none without region; it is idempotent, and the
    age and the student flag change nothing. *)
Theorem filter_docs_by_user_context_region (docs : list Document)
    (user_context : UserContext) :
  let kept := _filter_docs_by_user_context docs (Some user_context) in
  (uc_region user_context = None \/ uc_region user_context = Some [] -> kept = docs)
  /\ (forall user_region,
        uc_region user_context = Some user_region -> user_region <> [] ->
        kept = filter (fun doc => region (metadata doc) = Some whole_seoul
                                  \/ region (metadata doc) = Some user_region) docs
        /\ Forall (fun doc => region (metadata doc) = None -> doc ∉ kept) docs)
  /\ kept `sublist_of` docs
  /\ _filter_docs_by_user_context kept (Some user_context) = kept
  /\ (forall age student,
        _filter_docs_by_user_context docs
          (Some {| uc_region := uc_region user_context;
                   uc_age := age; uc_student := student |}) = kept).
Proof.
  cbv zeta. cbn [_filter_docs_by_user_context].
  destruct (uc_region user_context) as [[|c r]|] eqn:Hr.
  - rewrite !filter_docs_loop_id by auto. split_and!; [done| |done|done|].
    + by intros ? [= <-] ?.
    + intros age student. by apply filter_docs_loop_id; right.
  - pose proof (filter_docs_loop_spec user_context docs (c :: r) Hr) as Hs.
    rewrite Hs by done. split_and!.
    + by intros [|].
    + intros ? [= <-] _. split; [done|]. apply Forall_forall. intros doc _ Hn Hin.
      apply list_elem_of_filter in Hin as [[H|H] _]; by rewrite Hn in H.
    + apply sublist_filter.
    + rewrite (filter_docs_loop_spec user_context _ (c :: r) Hr) by done.
      rewrite list_filter_filter. apply list_filter_iff. tauto.
    + intros age student. by apply filter_docs_loop_spec.
  - rewrite !filter_docs_loop_id by auto. split_and!; [done|done|done|done|].
    intros age student. by apply filter_docs_loop_id; left.
Qed.

Context {U : Unicode}.

(** X18: the citations of local policies: one per policy, numbered from 1,
    with the title, the URL and the agency of the policy, a snippet of at
    most 203 characters, and the current time as date of update. *)
Theorem references_of_local_policies (now : str) (policies : list LocalPolicy) :
  let references :=
    _extract_references_from_docs now (_convert_policies_to_docs policies) in
  length references = length policies
  /\ (forall i policy,
        policies !! i = Some policy ->
        exists r,
          references !! i = Some r
          /\ ref_id r = ref_prefix ++ str_of_nat (S i)
          /\ ref_title r = lp_title policy
          /\ ref_url r = lp_source_url policy
          /\ ref_source r = lp_agency policy
          /\ ref_last_updated r = now
          /\ (length (ref_snippet r) <= 203)%nat).
Proof.
  cbv zeta. unfold _extract_references_from_docs, _convert_policies_to_docs. split.
  - by rewrite length_imap, length_map.
  - intros i policy Hi. eexists. split.
    + rewrite list_lookup_imap.
      change (map convert_policy policies) with (convert_policy <$> policies).
      rewrite list_lookup_fmap, Hi. reflexivity.
    + split_and!; try reflexivity. apply snippet_length.
Qed.

End LocalDocuments.

(** ** Periods written [YYYY.MM.DD~YYYY.MM.DD] *)

Section DottedPeriods.
Import YouthCenterAPIClient.
Context {U : Unicode}.

Lemma take_digits_app (k : nat) (s g rest : str) :
  take_digits k s = Some (g, rest) -> s = g ++ rest.
Proof.
  revert s g rest. induction k as [|k IH]; intros s g rest.
  { cbn. by intros [= <- <-]. }
  cbn [take_digits]. destruct s as [|c r]; [done|]. destruct (isdigit c); [|done].
  destruct (take_digits k r) as [[g' rest']|] eqn:E; [|done].
  intros [= <- <-]. by rewrite (IH _ _ _ E).
Qed.

(** A pattern whose second atom is a literal that the text does not hold
    matches nowhere in it. *)
Lemma match_here_absent (c : char) (lo hi : nat) (p : list atom) (s : str) :
  c ∉ s -> match_here (Digits lo hi :: OneOf [c] :: p) s = None.
Proof.
  intros Hc. cbn [match_here]. apply first_some_None. intros k _.
  destruct (take_digits k s) as [[g rest]|] eqn:E; [|done].
  apply take_digits_app in E as ->.
  destruct rest as [|x rest]; [done|]. cbn [existsb].
  destruct (N.eqb_spec x c) as [->|]; [|done].
  exfalso. apply Hc. apply elem_of_app. right. left.
Qed.

Lemma findall_from_absent (fuel : nat) (c : char) (lo hi : nat) (p : list atom)
    (s : str) :
  c ∉ s -> findall_from fuel (Digits lo hi :: OneOf [c] :: p) s = [].
Proof.
  revert s. induction fuel as [|fuel IH]; intros s Hc; [done|].
  cbn [findall_from]. rewrite match_here_absent by done.
  destruct s as [|x r]; [done|]. apply IH. intros H. apply Hc. by right.
Qed.

Lemma findall_absent (c : char) (lo hi : nat) (p : list atom) (s : str) :
  c ∉ s -> findall (Digits lo hi :: OneOf [c] :: p) s = [].
Proof. apply findall_from_absent. Qed.

Lemma digit_not_sep (n : Z) : 0 <= n <= 9 -> existsb (N.eqb (digit n)) seps = false.
Proof.
  intros H. unfold seps. cbn [existsb].
  rewrite !(proj2 (N.eqb_neq _ _)); [done|unfold digit; lia..].
Qed.

Lemma figures_isdigit (cs : str) :
  figures cs -> Forall (fun c => isdigit c = true) cs.
Proof.
  intros H. eapply Forall_impl; [exact H|]. intros c (n & Hn & ->). by apply isdigit_digit.
Qed.

Lemma match_here_short_fail (y1 y2 y3 : char) (rest : str) :
  figures [y1; y2; y3] -> match_here pattern_short (y1 :: y2 :: y3 :: rest) = None.
Proof.
  intros H. pose proof (figures_isdigit _ H) as Hd.
  repeat (apply Forall_cons in Hd as [? Hd]).
  apply Forall_cons in H as [_ H]. apply Forall_cons in H as [_ H].
  apply Forall_cons in H as [(n & Hn & ->) _].
  cbn. repeat (match goal with Hx : isdigit _ = true |- _ => rewrite Hx; clear Hx end; cbn).
  pose proof (digit_not_sep n Hn) as Hs. unfold seps in Hs. cbn [existsb] in Hs.
  by rewrite Hs.
Qed.

Lemma match_here_short (y3 y4 m1 m2 d1 d2 : char) (rest : str) :
  Forall (fun c => isdigit c = true) [y3; y4; m1; m2; d1; d2] ->
  match_here pattern_short
    ([y3; y4] ++ [46%N] ++ [m1; m2] ++ [46%N] ++ [d1; d2] ++ rest)
  = Some ([[y3; y4]; [m1; m2]; [d1; d2]], rest).
Proof.
  intros H. repeat (apply Forall_cons in H as [? H]).
  cbn. repeat (match goal with Hd : isdigit _ = true |- _ => rewrite Hd; clear Hd end; cbn).
  done.
Qed.

Lemma dotted_figures (d : date) :
  calendar d ->
  figures (four_digits (year d)) /\ figures (two_digits (month d))
  /\ figures (two_digits (day d)).
Proof.
  intros (Hy & Hm & Hd)%calendar_range.
  split_and!; repeat constructor; eexists; (split; [|reflexivity]);
    Z.to_euclidean_division_equations; lia.
Qed.

(** The last pattern finds the two dates again, their years cut to two
    digits. *)
Lemma findall_short_dotted_period (a b : date) :
  calendar a -> calendar b ->
  findall pattern_short (dotted_period a b) =
    [ [drop 2 (four_digits (year a)); two_digits (month a); two_digits (day a)];
      [drop 2 (four_digits (year b)); two_digits (month b); two_digits (day b)] ].
Proof.
  intros Ha Hb.
  destruct (dotted_figures a Ha) as (Hya & Hma & Hda).
  destruct (dotted_figures b Hb) as (Hyb & Hmb & Hdb).
  unfold dotted_period, dotted, findall.
  unfold four_digits, two_digits in *.
  set (y1 := digit (year a / 1000)) in *. set (y2 := digit (year a / 100 mod 10)) in *.
  set (y3 := digit (year a / 10 mod 10)) in *. set (y4 := digit (year a mod 10)) in *.
  set (m1 := digit (month a / 10)) in *. set (m2 := digit (month a mod 10)) in *.
  set (d1 := digit (day a / 10)) in *. set (d2 := digit (day a mod 10)) in *.
  set (z1 := digit (year b / 1000)) in *. set (z2 := digit (year b / 100 mod 10)) in *.
  set (z3 := digit (year b / 10 mod 10)) in *. set (z4 := digit (year b mod 10)) in *.
  set (n1 := digit (month b / 10)) in *. set (n2 := digit (month b mod 10)) in *.
  set (e1 := digit (day b / 10)) in *. set (e2 := digit (day b mod 10)) in *.
  cbn [length app drop].
  assert (figures [y1; y2; y3]) as F1.
  { repeat (apply Forall_cons in Hya as [? Hya]). by repeat constructor. }
  assert (figures [y2; y3; y4]) as F2.
  { repeat (apply Forall_cons in Hya as [? Hya]). by repeat constructor. }
  assert (figures [z1; z2; z3]) as G1.
  { repeat (apply Forall_cons in Hyb as [? Hyb]). by repeat constructor. }
  assert (figures [z2; z3; z4]) as G2.
  { repeat (apply Forall_cons in Hyb as [? Hyb]). by repeat constructor. }
  assert (Forall (fun c => isdigit c = true) [y3; y4; m1; m2; d1; d2]) as Ia.
  { apply figures_isdigit.
    repeat (apply Forall_cons in Hya as [? Hya]).
    repeat (apply Forall_cons in Hma as [? Hma]).
    repeat (apply Forall_cons in Hda as [? Hda]). by repeat constructor. }
  assert (Forall (fun c => isdigit c = true) [z3; z4; n1; n2; e1; e2]) as Ib.
  { apply figures_isdigit.
    repeat (apply Forall_cons in Hyb as [? Hyb]).
    repeat (apply Forall_cons in Hmb as [? Hmb]).
    repeat (apply Forall_cons in Hdb as [? Hdb]). by repeat constructor. }
  rewrite findall_from_skip by by apply match_here_short_fail.
  rewrite findall_from_skip by by apply match_here_short_fail.
  pose proof (match_here_short _ _ _ _ _ _
                (126%N :: [z1; z2; z3; z4; 46%N; n1; n2; 46%N; e1; e2]) Ia) as Hm.
  cbn [app] in Hm.
  rewrite (findall_from_match _ _ _ _ _ Hm) by (cbn; lia).
  clear Hm. f_equal.
  rewrite findall_from_skip.
  2:{ cbn. by rewrite isdigit_ascii. }
  rewrite findall_from_skip by by apply match_here_short_fail.
  rewrite findall_from_skip by by apply match_here_short_fail.
  pose proof (match_here_short _ _ _ _ _ _ [] Ib) as Hm. cbn [app] in Hm.
  rewrite (findall_from_match _ _ _ _ _ Hm) by (cbn; lia).
  f_equal.
Qed.

Lemma parse_match_short (d : date) :
  calendar d -> short_year d ->
  parse_match [drop 2 (four_digits (year d)); two_digits (month d); two_digits (day d)]
  = Some d.
Proof.
  intros Hc Hs. pose proof (calendar_range d Hc) as (Hy & Hm & Hd).
  unfold short_year in Hs. unfold parse_match.
  pose proof (Z.rem_mul_r (year d) 10 10 ltac:(lia) ltac:(lia)) as H100.
  change (10 * 10) with 100 in H100.
  assert (year d mod 100 / 10 = year d / 10 mod 10) as Hq.
  { rewrite H100, (Z.mul_comm 10), Z.div_add by lia.
    rewrite Z.div_small; [lia|]. apply Z.mod_pos_bound; lia. }
  assert (year d mod 100 mod 10 = year d mod 10) as Hr.
  { rewrite H100, (Z.mul_comm 10), Z.mod_add by lia. apply Z.mod_mod; lia. }
  assert (drop 2 (four_digits (year d)) = two_digits (year d mod 100)) as ->.
  { unfold four_digits, two_digits. cbn [drop]. by rewrite Hq, Hr. }
  change (length (two_digits (year d mod 100)) =? 2)%nat with true.
  rewrite (int_two_digits (year d mod 100))
    by (Z.to_euclidean_division_equations; lia).
  cbn [mbind option_bind].
  assert ((if year d mod 100 <? 50
           then century_20 ++ two_digits (year d mod 100)
           else century_19 ++ two_digits (year d mod 100))
          = four_digits (year d)) as ->.
  { unfold four_digits, two_digits. rewrite Hq, Hr.
    destruct (year d mod 100 <? 50) eqn:E.
    - apply Z.ltb_lt in E.
      assert (year d / 1000 = 2) as -> by (Z.to_euclidean_division_equations; lia).
      assert (year d / 100 mod 10 = 0) as -> by (Z.to_euclidean_division_equations; lia).
      reflexivity.
    - apply Z.ltb_ge in E.
      assert (year d / 1000 = 1) as -> by (Z.to_euclidean_division_equations; lia).
      assert (year d / 100 mod 10 = 9) as -> by (Z.to_euclidean_division_equations; lia).
      reflexivity. }
  rewrite int_four_digits by lia. cbn [mbind option_bind].
  rewrite !int_two_digits by lia. exact Hc.
Qed.

Lemma dates_dotted_period_short (a b : date) :
  calendar a -> calendar b -> short_year a -> short_year b ->
  dates (dotted_period a b) = [a; b; a; b].
Proof.
  intros Ha Hb Sa Sb. unfold dates, date_patterns. cbn [flat_map].
  fold pattern_dotted. fold pattern_short.
  rewrite findall_dotted_period by done.
  rewrite findall_short_dotted_period by done.
  rewrite findall_absent.
  2:{ intros Hin. pose proof (dotted_period_chars a b Ha Hb) as Hc.
      rewrite Forall_forall in Hc. apply Hc in Hin. lia. }
  cbn [omap list_omap]. rewrite !parse_match_dotted, !parse_match_short by done.
  reflexivity.
Qed.

(** A date written [YYYY.MM.DD] alone, before a text without digits: the
    first pattern finds it, and the last finds it again. *)
Lemma findall_dotted_lone (d : date) (suffix : str) :
  calendar d -> no_digit suffix ->
  findall pattern_dotted (dotted d ++ suffix)
  = [[four_digits (year d); two_digits (month d); two_digits (day d)]].
Proof.
  intros Hd Hs.
  destruct (dotted_digits d Hd)
    as (y1 & y2 & y3 & y4 & m1 & m2 & d1 & d2 & Ey & Em & Ed & Hda).
  unfold dotted, findall. rewrite Ey, Em, Ed.
  assert (Forall (fun c => isdigit c = true) [y1; y2; y3; y4; m1; m2; d1; d2]) as Ia
    by (eapply Forall_impl; [exact Hda|]; by intros ? [? _]).
  cbn [length app].
  pose proof (match_here_dotted _ _ _ _ _ _ _ _ suffix Ia) as Hm. cbn [app] in Hm.
  rewrite (findall_from_match _ _ _ _ _ Hm) by (cbn; lia).
  unfold pattern_dotted. by rewrite findall_from_no_digit.
Qed.

Lemma findall_short_lone (d : date) (suffix : str) :
  calendar d -> no_digit suffix ->
  findall pattern_short (dotted d ++ suffix)
  = [[drop 2 (four_digits (year d)); two_digits (month d); two_digits (day d)]].
Proof.
  intros Hd Hs. destruct (dotted_figures d Hd) as (Hy & Hm & Hdd).
  unfold dotted, findall. unfold four_digits, two_digits in *.
  set (y1 := digit (year d / 1000)) in *. set (y2 := digit (year d / 100 mod 10)) in *.
  set (y3 := digit (year d / 10 mod 10)) in *. set (y4 := digit (year d mod 10)) in *.
  set (m1 := digit (month d / 10)) in *. set (m2 := digit (month d mod 10)) in *.
  set (d1 := digit (day d / 10)) in *. set (d2 := digit (day d mod 10)) in *.
  cbn [length app drop].
  assert (figures [y1; y2; y3]) as F1.
  { repeat (apply Forall_cons in Hy as [? Hy]). by repeat constructor. }
  assert (figures [y2; y3; y4]) as F2.
  { repeat (apply Forall_cons in Hy as [? Hy]). by repeat constructor. }
  assert (Forall (fun c => isdigit c = true) [y3; y4; m1; m2; d1; d2]) as Ia.
  { apply figures_isdigit.
    repeat (apply Forall_cons in Hy as [? Hy]).
    repeat (apply Forall_cons in Hm as [? Hm]).
    repeat (apply Forall_cons in Hdd as [? Hdd]). by repeat constructor. }
  rewrite findall_from_skip by by apply match_here_short_fail.
  rewrite findall_from_skip by by apply match_here_short_fail.
  pose proof (match_here_short _ _ _ _ _ _ suffix Ia) as Hmatch. cbn [app] in Hmatch.
  rewrite (findall_from_match _ _ _ _ _ Hmatch) by (cbn; lia).
  unfold pattern_short. by rewrite findall_from_no_digit.
Qed.

Lemma dotted_chars (d : date) :
  calendar d -> Forall (fun c => (c < 78)%N) (dotted d).
Proof.
  intros Hd.
  destruct (dotted_digits d Hd)
    as (y1 & y2 & y3 & y4 & m1 & m2 & d1 & d2 & Ey & Em & Ed & Hda).
  unfold dotted. rewrite Ey, Em, Ed. cbn [app].
  repeat (apply Forall_cons in Hda as [[_ ?] Hda]).
  repeat constructor; lia.
Qed.

Lemma dates_dotted_lone (d : date) (suffix : str) :
  calendar d -> short_year d -> no_digit suffix -> year_sign ∉ suffix ->
  dates (dotted d ++ suffix) = [d; d].
Proof.
  intros Hd Sd Hs Hy. unfold dates, date_patterns. cbn [flat_map].
  fold pattern_dotted. fold pattern_short.
  rewrite findall_dotted_lone, findall_short_lone by done.
  rewrite findall_absent.
  2:{ intros [Hin|Hin]%elem_of_app; [|by apply Hy].
      pose proof (dotted_chars d Hd) as Hc. rewrite Forall_forall in Hc.
      apply Hc in Hin. lia. }
  cbn [omap list_omap]. rewrite parse_match_dotted, parse_match_short by done.
  reflexivity.
Qed.

(** C3: what holds and what does not.  For a text without rolling-admission
    marker, with [dates text] the dates the patterns match (a date that two
    patterns match counts twice): two dates or more give the least as start
    and the greatest as end, so start <= end; exactly one gives
    [(None, that date)]; none gives [(None, None)].  For every
    [YYYY.MM.DD~YYYY.MM.DD] of two calendar dates both ends are found,
    start <= end, and they enclose the dates written.  But a date written
    [YYYY.MM.DD] alone is matched by the first pattern and, from its third
    digit on, by the last: [dates] holds it twice and it comes back as
    start and as end, where one date read should give [(None, that date)]. *)
Theorem parse_policy_period_lone_date :
  (forall text : str,
      existsb (fun keyword => contains keyword text) rolling_markers = false ->
      ((2 <= length (dates text))%nat ->
       exists s e, _parse_policy_period (VStr text) = (Some s, Some e)
                   /\ is_min s (dates text) /\ is_max e (dates text)
                   /\ date_leb s e = true)
      /\ (forall d, dates text = [d] ->
                    _parse_policy_period (VStr text) = (None, Some d))
      /\ (dates text = [] -> _parse_policy_period (VStr text) = (None, None)))
  /\ (forall a b : date,
        calendar a -> calendar b ->
        exists s e, _parse_policy_period (VStr (dotted_period a b)) = (Some s, Some e)
                    /\ date_leb s e = true
                    /\ date_leb s a = true /\ date_leb s b = true
                    /\ date_leb a e = true /\ date_leb b e = true)
  /\ (forall (d : date) (suffix : str),
        calendar d -> short_year d -> no_digit suffix -> year_sign ∉ suffix ->
        existsb (fun keyword => contains keyword (dotted d ++ suffix)) rolling_markers
        = false ->
        dates (dotted d ++ suffix) = [d; d]
        /\ _parse_policy_period (VStr (dotted d ++ suffix)) = (Some d, Some d)).
Proof.
  split_and!.
  - intros text Hm. rewrite parse_policy_period_dates by done. split_and!.
    + intros Hlen. rewrite (proj2 (Nat.leb_le _ _) Hlen).
      destruct (sort_dates_ends _ Hlen) as (s & e & Hs & He & Hmin & Hmax & Hle).
      exists s, e. by rewrite Hs, He.
    + by intros d ->.
    + by intros ->.
  - apply parse_policy_period_dotted.
  - intros d suffix Hd Sd Hs Hy Hm.
    pose proof (dates_dotted_lone d suffix Hd Sd Hs Hy) as Hdates.
    split; [done|].
    rewrite parse_policy_period_dates, Hdates by done.
    cbn [length Nat.leb sort_dates insert_date]. rewrite date_ltb_irrefl. done.
Qed.

(** X19: a period written [YYYY.MM.DD~YYYY.MM.DD] with years from 1950 to
    2049 parses back to its two dates, and a policy with this application
    period and no business period is expired exactly when the second date
    is before today. *)
Theorem parse_policy_period_round_trip (a b : date) :
  calendar a -> calendar b -> short_year a -> short_year b ->
  date_leb a b = true ->
  _parse_policy_period (VStr (dotted_period a b)) = (Some a, Some b)
  /\ (forall today d,
        d !! "rqutPrdCn" = Some (VStr (dotted_period a b)) ->
        truthy (field d "bizPrdCn") = false ->
        _is_policy_expired today (Obj d) = date_ltb b today).
Proof.
  intros Ha Hb Sa Sb Hab.
  assert (_parse_policy_period (VStr (dotted_period a b)) = (Some a, Some b)) as Hp.
  { rewrite parse_policy_period_dates by by apply dotted_period_no_marker.
    rewrite dates_dotted_period_short by done.
    destruct (sort_dates_ends [a; b; a; b])
      as (s & e & Hs & He & [Hsin Hmin] & [Hein Hmax] & Hle).
    { simpl. lia. }
    cbn [length Nat.leb]. rewrite Hs, He.
    assert (s = a) as ->.
    { apply date_leb_antisym; [apply Hmin; left|].
      repeat (apply elem_of_cons in Hsin as [->|Hsin]);
        [apply date_leb_refl|exact Hab|apply date_leb_refl|exact Hab|
         by apply elem_of_nil in Hsin]. }
    assert (e = b) as ->; [|done].
    apply date_leb_antisym; [|apply Hmax; right; left].
    repeat (apply elem_of_cons in Hein as [->|Hein]);
      [exact Hab|apply date_leb_refl|exact Hab|apply date_leb_refl|
       by apply elem_of_nil in Hein]. }
  split; [exact Hp|].
  intros today d Hd Hbiz.
  rewrite is_policy_expired_obj, Hbiz. unfold field at 1. rewrite Hd, Hp.
  cbn [snd before andb]. by rewrite orb_false_r.
Qed.

End DottedPeriods.

(** ** Expiry as time passes *)

Section Later.
Import YouthCenterAPIClient.
Context {U : Unicode}.

Lemma before_later (e : option date) (today later : date) :
  date_leb today later = true -> before e today = true -> before e later = true.
Proof.
  destruct e as [e|]; [|done]. cbn [before]. intros Hle Hlt.
  destruct (date_ltb e later) eqn:E; [done|].
  assert (date_leb later e = true) as H1 by (unfold date_leb; by rewrite E).
  pose proof (date_leb_trans _ _ _ Hle H1) as H2.
  unfold date_leb in H2. by rewrite Hlt in H2.
Qed.

Lemma is_policy_expired_later (today later : date) (policy : item) :
  date_leb today later = true ->
  _is_policy_expired today policy = true -> _is_policy_expired later policy = true.
Proof.
  intros Hle. destruct policy as [d|v]; [|done].
  rewrite !is_policy_expired_obj.
  intros [H|[Ht H]%andb_true_iff]%orb_true_iff.
  - by rewrite (before_later _ _ _ Hle H).
  - rewrite Ht, (before_later _ _ _ Hle H). apply orb_true_r.
Qed.

(** X20: a policy that has expired stays expired on every later day, so
    the policies active on a later day are among those active today. *)
Theorem is_policy_expired_monotone (today later : date) (policies : list item) :
  date_leb today later = true ->
  Forall (fun policy => _is_policy_expired today policy = true ->
                        _is_policy_expired later policy = true) policies
  /\ _filter_active_policies later policies
     = _filter_active_policies later (_filter_active_policies today policies).
Proof.
  intros Hle. split.
  - apply Forall_forall. intros policy _. by apply is_policy_expired_later.
  - unfold _filter_active_policies. rewrite list_filter_filter.
    apply list_filter_iff. intros policy. split; [|tauto].
    intros H. split; [done|].
    destruct (_is_policy_expired today policy) eqn:E; [|done].
    by rewrite (is_policy_expired_later _ _ _ Hle E) in H.
Qed.

End Later.

Section FurtherExamples.
Import YouthCenterAPIClient LLMChat.

Lemma parse_policy_period_lone_date_witness :
  (exists s e,
      _parse_policy_period (U := basic_unicode)
        (VStr (u "2024.12.31 ~ 2024.03.01 (2024-06-15)")) = (Some s, Some e)
      /\ is_min s (dates (U := basic_unicode)
                     (u "2024.12.31 ~ 2024.03.01 (2024-06-15)"))
      /\ is_max e (dates (U := basic_unicode)
                     (u "2024.12.31 ~ 2024.03.01 (2024-06-15)"))
      /\ date_leb s e = true)
  /\ _parse_policy_period (U := basic_unicode)
       (VStr (u "2024년 12월 31일까지")) = (None, Some (Date 2024 12 31))
  /\ dates (U := basic_unicode) (dotted (Date 2024 12 31) ++ u "까지")
     = [Date 2024 12 31; Date 2024 12 31]
  /\ _parse_policy_period (U := basic_unicode)
       (VStr (dotted (Date 2024 12 31) ++ u "까지"))
     = (Some (Date 2024 12 31), Some (Date 2024 12 31)).
Proof.
  destruct (parse_policy_period_lone_date (U := basic_unicode)) as (H & _ & Hlone).
  split_and!.
  - apply (H (u "2024.12.31 ~ 2024.03.01 (2024-06-15)")).
    + vm_compute; reflexivity.
    + vm_compute; lia.
  - apply (H (u "2024년 12월 31일까지")); vm_compute; reflexivity.
  - apply (Hlone (Date 2024 12 31) (u "까지")).
    + reflexivity.
    + unfold short_year; simpl; lia.
    + repeat constructor.
    + vm_compute. intros H'. repeat (apply elem_of_cons in H' as [H'|H']; [done|]).
      by apply elem_of_nil in H'.
    + vm_compute; reflexivity.
  - apply (Hlone (Date 2024 12 31) (u "까지")).
    + reflexivity.
    + unfold short_year; simpl; lia.
    + repeat constructor.
    + vm_compute. intros H'. repeat (apply elem_of_cons in H' as [H'|H']; [done|]).
      by apply elem_of_nil in H'.
    + vm_compute; reflexivity.
Defined.

(** The failing input as the catalogue writes it, and a year that two
    digits cannot stand for: the start date is then a century off. *)
Example parse_policy_period_lone_date_examples :
  let parse s := _parse_policy_period (U := basic_unicode) (VStr (u s)) in
  dotted (Date 2024 12 31) ++ u "까지" = u "2024.12.31까지"
  /\ parse "2024.12.31까지" = (Some (Date 2024 12 31), Some (Date 2024 12 31))
  /\ parse "2024-12-31" = (Some (Date 2024 12 31), Some (Date 2024 12 31))
  /\ parse "2050.01.31까지" = (Some (Date 1950 1 31), Some (Date 2050 1 31)).
Proof. cbv zeta. split_and!; vm_compute; reflexivity. Qed.

Lemma search_policies_active_witness :
  Forall (fun policy => _is_policy_expired (U := basic_unicode) day0 policy = false)
         [record "R1" "청년 월세 지원" "상시"]
  /\ [record "R1" "청년 월세 지원" "상시"]
     `sublist_of` sent (catalog_ok 0 (build_params key0 (u "청년") 1 20 [] [] []))
  /\ _filter_active_policies (U := basic_unicode) day0
       [record "R1" "청년 월세 지원" "상시"]
     = [record "R1" "청년 월세 지원" "상시"].
Proof.
  apply (search_policies_active (U := basic_unicode) day0 (catalog_ok 0) key0
           (u "청년") 1 20 [] [] []
           (Payload (Some (JList [record "R1" "청년 월세 지원" "상시"]))));
    vm_compute; reflexivity.
Defined.

Lemma search_policies_by_category_extends_witness :
  let table' :=
    snd (search_policies_by_category (U := basic_unicode) housing_table catalog_ok
           day0 key0 housing (Some seongbuk_user) 20) in
  lookup_category housing table'
  = Some ([u "주거"; u "월세"] ++ context_keywords (Some seongbuk_user))
  /\ (forall c, c <> housing ->
                lookup_category c table' = lookup_category c housing_table)
  /\ map fst table' = map fst housing_table.
Proof.
  apply (search_policies_by_category_extends (U := basic_unicode) housing_table
           catalog_ok day0 key0 housing (Some seongbuk_user) 20).
  vm_compute; reflexivity.
Defined.

Lemma search_policies_by_category_accumulates_witness :
  lookup_category housing
    (searched (U := basic_unicode) 3 housing_table (fun _ => catalog_ok) day0 key0
              housing (Some seongbuk_user) 20)
  = Some ([u "주거"; u "월세"]
          ++ concat (replicate 3 (context_keywords (Some seongbuk_user)))).
Proof.
  apply (search_policies_by_category_accumulates (U := basic_unicode) 3 housing_table
           (fun _ => catalog_ok) day0 key0 housing (Some seongbuk_user) 20).
  vm_compute; reflexivity.
Defined.

Lemma housing_result_found :
  housing_result
  ∈ fst (search_policies_by_category (U := basic_unicode) housing_table catalog_ok
           day0 key0 housing (Some seongbuk_user) 20).
Proof. vm_compute. left. Qed.

Lemma search_policies_by_category_labels_witness :
  exists d c keywords,
    housing_result = Obj d
    /\ (c = housing \/ (lookup_category housing housing_table = None /\ c = etc))
    /\ lookup_category c
         (snd (search_policies_by_category (U := basic_unicode) housing_table
                 catalog_ok day0 key0 housing (Some seongbuk_user) 20))
       = Some keywords
    /\ d !! "matched_category" = Some (VStr c)
    /\ d !! "category_keywords" = Some (VList keywords)
    /\ _is_policy_expired (U := basic_unicode) day0 housing_result = false.
Proof.
  apply (search_policies_by_category_labels (U := basic_unicode) housing_table
           catalog_ok day0 key0 housing (Some seongbuk_user) 20 housing_result).
  exact housing_result_found.
Defined.

Lemma period_info_days_left_witness :
  (forall e,
     snd (_parse_policy_period (U := basic_unicode) (VStr (u "2025.12.31"))) = Some e ->
     exists text,
       VStr (u "2025.12.31") = VStr text
       /\ period_info (U := basic_unicode) day0 (VStr (u "2025.12.31"))
          = Ok (VStr (text ++
                  if date_ltb e day0 then []
                  else if date_ltb day0 e
                  then u " (마감까지 " ++ str_of_Z (days_between e day0) ++ u "일)"
                  else u " (오늘 마감)"))
       /\ (date_ltb day0 e = true -> 1 <= days_between e day0))
  /\ (snd (_parse_policy_period (U := basic_unicode) (VStr (u "2025.12.31"))) = None ->
      period_info (U := basic_unicode) day0 (VStr (u "2025.12.31"))
      = Ok (VStr (u "2025.12.31"))).
Proof.
  apply (period_info_days_left (U := basic_unicode) day0 (VStr (u "2025.12.31"))).
  reflexivity.
Defined.

Lemma category_rows_not_expired_witness :
  (exists row,
      format_row (U := basic_unicode) day0 housing_result = Ok row
      /\ row_is_expired row = false
      /\ row_period_status row <> status_expired
      /\ (forall n, row_remaining_days row = Some n -> 0 <= n)
      /\ exists keywords,
           row_matched_keywords row = VList keywords /\ (length keywords <= 3)%nat)
  \/ (format_row (U := basic_unicode) day0 housing_result = Raise TypeError
      /\ exists d, housing_result = Obj d
           /\ (d !! "rqutPrdCn" = Some VNone
               \/ exists z, d !! "rqutPrdCn" = Some (VInt z))).
Proof.
  apply (category_rows_not_expired (U := basic_unicode) housing_table catalog_ok day0
           key0 housing (Some seongbuk_user) 20 housing_result).
  - reflexivity.
  - exact housing_result_found.
Defined.

Lemma parse_policy_period_round_trip_witness :
  _parse_policy_period (U := basic_unicode)
    (VStr (dotted_period (Date 2025 1 1) (Date 2025 12 31)))
  = (Some (Date 2025 1 1), Some (Date 2025 12 31))
  /\ (forall today d,
        d !! "rqutPrdCn"
        = Some (VStr (dotted_period (Date 2025 1 1) (Date 2025 12 31))) ->
        truthy (field d "bizPrdCn") = false ->
        _is_policy_expired (U := basic_unicode) today (Obj d)
        = date_ltb (Date 2025 12 31) today).
Proof.
  apply (parse_policy_period_round_trip (U := basic_unicode)
           (Date 2025 1 1) (Date 2025 12 31));
    try reflexivity; unfold short_year; simpl; lia.
Defined.

Lemma is_policy_expired_monotone_witness :
  Forall (fun policy =>
            _is_policy_expired (U := basic_unicode) day0 policy = true ->
            _is_policy_expired (U := basic_unicode) new_year policy = true)
         [record "R2" "청년 창업" "2020.01.01~2020.12.31";
          record "R3" "청년 취업" "2025.01.01~2025.12.31"]
  /\ _filter_active_policies (U := basic_unicode) new_year
       [record "R2" "청년 창업" "2020.01.01~2020.12.31";
        record "R3" "청년 취업" "2025.01.01~2025.12.31"]
     = _filter_active_policies (U := basic_unicode) new_year
         (_filter_active_policies (U := basic_unicode) day0
            [record "R2" "청년 창업" "2020.01.01~2020.12.31";
             record "R3" "청년 취업" "2025.01.01~2025.12.31"]).
Proof.
  apply (is_policy_expired_monotone (U := basic_unicode) day0 new_year).
  reflexivity.
Defined.

End FurtherExamples.
